(** * The Mercado Libre scan worker, [api/meli-scan-worker.js]

    A shallow embedding of the serverless handler that drains the
    [meli_scan_jobs] queue, together with the properties its
    specification states about it.

    Layout of the development:
    - JavaScript values and the handful of operators the handler uses;
    - the runtime interface (built-ins whose result involves IEEE numbers,
      Unicode tables or serialisation are taken as parameters);
    - the outside world (Supabase, [fetch], the clock) as an oracle whose
      answers may depend on everything that happened before, and a small
      monad that threads the log of interactions and thrown exceptions;
    - the handler itself, function by function;
    - a concrete runtime and concrete worlds on which the model is run;
    - the theorems. *)

From Stdlib Require Import ZArith String Ascii List Bool Lia DecimalString.
Import ListNotations.
Local Open Scope string_scope.
Local Open Scope list_scope.

Local Infix "+++" := String.append (right associativity, at level 60).

(** ** JavaScript values *)

Local Set Warnings "-register-all".

(** What a [throw] carries: the [message] property of the thrown object
    and the result of applying [String] to it. *)
Record js_error : Type := mk_js_error {
  message : string;
  error_String : string
}.

(** [new Error(msg)] *)
Definition Error_ (msg : string) : js_error :=
  {| message := msg;
     error_String := if (msg =? "")%string then "Error" else "Error: " +++ msg |}.

(** A [TypeError] raised by the engine. *)
Definition TypeError (msg : string) : js_error :=
  {| message := msg;
     error_String := if (msg =? "")%string then "TypeError" else "TypeError: " +++ msg |}.

(** [err.message || String(err)] *)
Definition error_text (err : js_error) : string :=
  if (message err =? "")%string then error_String err else message err.

(** Normal or abrupt completion of an evaluation. *)
Inductive completion (A : Type) : Type :=
| Normal (a : A)
| Thrown (e : js_error).
Arguments Normal {A} a.
Arguments Thrown {A} e.

Definition cbind {A B} (c : completion A) (k : A -> completion B) : completion B :=
  match c with
  | Normal a => k a
  | Thrown e => Thrown e
  end.

Fixpoint cmap {A B} (f : A -> completion B) (l : list A) : completion (list B) :=
  match l with
  | [] => Normal []
  | x :: l' =>
      cbind (f x) (fun y => cbind (cmap f l') (fun ys => Normal (y :: ys)))
  end.

Section Values.

Context {number : Type}.

(** A value as [JSON.parse] produces it, plus [undefined].  Objects are
    association lists from own keys to values; a lookup takes the first
    binding of a key. *)
Inductive value : Type :=
| VUndefined
| VNull
| VBool (b : bool)
| VNum (n : number)
| VStr (s : string)
| VArr (elems : list value)
| VObj (fields : list (string * value)).

(** *** Operators *)

Fixpoint lookup (k : string) (fields : list (string * value)) : value :=
  match fields with
  | [] => VUndefined
  | (k', v) :: rest => if (k' =? k)%string then v else lookup k rest
  end.

(** [v[k]] for a [v] that is neither [null] nor [undefined], and a key [k]
    that no built-in prototype defines (every key the handler reads is of
    that kind: results, id, title, permalink, price, currency_id, seller,
    seller_id, site_id, country, batch, limit, access_token, ...). *)
Definition prop (v : value) (k : string) : value :=
  match v with
  | VObj fields => lookup k fields
  | _ => VUndefined
  end.

Definition is_nullish (v : value) : bool :=
  match v with
  | VUndefined | VNull => true
  | _ => false
  end.

Definition null_deref_message (v : value) (k : string) : string :=
  "Cannot read properties of "
    +++ (match v with VNull => "null" | _ => "undefined" end)
    +++ " (reading '" +++ k +++ "')".

(** [v.k] : a [TypeError] on [null] and [undefined]. *)
Definition member (v : value) (k : string) : completion value :=
  if is_nullish v then Thrown (TypeError (null_deref_message v k))
  else Normal (prop v k).

(** [v?.k] *)
Definition opt_member (v : value) (k : string) : value :=
  if is_nullish v then VUndefined else prop v k.

(** [a ?? b] *)
Definition nullish (a b : value) : value :=
  if is_nullish a then b else a.

(** [typeof v === 'string'] *)
Definition typeof_is_string (v : value) : bool :=
  match v with
  | VStr _ => true
  | _ => false
  end.

(** [v === s] for a string literal [s] *)
Definition strict_eq_string (v : value) (s : string) : bool :=
  match v with
  | VStr s' => (s' =? s)%string
  | _ => false
  end.

(** [Array.isArray(v) && v.length > 0] *)
Definition is_nonempty_array (v : value) : bool :=
  match v with
  | VArr (_ :: _) => true
  | _ => false
  end.

(** The elements of an array value (used only behind [Array.isArray]). *)
Definition elements (v : value) : list value :=
  match v with
  | VArr l => l
  | _ => []
  end.

(** *** The runtime interface

    Built-ins of the JavaScript engine that this development does not
    re-implement.  [number] stands for IEEE-754 doubles.  The conversions
    of an object to a primitive may raise a [TypeError] (an own
    [toString] key shadows the built-in method with a value that cannot
    be called), and [toISOString] a [RangeError] (invalid date).  Strings are taken to be
    well formed, so that [encodeURIComponent] is total. *)
Class Runtime : Type := {
  num_of_Z : Z -> number;                  (* an integer literal *)
  num_add : number -> number -> number;
  num_mul : number -> number -> number;
  num_truthy : number -> bool;             (* neither 0 nor NaN *)
  num_to_String : number -> string;        (* String(n) *)
  ref_to_String : value -> completion string;  (* String(v), v an array or object *)
  other_to_Number : value -> completion number; (* Number(v), v not a number *)
  JSON_stringify : value -> string;
  encodeURIComponent : string -> string;
  toISOString : number -> completion string;   (* new Date(ms).toISOString() *)
  trim : string -> string;
  toLowerCase : string -> string
}.

Context {RT : Runtime}.

(** [String(v)] *)
Definition String_ (v : value) : completion string :=
  match v with
  | VUndefined => Normal "undefined"
  | VNull => Normal "null"
  | VBool true => Normal "true"
  | VBool false => Normal "false"
  | VNum n => Normal (num_to_String n)
  | VStr s => Normal s
  | VArr _ | VObj _ => ref_to_String v
  end.

(** [Number(v)] *)
Definition Number_ (v : value) : completion number :=
  match v with
  | VNum n => Normal n
  | _ => other_to_Number v
  end.

(** Truthiness, as [if (v)], [!v] and [a || b] test it. *)
Definition truthy (v : value) : bool :=
  match v with
  | VUndefined | VNull => false
  | VBool b => b
  | VNum n => num_truthy n
  | VStr s => negb (s =? "")%string
  | VArr _ | VObj _ => true
  end.

(** [s.startsWith(p)] *)
Definition startsWith (s p : string) : bool := prefix p s.

(** [s.slice(n)], [n] a non-negative literal *)
Fixpoint slice (n : nat) (s : string) : string :=
  match n, s with
  | O, _ => s
  | S n', String _ s' => slice n' s'
  | S _, EmptyString => EmptyString
  end.

(** [s.replace(pat, rep)] with string arguments: the first occurrence of a
    non-empty [pat] is replaced. *)
Fixpoint replace (pat rep s : string) : string :=
  if prefix pat s then rep +++ slice (String.length pat) s
  else match s with
       | EmptyString => EmptyString
       | String c s' => String c (replace pat rep s')
       end.

(** Decimal rendering of an integer, as a template literal renders an
    integral number such as an HTTP status. *)
Definition decimal (z : Z) : string := NilZero.string_of_int (Z.to_int z).

(** ** [extractItems] (lines 101-107) *)

Definition extractItems (category_id : string) (payload : value) : list value :=
  if is_nonempty_array (opt_member payload "results") then
    elements (opt_member payload "results")
  else if is_nonempty_array payload then elements payload
  else [].

(** [extract_items] as the specification words it: the "results" field
    when it is a non-empty list, else the payload when it is a non-empty
    list, else nothing. *)
Inductive extract_items_spec (payload : value) : list value -> Prop :=
| ExtractResults (x : value) (xs : list value) :
    opt_member payload "results" = VArr (x :: xs) ->
    extract_items_spec payload (x :: xs)
| ExtractBare (x : value) (xs : list value) :
    (forall y ys, opt_member payload "results" <> VArr (y :: ys)) ->
    payload = VArr (x :: xs) ->
    extract_items_spec payload (x :: xs)
| ExtractNothing :
    (forall y ys, opt_member payload "results" <> VArr (y :: ys)) ->
    (forall y ys, payload <> VArr (y :: ys)) ->
    extract_items_spec payload [].

End Values.

Arguments value : clear implicits.
Arguments Runtime : clear implicits.

(** ** Data exchanged with the outside world *)

(** [process.env]: the OAuth client credentials (lines 3-10). *)
Class Env : Type := {
  ML_CLIENT_ID : string;
  ML_CLIENT_SECRET : string
}.

(** The [{ data, error }] pair a Supabase query resolves to. *)
Record db_result (A : Type) : Type := {
  data : option A;
  error : option js_error
}.
Arguments data {A} d.
Arguments error {A} d.

Section World.

Context {number : Type}.

(** A row of [meli_scan_jobs] as the select of lines 121-127 returns it:
    [id] is an integer column and the text columns are strings;
    [attempts] is a number as JavaScript holds it, or [null] ([None]). *)
Record job : Type := {
  job_id : Z;
  job_site_id : string;
  job_category_id : string;
  job_status : string;
  job_attempts : option number
}.

(** The columns of a [meli_oauth_tokens] row that the handler reads; both
    are nullable text. *)
Record token_row : Type := {
  tok_access_token : option string;
  tok_refresh_token : option string
}.

(** The object passed to [.update(...)] on [meli_scan_jobs]; [None] in
    [upd_last_error] is [null], [None] in [upd_attempts] an absent key. *)
Record job_update : Type := {
  upd_status : string;
  upd_attempts : option number;
  upd_updated_at : string;
  upd_last_error : option string
}.

(** The object written to [meli_oauth_tokens] by [refreshToken];
    [tw_user_id] is present on the upsert path only. *)
Record token_write : Type := {
  tw_user_id : option string;
  tw_access_token : string;
  tw_refresh_token : string;
  tw_token_type : value number;
  tw_scope : value number;
  tw_expires_at : string;
  tw_updated_at : string
}.

(** A row of [meli_category_items] (lines 213-224). *)
Record row : Type := {
  row_job_id : Z;
  row_site_id : string;
  row_category_id : string;
  row_item_id : string;
  row_title : value number;
  row_permalink : value number;
  row_price : value number;
  row_currency_id : value number;
  row_seller_id : value number;
  row_raw : value number
}.

(** The arguments of a [fetch] call. *)
Record fetch_request : Type := {
  rq_url : string;
  rq_method : string;
  rq_headers : list (string * string);
  rq_body : list (string * string)
}.

(** A [fetch] response: its status and what [res.json()] resolves to
    ([None] when the body is not JSON and the promise rejects). *)
Record http_response : Type := {
  status : Z;
  json : option (value number)
}.

(** [res.ok] *)
Definition ok (res : http_response) : bool :=
  ((200 <=? status res) && (status res <=? 299))%Z.

(** [await res.json().catch(() => ({}))] *)
Definition json_or_empty (res : http_response) : value number :=
  match json res with
  | Some v => v
  | None => VObj []
  end.

(** One interaction with the outside world, with the answer received. *)
Inductive event : Type :=
| ESelectJobs (site_id : string) (batch : number) (r : db_result (list job))
| ESelectLatestToken (r : db_result token_row)
| EUpdateJob (id : Z) (u : job_update) (r : option js_error)
| EUpsertItems (rows : list row) (r : option js_error)
| EUpsertToken (w : token_write) (r : option js_error)
| EUpdateToken (old_refresh_token : string) (w : token_write) (r : option js_error)
| EFetch (rq : fetch_request) (r : completion http_response)
| ENow (ms : number)
| ENowISO (iso : string).

Definition trace : Type := list event.

(** The outside world: each answer may depend on the whole history. A
    Supabase call resolves to its [error] (it does not reject); [fetch]
    resolves to a response or rejects. *)
Record world : Type := {
  w_select_jobs : trace -> string -> number -> db_result (list job);
  w_select_latest_token : trace -> db_result token_row;
  w_update_job : trace -> Z -> job_update -> option js_error;
  w_upsert_items : trace -> list row -> option js_error;
  w_upsert_token : trace -> token_write -> option js_error;
  w_update_token : trace -> string -> token_write -> option js_error;
  w_fetch : trace -> fetch_request -> completion http_response;
  w_now : trace -> number;
  w_now_iso : trace -> string
}.

(** *** The monad of the handler

    A computation is run in a world and after a history; it yields a
    result or a thrown exception, and the interactions it performed, in
    order.  The world is asked each question with everything that
    happened before it. *)
Definition M (A : Type) : Type := world -> trace -> completion A * trace.

Definition ret {A} (a : A) : M A := fun _ _ => (Normal a, []).

Definition throw {A} (e : js_error) : M A := fun _ _ => (Thrown e, []).

Definition bind {A B} (m : M A) (k : A -> M B) : M B :=
  fun w h =>
    match m w h with
    | (Normal a, t1) =>
        match k a w (h ++ t1) with
        | (c, t2) => (c, t1 ++ t2)
        end
    | (Thrown e, t1) => (Thrown e, t1)
    end.

Definition lift {A} (c : completion A) : M A := fun _ _ => (c, []).

Definition select_jobs (site_id : string) (batch : number) : M (db_result (list job)) :=
  fun w h => let r := w_select_jobs w h site_id batch in
             (Normal r, [ESelectJobs site_id batch r]).

Definition select_latest_token : M (db_result token_row) :=
  fun w h => let r := w_select_latest_token w h in
             (Normal r, [ESelectLatestToken r]).

Definition update_job (id : Z) (u : job_update) : M (option js_error) :=
  fun w h => let r := w_update_job w h id u in
             (Normal r, [EUpdateJob id u r]).

Definition upsert_items (rows : list row) : M (option js_error) :=
  fun w h => let r := w_upsert_items w h rows in
             (Normal r, [EUpsertItems rows r]).

Definition upsert_token (t : token_write) : M (option js_error) :=
  fun w h => let r := w_upsert_token w h t in
             (Normal r, [EUpsertToken t r]).

Definition update_token (old : string) (t : token_write) : M (option js_error) :=
  fun w h => let r := w_update_token w h old t in
             (Normal r, [EUpdateToken old t r]).

Definition fetch (rq : fetch_request) : M http_response :=
  fun w h => let r := w_fetch w h rq in (r, [EFetch rq r]).

(** [Date.now()] *)
Definition date_now : M number :=
  fun w h => let t := w_now w h in (Normal t, [ENow t]).

(** [new Date().toISOString()] *)
Definition now_iso : M string :=
  fun w h => let t := w_now_iso w h in (Normal t, [ENowISO t]).

(** *** Reading a log *)

Definition count (p : event -> bool) (t : trace) : nat := List.length (filter p t).

Definition has_header (name : string) (rq : fetch_request) : bool :=
  existsb (fun kv => (fst kv =? name)%string) (rq_headers rq).

(** A call to the OAuth token endpoint. *)
Definition is_refresh (e : event) : bool :=
  match e with
  | EFetch rq _ => (rq_url rq =? "https://api.mercadolibre.com/oauth/token")%string
  | _ => false
  end.

(** A [GET] that carries an [Authorization] header. *)
Definition is_private_fetch (e : event) : bool :=
  match e with
  | EFetch rq _ => (rq_method rq =? "GET")%string && has_header "Authorization" rq
  | _ => false
  end.

(** A [GET] without an [Authorization] header. *)
Definition is_public_fetch (e : event) : bool :=
  match e with
  | EFetch rq _ => (rq_method rq =? "GET")%string && negb (has_header "Authorization" rq)
  | _ => false
  end.

(** A public [GET] on a seller's items that was answered 401. *)
Definition is_seller_401 (e : event) : bool :=
  match e with
  | EFetch rq (Normal res) =>
      is_public_fetch e
      && prefix "https://api.mercadolibre.com/users/" (rq_url rq)
      && (status res =? 401)%Z
  | _ => false
  end.

(** Any [fetch]. *)
Definition is_fetch (e : event) : bool :=
  match e with
  | EFetch _ _ => true
  | _ => false
  end.

(** A write to [meli_oauth_tokens]. *)
Definition is_token_write (e : event) : bool :=
  match e with
  | EUpsertToken _ _ | EUpdateToken _ _ _ => true
  | _ => false
  end.

(** Any database write. *)
Definition is_mutation (e : event) : bool :=
  match e with
  | EUpdateJob _ _ _ | EUpsertItems _ _ | EUpsertToken _ _ | EUpdateToken _ _ _ => true
  | _ => false
  end.

(** An update of [meli_scan_jobs]. *)
Definition is_job_update (e : event) : bool :=
  match e with
  | EUpdateJob _ _ _ => true
  | _ => false
  end.

(** A computation none of whose interactions satisfies [p], wherever it
    is run. *)
Definition silent (p : event -> bool) {A : Type} (m : M A) : Prop :=
  forall w h, count p (snd (m w h)) = 0.

(** What [p] must avoid for the bookkeeping of a refresh, respectively
    the settlement of a job, to be silent. *)
Definition avoids_refresh_bookkeeping (p : event -> bool) : Prop :=
  (forall n, p (ENow n) = false)
  /\ (forall s, p (ENowISO s) = false)
  /\ (forall v r, p (EUpsertToken v r) = false)
  /\ (forall o v r, p (EUpdateToken o v r) = false).

Definition avoids_settlement (p : event -> bool) : Prop :=
  (forall s, p (ENowISO s) = false)
  /\ (forall i v r, p (EUpdateJob i v r) = false)
  /\ (forall l r, p (EUpsertItems l r) = false).

(** The status each job update of a log asks for, in order. *)
Fixpoint status_updates (t : trace) : list (Z * string) :=
  match t with
  | [] => []
  | EUpdateJob id u _ :: t' => (id, upd_status u) :: status_updates t'
  | _ :: t' => status_updates t'
  end.

(** A final status of a job. *)
Definition is_final (s : string) : Prop := s = "done" \/ s = "error".

(** The status updates of jobs processed to the end: each is claimed, then
    given its final status. *)
Definition finalized (settled : list (job * string)) : list (Z * string) :=
  flat_map (fun p => [(job_id (fst p), "processing"); (job_id (fst p), snd p)]) settled.

(** The status of job [id] once the updates of a log that the database
    accepted have been applied, starting from status [s]. *)
Fixpoint status_after (t : trace) (id : Z) (s : string) : string :=
  match t with
  | [] => s
  | EUpdateJob id' u None :: t' =>
      status_after t' id (if (id' =? id)%Z then upd_status u else s)
  | _ :: t' => status_after t' id s
  end.

End World.

Arguments job : clear implicits.
Arguments job_update : clear implicits.
Arguments token_write : clear implicits.
Arguments row : clear implicits.
Arguments http_response : clear implicits.
Arguments event : clear implicits.
Arguments trace : clear implicits.
Arguments world : clear implicits.
Arguments M : clear implicits.

Declare Scope js_scope.
Delimit Scope js_scope with js.
Notation "x <- m ;; k" := (bind m (fun x => k))
  (at level 61, m at next level, right associativity) : js_scope.
Notation "m ;; k" := (bind m (fun _ => k))
  (at level 61, right associativity) : js_scope.

(** ** The handler *)

Section Handler.

Context {number : Type} {RT : Runtime number} {ENV : Env}.

Local Open Scope js_scope.

Local Abbreviation value := (value number).
Local Abbreviation M := (M number).
Local Abbreviation job := (job number).
Local Abbreviation job_update := (job_update number).
Local Abbreviation row := (row number).
Local Abbreviation http_response := (http_response number).
Local Abbreviation world := (world number).
Local Abbreviation trace := (trace number).
Local Abbreviation token_write := (token_write number).

(** *** [getLatestToken] (lines 14-27) *)

(** [!s] for a nullable text column *)
Definition falsy_text (s : option string) : bool :=
  match s with
  | Some s' => (s' =? "")%string
  | None => true
  end.

(** [String(s)] for a nullable text column *)
Definition String_text (s : option string) : string :=
  match s with
  | Some s' => s'
  | None => "null"
  end.

Definition no_token_found : js_error :=
  Error_ "No token found in meli_oauth_tokens (missing access_token or refresh_token)".

Definition getLatestToken : M token_row :=
  r <- select_latest_token ;;
  match error r with
  | Some e => throw e
  | None =>
      match data r with
      | None => throw no_token_found
      | Some d =>
          if falsy_text (tok_access_token d) || falsy_text (tok_refresh_token d)
          then throw no_token_found
          else ret d
      end
  end.

(** *** [refreshToken] (lines 29-78) *)

Record refreshed : Type := {
  access_token : string;
  refresh_token : string;
  expires_at : string
}.

Definition oauth_url : string := "https://api.mercadolibre.com/oauth/token".

Definition oauth_request (refresh_token : string) : fetch_request :=
  {| rq_url := oauth_url;
     rq_method := "POST";
     rq_headers := [("content-type", "application/x-www-form-urlencoded")];
     rq_body := [("grant_type", "refresh_token");
                 ("client_id", ML_CLIENT_ID);
                 ("client_secret", ML_CLIENT_SECRET);
                 ("refresh_token", refresh_token)] |}.

(** Lines 40-77: what [refreshToken] does with the response of the OAuth
    endpoint.  After [json.access_token] has been read without a
    [TypeError], [json] is neither [null] nor [undefined] and the later
    reads are [prop]. *)
Definition store_refreshed (refresh_token : string) (res : http_response)
  : M refreshed :=
  let json := json_or_empty res in
  if negb (ok res) then
    throw (Error_ ("Refresh token failed: " +++ decimal (status res)
                     +++ " " +++ JSON_stringify json))
  else
    at_ <- lift (member json "access_token") ;;
    access_token <- lift (String_ at_) ;;
    new_refresh_token <-
      lift (String_ (nullish (prop json "refresh_token") (VStr refresh_token))) ;;
    expires_in <-
      lift (Number_ (nullish (prop json "expires_in") (VNum (num_of_Z 21600)))) ;;
    t0 <- date_now ;;
    expires_at <- lift (toISOString (num_add t0 (num_mul expires_in (num_of_Z 1000)))) ;;
    let fields (user_id : option string) (updated_at : string) : token_write :=
      {| tw_user_id := user_id;
         tw_access_token := access_token;
         tw_refresh_token := new_refresh_token;
         tw_token_type := nullish (prop json "token_type") (VStr "Bearer");
         tw_scope := prop json "scope";
         tw_expires_at := expires_at;
         tw_updated_at := updated_at |} in
    err <- (if truthy (prop json "user_id") then
              user_id <- lift (String_ (prop json "user_id")) ;;
              updated_at <- now_iso ;;
              upsert_token (fields (Some user_id) updated_at)
            else
              updated_at <- now_iso ;;
              update_token refresh_token (fields None updated_at)) ;;
    match err with
    | Some e => throw e
    | None =>
        ret {| access_token := access_token;
               refresh_token := new_refresh_token;
               expires_at := expires_at |}
    end.

(** Lines 29-78 *)
Definition refreshToken (refresh_token : string) : M refreshed :=
  res <- fetch (oauth_request refresh_token) ;;
  store_refreshed refresh_token res.

(** *** [mlGetPublic] and [mlGetPrivate] (lines 80-99) *)

Definition public_request (url : string) : fetch_request :=
  {| rq_url := url;
     rq_method := "GET";
     rq_headers := [("Accept", "application/json");
                    ("User-Agent", "KelokeTrendsBot/1.0")];
     rq_body := [] |}.

Definition private_request (url accessToken : string) : fetch_request :=
  {| rq_url := url;
     rq_method := "GET";
     rq_headers := [("Authorization", "Bearer " +++ accessToken);
                    ("Accept", "application/json");
                    ("User-Agent", "KelokeTrendsBot/1.0")];
     rq_body := [] |}.

Definition mlGetPublic (url : string) : M http_response :=
  fetch (public_request url).

Definition mlGetPrivate (url accessToken : string) : M http_response :=
  fetch (private_request url accessToken).

(** *** The request and the reply *)

Record request : Type := {
  method : string;
  body : value;                        (* [VUndefined] when absent *)
  headers : list (string * string)
}.

(** One element of [results]. *)
Inductive result_entry : Type :=
| ResultOk (job_id : Z) (category : string) (items : nat) (mode : string)
| ResultHttpFailure (job_id : Z) (category : string) (status : Z) (payload : value)
| ResultDbFailure (job_id : Z) (category : string) (db_error : string).

(** The object given to [res.json]. *)
Inductive reply_body : Type :=
| BodyFailure (error : string)                       (* {ok:false, error} *)
| BodyNoJobs (site_id : string) (batch limit : number)
                                                     (* {ok:true, msg:'no_jobs', ...} *)
| BodySummary (site_id : string) (processed inserted : nat)
    (token_source : string) (token_len : nat) (results : list result_entry).

Record reply : Type := {
  reply_status : Z;
  reply_body_of : reply_body
}.

(** [req.body || {}] (line 115) *)
Definition body_or_empty (req : request) : value :=
  if truthy (body req) then body req else VObj [].

(** [body.country === 'CL' ? 'MLC' : 'MLC'] (line 116) *)
Definition default_site_id (body : value) : value :=
  if strict_eq_string (prop body "country") "CL" then VStr "MLC" else VStr "MLC".

(** Line 116 *)
Definition resolve_site_id (body : value) : completion string :=
  String_ (nullish (prop body "site_id") (default_site_id body)).

(** Lines 117-118 *)
Definition resolve_batch (body : value) : completion number :=
  Number_ (nullish (prop body "batch") (VNum (num_of_Z 5))).

Definition resolve_limit (body : value) : completion number :=
  Number_ (nullish (prop body "limit") (VNum (num_of_Z 50))).

Fixpoint header (name : string) (hs : list (string * string)) : option string :=
  match hs with
  | [] => None
  | (k, v) :: rest => if (k =? name)%string then Some v else header name rest
  end.

(** [h || dflt] for a header value [h] *)
Definition or_else (h : option string) (dflt : string) : string :=
  match h with
  | Some s => if (s =? "")%string then dflt else s
  | None => dflt
  end.

(** Lines 142-143 *)
Definition incomingBearer (req : request) : string :=
  trim (or_else (header "authorization" (headers req))
          (or_else (header "Authorization" (headers req)) "")).

(** *** The per-job state of the loop (lines 138-140, 158-160) *)

Record loop_state : Type := {
  accessToken : string;
  refreshTok : string;
  results : list result_entry;
  processed : nat;
  inserted : nat
}.

Definition push (st : loop_state) (r : result_entry) : loop_state :=
  {| accessToken := accessToken st;
     refreshTok := refreshTok st;
     results := results st ++ [r];
     processed := processed st;
     inserted := inserted st |}.

(** Lines 165-173; line 169, [(job.attempts ?? 0) + 1], is an addition of
    numbers. *)
Definition mark_processing (j : job) : M unit :=
  t <- now_iso ;;
  update_job (job_id j)
    {| upd_status := "processing";
       upd_attempts := Some (num_add (match job_attempts j with
                                      | Some a => a
                                      | None => num_of_Z 0
                                      end) (num_of_Z 1));
       upd_updated_at := t;
       upd_last_error := None |} ;;
  ret tt.

(** Line 175 *)
Definition isSeller (j : job) : bool := startsWith (job_category_id j) "SELLER:".

(** Lines 176-182 *)
Definition job_url (site_id : string) (limit : number) (j : job) : string :=
  if isSeller j then
    let sellerId := trim (replace "SELLER:" "" (job_category_id j)) in
    "https://api.mercadolibre.com/users/" +++ encodeURIComponent sellerId
      +++ "/items/search?limit=" +++ encodeURIComponent (num_to_String limit)
  else
    "https://api.mercadolibre.com/sites/" +++ encodeURIComponent site_id
      +++ "/search?category=" +++ encodeURIComponent (job_category_id j)
      +++ "&limit=" +++ encodeURIComponent (num_to_String limit).

(** Lines 184-190: the public call and, for a seller job answered 401, the
    refresh and the authenticated retry. *)
Definition fetch_listing (seller : bool) (url : string) (st : loop_state)
  : M (http_response * loop_state) :=
  resMl <- mlGetPublic url ;;
  if seller && (status resMl =? 401)%Z then
    refreshed <- refreshToken (refreshTok st) ;;
    let st' := {| accessToken := access_token refreshed;
                  refreshTok := refresh_token refreshed;
                  results := results st;
                  processed := processed st;
                  inserted := inserted st |} in
    resMl' <- mlGetPrivate url (accessToken st') ;;
    ret (resMl', st')
  else ret (resMl, st).

(** Lines 211-225: one element of [rows]. Once [it.id] has been read, [it]
    is neither [null] nor [undefined] and the later reads are [prop]. *)
Definition normalize_item (site_id : string) (j : job) (it : value) : completion row :=
  let isStringId := typeof_is_string it in
  cbind (if isStringId then Normal it else member it "id") (fun id_ =>
  cbind (String_ id_) (fun item_id =>
  Normal
    {| row_job_id := job_id j;
       row_site_id := site_id;
       row_category_id := job_category_id j;
       row_item_id := item_id;
       row_title := if isStringId then VNull else nullish (prop it "title") VNull;
       row_permalink := if isStringId then VNull else nullish (prop it "permalink") VNull;
       row_price := if isStringId then VNull else nullish (prop it "price") VNull;
       row_currency_id :=
         if isStringId then VNull else nullish (prop it "currency_id") VNull;
       row_seller_id :=
         if isStringId then VNull
         else nullish (opt_member (prop it "seller") "id")
                (nullish (prop it "seller_id") VNull);
       row_raw := it |})).

Definition mark_error (j : job) (msg : string) : M unit :=
  t <- now_iso ;;
  update_job (job_id j)
    {| upd_status := "error";
       upd_attempts := None;
       upd_updated_at := t;
       upd_last_error := Some msg |} ;;
  ret tt.

Definition mark_done (j : job) : M unit :=
  t <- now_iso ;;
  update_job (job_id j)
    {| upd_status := "done";
       upd_attempts := None;
       upd_updated_at := t;
       upd_last_error := None |} ;;
  ret tt.

Definition http_failure (j : job) (resMl : http_response) : result_entry :=
  ResultHttpFailure (job_id j) (job_category_id j) (status resMl) (json_or_empty resMl).

Definition http_failure_message (resMl : http_response) : string :=
  "ML " +++ decimal (status resMl) +++ " " +++ JSON_stringify (json_or_empty resMl).

(** Lines 248-263 *)
Definition finish_job (j : job) (items : list value) (st : loop_state) : M loop_state :=
  mark_done j ;;
  ret (push st (ResultOk (job_id j) (job_category_id j) (List.length items)
                  (if isSeller j then "seller" else "category_public"))).

(** Lines 192-263: what happens to a job once its response is in. *)
Definition settle_job (site_id : string) (j : job) (resMl : http_response)
    (st : loop_state) : M loop_state :=
  let payload := json_or_empty resMl in
  if negb (ok resMl) then
    mark_error j (http_failure_message resMl) ;;
    ret (push st (http_failure j resMl))
  else
    let items := extractItems (job_category_id j) payload in
    match items with
    | [] => finish_job j items st
    | _ :: _ =>
        rows <- lift (cmap (normalize_item site_id j) items) ;;
        upErr <- upsert_items rows ;;
        match upErr with
        | Some e =>
            mark_error j ("DB upsert error: " +++ message e) ;;
            ret (push st (ResultDbFailure (job_id j) (job_category_id j) (message e)))
        | None =>
            finish_job j items
              {| accessToken := accessToken st;
                 refreshTok := refreshTok st;
                 results := results st;
                 processed := processed st;
                 inserted := inserted st + List.length rows |}
        end
    end.

(** The body of the loop, lines 163-263. *)
Definition process_job (site_id : string) (limit : number) (j : job) (st : loop_state)
  : M loop_state :=
  let st1 := {| accessToken := accessToken st;
                refreshTok := refreshTok st;
                results := results st;
                processed := S (processed st);
                inserted := inserted st |} in
  mark_processing j ;;
  rs <- fetch_listing (isSeller j) (job_url site_id limit j) st1 ;;
  settle_job site_id j (fst rs) (snd rs).

(** [for (const job of jobs)], lines 162-264 *)
Fixpoint process_jobs (site_id : string) (limit : number) (jobs : list job)
    (st : loop_state) : M loop_state :=
  match jobs with
  | [] => ret st
  | j :: rest =>
      st' <- process_job site_id limit j st ;;
      process_jobs site_id limit rest st'
  end.

(** Lines 138-156: the token pair the loop starts from, and its source. *)
Definition resolve_tokens (req : request) : M (string * loop_state) :=
  let bearer := incomingBearer req in
  if negb (bearer =? "")%string then
    let accessToken :=
      if startsWith (toLowerCase bearer) "bearer " then trim (slice 7 bearer)
      else bearer in
    tok <- getLatestToken ;;
    ret ("header",
         {| accessToken := accessToken;
            refreshTok := String_text (tok_refresh_token tok);
            results := []; processed := 0; inserted := 0 |})
  else
    tok <- getLatestToken ;;
    ret ("db",
         {| accessToken := String_text (tok_access_token tok);
            refreshTok := String_text (tok_refresh_token tok);
            results := []; processed := 0; inserted := 0 |}).

(** The [try] block, lines 121-274. *)
Definition handler_try (req : request) (site_id : string) (batch limit : number)
  : M reply :=
  r <- select_jobs site_id batch ;;
  match error r with
  | Some jobsErr =>
      ret {| reply_status := 500; reply_body_of := BodyFailure (message jobsErr) |}
  | None =>
      match data r with
      | None | Some [] =>
          ret {| reply_status := 200; reply_body_of := BodyNoJobs site_id batch limit |}
      | Some jobs =>
          ts <- resolve_tokens req ;;
          st <- process_jobs site_id limit jobs (snd ts) ;;
          ret {| reply_status := 200;
                 reply_body_of :=
                   BodySummary site_id (processed st) (inserted st) (fst ts)
                     (String.length (accessToken st)) (results st) |}
      end
  end.

(** [module.exports], lines 109-278, run in a world [w] after the history
    [h]: the reply sent and the log of the invocation.  Lines 115-118 stand
    before the [try]: an exception there is not caught and the handler
    rejects without a reply. *)
Definition handler (req : request) (w : world) (h : trace)
  : completion reply * trace :=
  if negb (method req =? "POST")%string then
    (Normal {| reply_status := 405;
               reply_body_of := BodyFailure "Method not allowed" |}, [])
  else
    let body := body_or_empty req in
    match resolve_site_id body with
    | Thrown e => (Thrown e, [])
    | Normal site_id =>
    match resolve_batch body with
    | Thrown e => (Thrown e, [])
    | Normal batch =>
    match resolve_limit body with
    | Thrown e => (Thrown e, [])
    | Normal limit =>
        match handler_try req site_id batch limit w h with
        | (Normal r, t) => (Normal r, t)
        | (Thrown err, t) =>
            (Normal {| reply_status := 500;
                       reply_body_of := BodyFailure (error_text err) |}, t)
        end
    end end end.

End Handler.

(** ** A concrete runtime

    An instance of the runtime interface on which the model can be run.
    Its numbers are NaN and the integers that are doubles, sums and
    products being rounded to the nearest double; its strings are ASCII.
    It is exact on integers below [10^21] in magnitude, on values whose
    objects have distinct, non-numeric keys, on numeric strings that are
    plain decimal integers and on dates of the years 0 to 9999. *)

Module Concrete.

Local Open Scope nat_scope.

Inductive num : Type :=
| Int (z : Z)
| NaN.

(** The double nearest to an integer, ties going to the even mantissa;
    an integer below [2^53] in magnitude is a double. *)
Definition to_double (z : Z) : Z :=
  (let a := Z.abs z in
   if a <? 9007199254740992 then z
   else
     let e := Z.log2 a - 52 in
     let q := Z.shiftr a e in
     let r := a - Z.shiftl q e in
     let half := Z.shiftl 1 (e - 1) in
     let q' := if (half <? r) || ((r =? half) && Z.odd q) then q + 1 else q in
     Z.sgn z * Z.shiftl q' e)%Z.

Definition add (a b : num) : num :=
  match a, b with
  | Int x, Int y => Int (to_double (x + y))
  | _, _ => NaN
  end.

Definition mul (a b : num) : num :=
  match a, b with
  | Int x, Int y => Int (to_double (x * y))
  | _, _ => NaN
  end.

Definition num_String (n : num) : string :=
  match n with
  | Int z => decimal z
  | NaN => "NaN"
  end.

Definition quote : string := String "034"%char EmptyString.

Definition hex_digit (n : nat) : string :=
  String (nth n (list_ascii_of_string "0123456789ABCDEF") "0"%char) EmptyString.

Definition lower_hex_digit (n : nat) : string :=
  String (nth n (list_ascii_of_string "0123456789abcdef") "0"%char) EmptyString.

Fixpoint concat_map (f : ascii -> string) (s : string) : string :=
  match s with
  | EmptyString => EmptyString
  | String c s' => f c +++ concat_map f s'
  end.

Definition is_unreserved (c : ascii) : bool :=
  let n := nat_of_ascii c in
  ((65 <=? n) && (n <=? 90)) || ((97 <=? n) && (n <=? 122))
  || ((48 <=? n) && (n <=? 57))
  || existsb (Nat.eqb n) [45; 95; 46; 33; 126; 42; 39; 40; 41].

Definition encode_uri_component (s : string) : string :=
  concat_map (fun c =>
    if is_unreserved c then String c EmptyString
    else "%" +++ hex_digit (nat_of_ascii c / 16) +++ hex_digit (nat_of_ascii c mod 16)) s.

Definition is_space (c : ascii) : bool :=
  existsb (Nat.eqb (nat_of_ascii c)) [9; 10; 11; 12; 13; 32].

Fixpoint trim_start (s : string) : string :=
  match s with
  | String c s' => if is_space c then trim_start s' else s
  | EmptyString => EmptyString
  end.

Fixpoint trim_end (s : string) : string :=
  match s with
  | EmptyString => EmptyString
  | String c s' =>
      match trim_end s' with
      | EmptyString => if is_space c then EmptyString else String c EmptyString
      | rest => String c rest
      end
  end.

Definition trim_ascii (s : string) : string := trim_end (trim_start s).

Definition lower_ascii (s : string) : string :=
  concat_map (fun c =>
    let n := nat_of_ascii c in
    String (if (65 <=? n) && (n <=? 90) then ascii_of_nat (n + 32) else c) EmptyString) s.

Definition escape (c : ascii) : string :=
  let n := nat_of_ascii c in
  if n =? 34 then "\" +++ quote
  else if n =? 92 then "\\"
  else if n =? 8 then "\b"
  else if n =? 9 then "\t"
  else if n =? 10 then "\n"
  else if n =? 12 then "\f"
  else if n =? 13 then "\r"
  else if n <? 32 then "\u00" +++ lower_hex_digit (n / 16) +++ lower_hex_digit (n mod 16)
  else String c EmptyString.

Definition quoted (s : string) : string := quote +++ concat_map escape s +++ quote.

Fixpoint join (sep : string) (l : list string) : string :=
  match l with
  | [] => ""
  | [x] => x
  | x :: l' => x +++ sep +++ join sep l'
  end.

(** [JSON.stringify(v)]; [undefined] stands for itself, as a template
    literal renders it. *)
Fixpoint stringify (v : value num) : string :=
  match v with
  | VUndefined => "undefined"
  | VNull => "null"
  | VBool true => "true"
  | VBool false => "false"
  | VNum (Int z) => decimal z
  | VNum NaN => "null"
  | VStr s => quoted s
  | VArr l =>
      "[" +++ join ","
                (map (fun x => match x with
                               | VUndefined => "null"
                               | _ => stringify x
                               end) l) +++ "]"
  | VObj fields =>
      "{" +++ join ","
                ((fix members (fs : list (string * value num)) : list string :=
                    match fs with
                    | [] => []
                    | (k, VUndefined) :: fs' => members fs'
                    | (k, x) :: fs' => (quoted k +++ ":" +++ stringify x) :: members fs'
                    end) fields) +++ "}"
  end.

(** [String(v)]; an object renders as [[object Object]] unless an own key
    shadows [toString]: what [JSON.parse] puts there cannot be called, and
    [valueOf], own or inherited, yields no primitive either. *)
Fixpoint to_String (v : value num) : completion string :=
  match v with
  | VUndefined => Normal "undefined"
  | VNull => Normal "null"
  | VBool true => Normal "true"
  | VBool false => Normal "false"
  | VNum n => Normal (num_String n)
  | VStr s => Normal s
  | VArr l =>
      cbind
        ((fix each (xs : list (value num)) : completion (list string) :=
            match xs with
            | [] => Normal []
            | x :: xs' =>
                cbind (match x with
                       | VUndefined | VNull => Normal ""
                       | _ => to_String x
                       end)
                  (fun s => cbind (each xs') (fun ss => Normal (s :: ss)))
            end) l)
        (fun ss => Normal (join "," ss))
  | VObj fields =>
      if existsb (fun kv => (fst kv =? "toString")%string) fields
      then Thrown (TypeError "Cannot convert object to primitive value")
      else Normal "[object Object]"
  end.

Fixpoint digits (s : string) (acc : Z) : option Z :=
  match s with
  | EmptyString => Some acc
  | String c s' =>
      let n := nat_of_ascii c in
      if (48 <=? n) && (n <=? 57) then digits s' (10 * acc + Z.of_nat (n - 48))%Z
      else None
  end.

Definition string_to_num (s : string) : num :=
  match trim_ascii s with
  | EmptyString => Int 0%Z
  | String "-"%char (String c r) =>
      match digits (String c r) 0%Z with Some z => Int (- z)%Z | None => NaN end
  | String "+"%char (String c r) =>
      match digits (String c r) 0%Z with Some z => Int z | None => NaN end
  | t => match digits t 0%Z with Some z => Int z | None => NaN end
  end.

(** [Number(v)] *)
Definition to_Number (v : value num) : completion num :=
  match v with
  | VUndefined => Normal NaN
  | VNull => Normal (Int 0%Z)
  | VBool true => Normal (Int 1%Z)
  | VBool false => Normal (Int 0%Z)
  | VNum n => Normal n
  | VStr s => Normal (string_to_num s)
  | VArr _ | VObj _ => cbind (to_String v) (fun s => Normal (string_to_num s))
  end.

Fixpoint zeros (n : nat) (s : string) : string :=
  match n with
  | O => s
  | S n' => "0" +++ zeros n' s
  end.

Definition padded (width : nat) (z : Z) : string :=
  zeros (width - String.length (decimal z)) (decimal z).

(** The proleptic Gregorian date of a day number counted from 1 January
    1970, as (year, month, day). *)
Definition civil_from_days (days : Z) : Z * Z * Z :=
  (  let z := days + 719468 in
  let era := z / 146097 in
  let doe := z - era * 146097 in
  let yoe := (doe - doe / 1460 + doe / 36524 - doe / 146096) / 365 in
  let doy := doe - (365 * yoe + yoe / 4 - yoe / 100) in
  let mp := (5 * doy + 2) / 153 in
  let d := doy - (153 * mp + 2) / 5 + 1 in
  let m := if mp <? 10 then mp + 3 else mp - 9 in
  let y := yoe + era * 400 + (if m <=? 2 then 1 else 0) in
  (y, m, d))%Z.

Definition iso_string (n : num) : completion string :=
  match n with
  | NaN => Thrown (mk_js_error "Invalid time value" "RangeError: Invalid time value")
  | Int ms =>
      (if (Z.abs ms >? 8640000000000000) then
        Thrown (mk_js_error "Invalid time value" "RangeError: Invalid time value")
      else
        let '(y, m, d) := civil_from_days (ms / 86400000) in
        let r := ms mod 86400000 in
        Normal ((if (0 <=? y) && (y <=? 9999) then padded 4 y
                 else (if y <? 0 then "-" else "+") +++ padded 6 (Z.abs y))
                  +++ "-" +++ padded 2 m +++ "-" +++ padded 2 d
                  +++ "T" +++ padded 2 (r / 3600000)
                  +++ ":" +++ padded 2 (r / 60000 mod 60)
                  +++ ":" +++ padded 2 (r / 1000 mod 60)
                  +++ "." +++ padded 3 (r mod 1000) +++ "Z"))%Z
  end.

#[export] Instance runtime : Runtime num := {|
  num_of_Z := Int;
  num_add := add;
  num_mul := mul;
  num_truthy := fun n => match n with Int z => negb (z =? 0)%Z | NaN => false end;
  num_to_String := num_String;
  ref_to_String := to_String;
  other_to_Number := to_Number;
  JSON_stringify := stringify;
  encodeURIComponent := encode_uri_component;
  toISOString := iso_string;
  trim := trim_ascii;
  toLowerCase := lower_ascii
|}.

#[export] Instance env : Env := {|
  ML_CLIENT_ID := "client-id";
  ML_CLIENT_SECRET := "client-secret"
|}.

End Concrete.

(** ** Concrete worlds

    Jobs, requests and worlds on which the handler is run below. *)

Module Scenario.

Import Concrete.

Local Abbreviation value := (value num).
Local Abbreviation job := (job num).
Local Abbreviation job_update := (job_update num).
Local Abbreviation world := (world num).
Local Abbreviation trace := (trace num).
Local Abbreviation http_response := (http_response num).

Definition category_job : job :=
  {| job_id := 7; job_site_id := "MLC"; job_category_id := "MLC1234";
     job_status := "pending"; job_attempts := Some (Int 0) |}.

Definition seller_job : job :=
  {| job_id := 9; job_site_id := "MLC"; job_category_id := "SELLER:555";
     job_status := "pending"; job_attempts := Some (Int 0) |}.

Definition other_seller_job : job :=
  {| job_id := 10; job_site_id := "MLC"; job_category_id := "SELLER:777";
     job_status := "pending"; job_attempts := None |}.

Definition stored_token : token_row :=
  {| tok_access_token := Some "A0"; tok_refresh_token := Some "R0" |}.

Definition post (body : value) (headers : list (string * string)) : request :=
  {| method := "POST"; body := body; headers := headers |}.

Definition response (status : Z) (json : value) : completion http_response :=
  Normal {| status := status; json := Some json |}.

Definition denied : http_response :=
  {| status := 401; json := Some (VObj [("message", VStr "unauthorized")]) |}.

Definition unauthorized : completion http_response := Normal denied.

Definition broken : http_response :=
  {| status := 500; json := Some (VObj [("message", VStr "boom")]) |}.

(** The OAuth endpoint of the examples: it accepts [R0] and [R1] and
    rotates the pair, and rejects every other refresh token. *)
Definition oauth_answer (rq : fetch_request) : completion http_response :=
  match header "refresh_token" (rq_body rq) with
  | Some "R0" =>
      response 200 (VObj [("access_token", VStr "A1"); ("refresh_token", VStr "R1");
                          ("user_id", VNum (Int 555)); ("expires_in", VNum (Int 21600))])
  | Some "R1" =>
      response 200 (VObj [("access_token", VStr "A2"); ("refresh_token", VStr "R2");
                          ("user_id", VNum (Int 555)); ("expires_in", VNum (Int 21600))])
  | _ => response 400 (VObj [])
  end.

(** A world whose database holds [jobs] and [token], whose writes all
    succeed, and whose marketplace answers [public] to an anonymous [GET],
    [private] to an authenticated one and [oauth] to a refresh.  The clock
    advances by one second per interaction. *)
Definition make_world (jobs : option (list job)) (token : option token_row)
    (public private : completion http_response)
    (oauth : fetch_request -> completion http_response) : world :=
  {| w_select_jobs := fun _ _ _ => {| data := jobs; error := None |};
     w_select_latest_token := fun _ => {| data := token; error := None |};
     w_update_job := fun _ _ _ => None;
     w_upsert_items := fun _ _ => None;
     w_upsert_token := fun _ _ => None;
     w_update_token := fun _ _ _ => None;
     w_fetch := fun _ rq =>
       if (rq_url rq =? "https://api.mercadolibre.com/oauth/token")%string then oauth rq
       else if has_header "Authorization" rq then private
       else public;
     w_now := fun h => Int (1000 * Z.of_nat (List.length h));
     w_now_iso := fun h =>
       match iso_string (Int (1000 * Z.of_nat (List.length h))) with
       | Normal s => s
       | Thrown _ => ""
       end |}.

(** No pending job. *)
Definition idle_world : world :=
  make_world (Some []) (Some stored_token) unauthorized unauthorized oauth_answer.

(** One category job, answered with one listing. *)
Definition category_world : world :=
  make_world (Some [category_job]) (Some stored_token)
    (response 200
       (VObj [("results",
               VArr [VObj [("id", VStr "MLC111"); ("title", VStr "X");
                           ("price", VNum (Int 10)); ("currency_id", VStr "CLP")]])]))
    unauthorized oauth_answer.

(** A category job answered 500, followed by a seller job. *)
Definition failing_world : world :=
  make_world (Some [category_job; seller_job]) (Some stored_token)
    (Normal broken) unauthorized oauth_answer.

(** One seller job: 401, a successful refresh, then a bare list of ids. *)
Definition seller_world : world :=
  make_world (Some [seller_job]) (Some stored_token)
    unauthorized (response 200 (VArr [VStr "MLC999"])) oauth_answer.

(** One seller job: 401, a successful refresh, then 401 again. *)
Definition locked_world : world :=
  make_world (Some [seller_job]) (Some stored_token)
    unauthorized unauthorized oauth_answer.

(** Two seller jobs, each answered 401 anonymously. *)
Definition two_sellers_world : world :=
  make_world (Some [seller_job; other_seller_job]) (Some stored_token)
    unauthorized (response 200 (VArr [VStr "MLC999"])) oauth_answer.

(** One seller job: 401, and the OAuth endpoint rejects the refresh. *)
Definition expired_world : world :=
  make_world (Some [seller_job])
    (Some {| tok_access_token := Some "A0"; tok_refresh_token := Some "stale" |})
    unauthorized (response 200 (VArr [VStr "MLC999"])) oauth_answer.

(** A pending job and no stored credential. *)
Definition tokenless_world : world :=
  make_world (Some [category_job]) None unauthorized unauthorized oauth_answer.

(** A listing whose only item is [null]. *)
Definition null_item_payload : value := VObj [("results", VArr [VNull])].

(** One category job, answered with that listing. *)
Definition null_item_world : world :=
  make_world (Some [category_job]) (Some stored_token)
    (response 200 null_item_payload) unauthorized oauth_answer.

(** The state in which the loop starts when the stored credential is used. *)
Definition start : @loop_state num :=
  {| accessToken := "A0"; refreshTok := "R0";
     results := []; processed := 0; inserted := 0 |}.

(** A listing item in its structured form. *)
Definition listing : value :=
  VObj [("id", VStr "MLC111"); ("title", VStr "X"); ("price", VNum (Int 10));
        ("currency_id", VStr "CLP"); ("seller", VObj [("id", VNum (Int 42))])].

End Scenario.

(** ** Further readings of a log and of the results *)

Section Accounts.

Context {number : Type}.

(** The job an element of [results] speaks of. *)
Definition entry_job_id (r : @result_entry number) : Z :=
  match r with
  | ResultOk id _ _ _ => id
  | ResultHttpFailure id _ _ _ => id
  | ResultDbFailure id _ _ => id
  end.

(** The [items] count of a success entry; a failure entry has none. *)
Definition entry_items (r : @result_entry number) : nat :=
  match r with
  | ResultOk _ _ n _ => n
  | _ => 0
  end.

(** The update that claims a job. *)
Definition is_claim (e : event number) : bool :=
  match e with
  | EUpdateJob _ u _ => (upd_status u =? "processing")%string
  | _ => false
  end.

(** The [last_error] each job update of a log carries, in order. *)
Fixpoint error_updates (t : trace number) : list (Z * option string) :=
  match t with
  | [] => []
  | EUpdateJob id u _ :: t' => (id, upd_last_error u) :: error_updates t'
  | _ :: t' => error_updates t'
  end.

(** The [attempts] each job update of a log carries, in order. *)
Fixpoint attempts_updates (t : trace number) : list (Z * option number) :=
  match t with
  | [] => []
  | EUpdateJob id u _ :: t' => (id, upd_attempts u) :: attempts_updates t'
  | _ :: t' => attempts_updates t'
  end.

(** The status of job [id] once a list of status updates has been
    applied, starting from status [s]. *)
Fixpoint last_status (l : list (Z * string)) (id : Z) (s : string) : string :=
  match l with
  | [] => s
  | (id', s') :: l' => last_status l' id (if (id' =? id)%Z then s' else s)
  end.

(** The database accepted every update of a job of the log. *)
Definition updates_accepted (t : trace number) : Prop :=
  forall id u r, In (EUpdateJob id u r) t -> r = None.

(** The select on [meli_scan_jobs]. *)
Definition is_jobs_read (e : event number) : bool :=
  match e with
  | ESelectJobs _ _ _ => true
  | _ => false
  end.

(** The select on [meli_oauth_tokens]. *)
Definition is_token_read (e : event number) : bool :=
  match e with
  | ESelectLatestToken _ => true
  | _ => false
  end.

(** The upsert on [meli_category_items]. *)
Definition is_upsert_items (e : event number) : bool :=
  match e with
  | EUpsertItems _ _ => true
  | _ => false
  end.

(** What [p] must avoid for the loop over the jobs to be silent: every
    kind of interaction but the two selects. *)
Definition avoids_loop (p : event number -> bool) : Prop :=
  avoids_settlement p
  /\ avoids_refresh_bookkeeping p
  /\ (forall rq r, p (EFetch rq r) = false).

(** Two loop states that differ at most in the access token they hold. *)
Definition same_but_access (a b : @loop_state number) : Prop :=
  refreshTok a = refreshTok b
  /\ results a = results b
  /\ processed a = processed b
  /\ inserted a = inserted b.

End Accounts.

(** ** Further concrete worlds *)

Module Cases.

Import Concrete Scenario.

Local Abbreviation value := (value num).
Local Abbreviation job := (job num).
Local Abbreviation job_update := (job_update num).
Local Abbreviation world := (world num).
Local Abbreviation http_response := (http_response num).

Definition db_down : js_error :=
  mk_js_error "connection refused" "PostgrestError: connection refused".

(** A success whose body is not JSON. *)
Definition garbled : http_response := {| status := 200; json := None |}.

(** An OAuth answer that carries a new access token and nothing else. *)
Definition bare_grant : http_response :=
  {| status := 200; json := Some (VObj [("access_token", VStr "A9")]) |}.

(** The world of [make_world], with the answers of the database to the
    select on jobs, to the upsert of listings and to the credential writes
    given apart. *)
Definition make_world' (queue : db_result (list job)) (token : option token_row)
    (items_answer token_answer : option js_error)
    (public private : completion http_response)
    (oauth : fetch_request -> completion http_response) : world :=
  {| w_select_jobs := fun _ _ _ => queue;
     w_select_latest_token := fun _ => {| data := token; error := None |};
     w_update_job := fun _ _ _ => None;
     w_upsert_items := fun _ _ => items_answer;
     w_upsert_token := fun _ _ => token_answer;
     w_update_token := fun _ _ _ => token_answer;
     w_fetch := fun _ rq =>
       if (rq_url rq =? "https://api.mercadolibre.com/oauth/token")%string then oauth rq
       else if has_header "Authorization" rq then private
       else public;
     w_now := fun h => Int (1000 * Z.of_nat (List.length h));
     w_now_iso := fun _ => "2026-01-01T00:00:00.000Z" |}.

(** The select on jobs fails. *)
Definition queue_down_world : world :=
  make_world' {| data := None; error := Some db_down |} (Some stored_token)
    None None unauthorized unauthorized oauth_answer.

(** One category job whose answer is a success that is not JSON, then a
    seller job. *)
Definition garbled_world : world :=
  make_world' {| data := Some [category_job; seller_job]; error := None |}
    (Some stored_token) None None (Normal garbled) unauthorized oauth_answer.

(** A category job with one listing, whose upsert the database refuses,
    then a seller job. *)
Definition items_refused_world : world :=
  make_world' {| data := Some [category_job; seller_job]; error := None |}
    (Some stored_token) (Some db_down) None
    (response 200 (VObj [("results", VArr [listing])])) unauthorized oauth_answer.

(** One seller job answered 401; the OAuth endpoint grants a bare access
    token; the authenticated fetch lists one id. *)
Definition bare_grant_world : world :=
  make_world' {| data := Some [seller_job]; error := None |} (Some stored_token)
    None None unauthorized (response 200 (VArr [VStr "MLC999"]))
    (fun _ => Normal bare_grant).

(** The same, but the database refuses the credential write. *)
Definition token_refused_world : world :=
  make_world' {| data := Some [seller_job]; error := None |} (Some stored_token)
    None (Some db_down) unauthorized (response 200 (VArr [VStr "MLC999"]))
    oauth_answer.

(** A category job, a seller job and another seller job, all served. *)
Definition mixed_world : world :=
  make_world' {| data := Some [category_job; seller_job; other_seller_job];
                 error := None |}
    (Some stored_token) None None
    (response 200 (VObj [("results", VArr [listing; VStr "MLC222"])]))
    (response 200 (VArr [VStr "MLC999"])) oauth_answer.

(** The results of that batch. *)
Definition mixed_results : list (@result_entry num) :=
  [ResultOk 7 "MLC1234" 2 "category_public";
   ResultOk 9 "SELLER:555" 2 "seller";
   ResultOk 10 "SELLER:777" 2 "seller"].

(** A failure of a gateway: the body is not JSON. *)
Definition unparsed : http_response := {| status := 502; json := None |}.

(** A category job answered so, then a seller job. *)
Definition unparsed_world : world :=
  make_world' {| data := Some [category_job; seller_job]; error := None |}
    (Some stored_token) None None (Normal unparsed) unauthorized oauth_answer.

(** A stored credential whose refresh token the OAuth endpoint rejects. *)
Definition stale_token : token_row :=
  {| tok_access_token := Some "A0"; tok_refresh_token := Some "stale" |}.

(** A seller job answered 401 whose refresh is rejected, then a category
    job. *)
Definition stale_first_world : world :=
  make_world' {| data := Some [seller_job; category_job]; error := None |}
    (Some stale_token) None None unauthorized unauthorized oauth_answer.

(** The same two jobs, the category job first. *)
Definition stale_last_world : world :=
  make_world' {| data := Some [category_job; seller_job]; error := None |}
    (Some stale_token) None None unauthorized unauthorized oauth_answer.

(** A rejection by the OAuth endpoint that says why. *)
Definition refusal : http_response :=
  {| status := 400; json := Some (VObj [("error", VStr "invalid_grant")]) |}.

(** One seller job answered 401; the OAuth endpoint answers [oauth]. *)
Definition refusing_world (oauth : http_response) : world :=
  make_world' {| data := Some [seller_job]; error := None |} (Some stored_token)
    None None unauthorized unauthorized (fun _ => Normal oauth).

(** A job that has been claimed [2^53] times. *)
Definition veteran_job : job :=
  {| job_id := 11; job_site_id := "MLC"; job_category_id := "MLC1234";
     job_status := "pending"; job_attempts := Some (Int 9007199254740992) |}.

(** The world [w], except that the database accepts no update of a job
    but its claim. *)
Definition without_final_updates (w : world) : world :=
  {| w_select_jobs := w_select_jobs w;
     w_select_latest_token := w_select_latest_token w;
     w_update_job := fun _ _ u =>
       if (upd_status u =? "processing")%string then None else Some db_down;
     w_upsert_items := w_upsert_items w;
     w_upsert_token := w_upsert_token w;
     w_update_token := w_update_token w;
     w_fetch := w_fetch w;
     w_now := w_now w;
     w_now_iso := w_now_iso w |}.

(** The loop state of [start] with another access token. *)
Definition start_with (token : string) : @loop_state num :=
  {| accessToken := token; refreshTok := "R0";
     results := []; processed := 0; inserted := 0 |}.

End Cases.

(** * Properties *)

Section Properties.

Context {number : Type} {RT : Runtime number} {ENV : Env}.

Local Abbreviation value := (value number).
Local Abbreviation job := (job number).
Local Abbreviation job_update := (job_update number).
Local Abbreviation M := (M number).
Local Abbreviation world := (world number).
Local Abbreviation trace := (trace number).
Local Abbreviation event := (event number).
Local Abbreviation http_response := (http_response number).

(** ** The monad and the log *)

Lemma count_app (p : event -> bool) (t1 t2 : trace) :
  count p (t1 ++ t2) = count p t1 + count p t2.
Proof. unfold count. rewrite filter_app, length_app. reflexivity. Qed.

Lemma count_nil (p : event -> bool) : count p [] = 0.
Proof. reflexivity. Qed.

Lemma count_cons (p : event -> bool) (e : event) (t : trace) :
  count p (e :: t) = (if p e then 1 else 0) + count p t.
Proof. unfold count. simpl. destruct (p e); reflexivity. Qed.

Lemma bind_normal {A B} (m : M A) (k : A -> M B) w h a t1 :
  m w h = (Normal a, t1) ->
  bind m k w h = (fst (k a w (h ++ t1)), t1 ++ snd (k a w (h ++ t1))).
Proof.
  intros Hm. unfold bind. rewrite Hm.
  destruct (k a w (h ++ t1)); reflexivity.
Qed.

Lemma bind_thrown {A B} (m : M A) (k : A -> M B) w h e t1 :
  m w h = (Thrown e, t1) -> bind m k w h = (Thrown e, t1).
Proof. intros Hm. unfold bind. rewrite Hm. reflexivity. Qed.

Lemma bind_snd {A B} (m : M A) (k : A -> M B) w h :
  snd (bind m k w h) =
  snd (m w h) ++ match fst (m w h) with
                 | Normal a => snd (k a w (h ++ snd (m w h)))
                 | Thrown _ => []
                 end.
Proof.
  unfold bind. destruct (m w h) as [[a | e] t1]; simpl.
  - destruct (k a w (h ++ t1)); reflexivity.
  - rewrite app_nil_r. reflexivity.
Qed.

Lemma bind_fst {A B} (m : M A) (k : A -> M B) w h :
  fst (bind m k w h) =
  match fst (m w h) with
  | Normal a => fst (k a w (h ++ snd (m w h)))
  | Thrown e => Thrown e
  end.
Proof.
  unfold bind. destruct (m w h) as [[a | e] t1]; simpl.
  - destruct (k a w (h ++ t1)); reflexivity.
  - reflexivity.
Qed.

(** ** [extractItems] *)

Lemma is_nonempty_array_true (v : value) :
  is_nonempty_array v = true <-> exists x xs, v = VArr (x :: xs).
Proof.
  split.
  - destruct v as [| | | | | [| x xs] |]; simpl; try discriminate.
    intros _. exists x, xs. reflexivity.
  - intros (x & xs & ->). reflexivity.
Qed.

Lemma is_nonempty_array_false (v : value) :
  (forall y ys, v <> VArr (y :: ys)) -> is_nonempty_array v = false.
Proof.
  intros H. destruct (is_nonempty_array v) eqn:E; [| reflexivity].
  apply is_nonempty_array_true in E. destruct E as (x & xs & ->).
  exfalso. apply (H x xs). reflexivity.
Qed.

(** C4. [extractItems] returns what the specification of [extract_items]
    describes, and nothing else: the "results" field of the payload when
    that field is a non-empty list, otherwise the payload itself when it
    is a non-empty list, otherwise the empty list.  In particular it
    returns [[]] for [{}], [{results: []}] and [[]], and the list itself
    for [{results: [{id: 1}]}] and [["MLA1", "MLA2"]]. *)
Theorem extractItems_meets_spec (cid : string) (payload : value) (one : number) :
  (forall l, extract_items_spec payload l <-> l = extractItems cid payload)
  /\ extractItems cid (VObj [] : value) = []
  /\ extractItems cid (VObj [("results", VArr [])] : value) = []
  /\ extractItems cid (VArr [] : value) = []
  /\ extractItems cid (VObj [("results", VArr [VObj [("id", VNum one)]])])
     = [VObj [("id", VNum one)]]
  /\ extractItems cid (VArr [VStr "MLA1"; VStr "MLA2"] : value)
     = [VStr "MLA1"; VStr "MLA2"].
Proof.
  split; [| repeat split; reflexivity].
  intros l. unfold extractItems. split.
  - intros Hspec. destruct Hspec as [x xs Hres | x xs Hno Hp | Hno Hp].
    + rewrite Hres. reflexivity.
    + rewrite (is_nonempty_array_false _ Hno). subst payload. reflexivity.
    + rewrite (is_nonempty_array_false _ Hno), (is_nonempty_array_false _ Hp).
      reflexivity.
  - intros ->.
    destruct (is_nonempty_array (opt_member payload "results")) eqn:Eres.
    + apply is_nonempty_array_true in Eres. destruct Eres as (x & xs & Eres).
      rewrite Eres. simpl. apply ExtractResults. exact Eres.
    + assert (Hno : forall y ys, opt_member payload "results" <> VArr (y :: ys)).
      { intros y ys Heq. rewrite Heq in Eres. discriminate. }
      destruct (is_nonempty_array payload) eqn:Ep.
      * apply is_nonempty_array_true in Ep. destruct Ep as (x & xs & ->).
        simpl. apply ExtractBare; [exact Hno | reflexivity].
      * apply ExtractNothing; [exact Hno |].
        intros y ys Heq. rewrite Heq in Ep. discriminate.
Qed.

(** ** The default site *)

(** C9. When the request body has no [site_id], the resolved site is the
    constant "MLC" whatever the [country] field holds: both branches of
    the conditional on [country] yield "MLC". *)
Theorem site_id_defaults_to_MLC (body : value) :
  prop body "site_id" = VUndefined ->
  default_site_id body = VStr "MLC" /\ resolve_site_id body = Normal "MLC".
Proof.
  intros Habsent.
  assert (Hd : default_site_id body = VStr "MLC").
  { unfold default_site_id.
    destruct (strict_eq_string (prop body "country") "CL"); reflexivity. }
  split; [exact Hd |].
  unfold resolve_site_id. rewrite Habsent, Hd. reflexivity.
Qed.

(** ** Normalisation of an item *)

(** C5, amended. A bare identifier (a string) yields a row whose
    [item_id] is that identifier and whose title, permalink, price,
    currency_id and seller_id are all [null].  Any other item that is not
    [null] yields a row whose [item_id] is its [id] field converted to a
    string (the field itself when it is a string), whose title, permalink,
    price and currency_id are the like-named fields ([null] when absent),
    whose seller_id is the [id] of the nested [seller] when present and
    otherwise the flat [seller_id] field.  Both rows keep the item
    verbatim in [raw]. *)
Theorem normalize_item_row (site_id : string) (j : job) (it : value) :
  is_nullish it = false ->
  (forall s, it = VStr s ->
     normalize_item site_id j it =
     Normal {| row_job_id := job_id j; row_site_id := site_id;
               row_category_id := job_category_id j;
               row_item_id := s;
               row_title := VNull; row_permalink := VNull; row_price := VNull;
               row_currency_id := VNull; row_seller_id := VNull;
               row_raw := it |})
  /\ (typeof_is_string it = false ->
      forall item_id, String_ (prop it "id") = Normal item_id ->
      normalize_item site_id j it =
      Normal {| row_job_id := job_id j; row_site_id := site_id;
                row_category_id := job_category_id j;
                row_item_id := item_id;
                row_title := nullish (prop it "title") VNull;
                row_permalink := nullish (prop it "permalink") VNull;
                row_price := nullish (prop it "price") VNull;
                row_currency_id := nullish (prop it "currency_id") VNull;
                row_seller_id :=
                  if is_nullish (opt_member (prop it "seller") "id")
                  then nullish (prop it "seller_id") VNull
                  else opt_member (prop it "seller") "id";
                row_raw := it |})
  /\ (forall s, prop it "id" = VStr s -> String_ (prop it "id") = Normal s).
Proof.
  intros Hnn. repeat split.
  - intros s ->. reflexivity.
  - intros Hty item_id Hid. unfold normalize_item, member.
    rewrite Hty, Hnn. simpl. rewrite Hid. reflexivity.
  - intros s ->. reflexivity.
Qed.

(** ** No pending job *)

(** C7. When the query for pending jobs of the requested site returns no
    row, a POST invocation replies [{ok: true, msg: "no_jobs", site_id,
    batch, limit}] and its only interaction with the outside world is that
    query: no job update, no listing upsert, no credential write. *)
Theorem no_jobs_no_mutation (req : request) (w : world) (h : trace)
    (site_id : string) (batch limit : number) :
  method req = "POST" ->
  resolve_site_id (body_or_empty req) = Normal site_id ->
  resolve_batch (body_or_empty req) = Normal batch ->
  resolve_limit (body_or_empty req) = Normal limit ->
  error (w_select_jobs w h site_id batch) = None ->
  data (w_select_jobs w h site_id batch) = None
  \/ data (w_select_jobs w h site_id batch) = Some [] ->
  handler req w h =
    (Normal {| reply_status := 200;
               reply_body_of := BodyNoJobs site_id batch limit |},
     [ESelectJobs site_id batch (w_select_jobs w h site_id batch)])
  /\ count is_mutation (snd (handler req w h)) = 0.
Proof.
  intros Hm Hs Hb Hl Herr Hdata.
  assert (Hrun : handler req w h =
    (Normal {| reply_status := 200;
               reply_body_of := BodyNoJobs site_id batch limit |},
     [ESelectJobs site_id batch (w_select_jobs w h site_id batch)])).
  { unfold handler. rewrite Hm, Hs, Hb, Hl. simpl.
    unfold handler_try, bind, select_jobs. simpl. rewrite Herr.
    destruct Hdata as [-> | ->]; reflexivity. }
  split; [exact Hrun |]. rewrite Hrun. reflexivity.
Qed.

(** ** The stored credential is always looked up *)

Lemma getLatestToken_not_found (w : world) (h : trace) :
  error (w_select_latest_token w h) = None ->
  (data (w_select_latest_token w h) = None
   \/ exists d, data (w_select_latest_token w h) = Some d
                /\ (falsy_text (tok_access_token d) = true
                    \/ falsy_text (tok_refresh_token d) = true)) ->
  getLatestToken w h =
    (Thrown no_token_found, [ESelectLatestToken (w_select_latest_token w h)]).
Proof.
  intros Herr Hdata. unfold getLatestToken, bind, select_latest_token. simpl.
  rewrite Herr.
  destruct Hdata as [-> | (d & -> & Hf)]; [reflexivity |].
  assert (Hor : falsy_text (tok_access_token d) || falsy_text (tok_refresh_token d) = true).
  { apply orb_true_iff. exact Hf. }
  rewrite Hor. reflexivity.
Qed.

(** C10. When the caller supplies a bearer credential in the request
    header and a pending job exists, the stored credential is looked up
    all the same; when there is no stored row, or the latest row lacks its
    access token or its refresh token, the invocation aborts with the
    top-level failure "No token found ..." before any job is touched. *)
Theorem header_token_still_needs_stored_credential (req : request) (w : world)
    (h : trace) (site_id : string) (batch limit : number) (j : job) (jobs : list job) :
  method req = "POST" ->
  resolve_site_id (body_or_empty req) = Normal site_id ->
  resolve_batch (body_or_empty req) = Normal batch ->
  resolve_limit (body_or_empty req) = Normal limit ->
  error (w_select_jobs w h site_id batch) = None ->
  data (w_select_jobs w h site_id batch) = Some (j :: jobs) ->
  incomingBearer req <> "" ->
  let asked := ESelectJobs site_id batch (w_select_jobs w h site_id batch) in
  let stored := w_select_latest_token w (h ++ [asked]) in
  error stored = None ->
  (data stored = None
   \/ exists d, data stored = Some d
                /\ (falsy_text (tok_access_token d) = true
                    \/ falsy_text (tok_refresh_token d) = true)) ->
  handler req w h =
    (Normal {| reply_status := 500;
               reply_body_of :=
                 BodyFailure
                   "No token found in meli_oauth_tokens (missing access_token or refresh_token)" |},
     [asked; ESelectLatestToken stored]).
Proof.
  intros Hm Hs Hb Hl Herr Hdata Hbearer asked stored Hterr Htdata.
  unfold handler. rewrite Hm, Hs, Hb, Hl. simpl.
  unfold handler_try.
  rewrite (bind_normal _ _ w h (w_select_jobs w h site_id batch) [asked]) by reflexivity.
  rewrite Herr, Hdata.
  assert (Htok : resolve_tokens req w (h ++ [asked]) =
                 (Thrown no_token_found, [ESelectLatestToken stored])).
  { unfold resolve_tokens.
    destruct (incomingBearer req =? "")%string eqn:Eb.
    - apply String.eqb_eq in Eb. contradiction.
    - simpl. apply bind_thrown. apply getLatestToken_not_found; assumption. }
  rewrite (bind_thrown _ _ _ _ _ _ Htok). reflexivity.
Qed.


(** ** Silent computations *)

Lemma silent_ret (p : event -> bool) {A} (a : A) : silent p (ret a).
Proof. intros w h. reflexivity. Qed.

Lemma silent_throw (p : event -> bool) {A} (e : js_error) : silent p (@throw number A e).
Proof. intros w h. reflexivity. Qed.

Lemma silent_lift (p : event -> bool) {A} (c : completion A) : silent p (lift c).
Proof. intros w h. reflexivity. Qed.

Lemma silent_bind (p : event -> bool) {A B} (m : M A) (k : A -> M B) :
  silent p m -> (forall a, silent p (k a)) -> silent p (bind m k).
Proof.
  intros Hm Hk w h. rewrite bind_snd, count_app, Hm.
  destruct (fst (m w h)); [apply Hk | reflexivity].
Qed.

Lemma silent_now_iso (p : event -> bool) :
  (forall s, p (ENowISO s) = false) -> silent p now_iso.
Proof. intros H w h. unfold now_iso. simpl. rewrite count_cons, H. reflexivity. Qed.

Lemma silent_date_now (p : event -> bool) :
  (forall n, p (ENow n) = false) -> silent p date_now.
Proof. intros H w h. unfold date_now. simpl. rewrite count_cons, H. reflexivity. Qed.

Lemma silent_update_job (p : event -> bool) id u :
  (forall i v r, p (EUpdateJob i v r) = false) -> silent p (update_job id u).
Proof. intros H w h. unfold update_job. simpl. rewrite count_cons, H. reflexivity. Qed.

Lemma silent_upsert_items (p : event -> bool) rows :
  (forall l r, p (EUpsertItems l r) = false) -> silent p (upsert_items rows).
Proof. intros H w h. unfold upsert_items. simpl. rewrite count_cons, H. reflexivity. Qed.

Lemma silent_upsert_token (p : event -> bool) t :
  (forall v r, p (EUpsertToken v r) = false) -> silent p (upsert_token t).
Proof. intros H w h. unfold upsert_token. simpl. rewrite count_cons, H. reflexivity. Qed.

Lemma silent_update_token (p : event -> bool) old t :
  (forall o v r, p (EUpdateToken o v r) = false) -> silent p (update_token old t).
Proof. intros H w h. unfold update_token. simpl. rewrite count_cons, H. reflexivity. Qed.

Ltac silence :=
  repeat first
    [ apply silent_ret | apply silent_throw | apply silent_lift
    | apply silent_now_iso; assumption
    | apply silent_date_now; assumption
    | apply silent_update_job; assumption
    | apply silent_upsert_items; assumption
    | apply silent_upsert_token; assumption
    | apply silent_update_token; assumption
    | apply silent_bind; [| intros ?]
    | match goal with
      | |- silent _ (if ?c then _ else _) => destruct c
      | |- silent _ (match ?c with _ => _ end) => destruct c
      end ].

Lemma store_refreshed_silent (p : event -> bool) rt res :
  avoids_refresh_bookkeeping p -> silent p (store_refreshed rt res).
Proof.
  intros (Hn & Hi & Hu & Hd). unfold store_refreshed. cbv zeta. silence.
Qed.

Lemma mark_processing_silent (p : event -> bool) j :
  avoids_settlement p -> silent p (mark_processing j).
Proof. intros (Hi & Hu & Hr). unfold mark_processing. silence. Qed.

Lemma settle_job_silent (p : event -> bool) site_id j resMl st :
  avoids_settlement p -> silent p (settle_job site_id j resMl st).
Proof.
  intros (Hi & Hu & Hr).
  unfold settle_job, finish_job, mark_error, mark_done. cbv zeta. silence.
Qed.


(** ** Running one job *)

Lemma mark_processing_run (j : job) (w : world) (h : trace) :
  mark_processing j w h =
    (Normal tt,
     [ENowISO (w_now_iso w h);
      EUpdateJob (job_id j)
        {| upd_status := "processing";
           upd_attempts :=
             Some (num_add (match job_attempts j with
                            | Some a => a
                            | None => num_of_Z 0
                            end) (num_of_Z 1));
           upd_updated_at := w_now_iso w h;
           upd_last_error := None |}
        (w_update_job w (h ++ [ENowISO (w_now_iso w h)]) (job_id j)
           {| upd_status := "processing";
              upd_attempts :=
                Some (num_add (match job_attempts j with
                               | Some a => a
                               | None => num_of_Z 0
                               end) (num_of_Z 1));
              upd_updated_at := w_now_iso w h;
              upd_last_error := None |})]).
Proof. reflexivity. Qed.

Lemma mark_error_run (j : job) (msg : string) (w : world) (h : trace) :
  mark_error j msg w h =
    (Normal tt,
     [ENowISO (w_now_iso w h);
      EUpdateJob (job_id j)
        {| upd_status := "error"; upd_attempts := None;
           upd_updated_at := w_now_iso w h; upd_last_error := Some msg |}
        (w_update_job w (h ++ [ENowISO (w_now_iso w h)]) (job_id j)
           {| upd_status := "error"; upd_attempts := None;
              upd_updated_at := w_now_iso w h; upd_last_error := Some msg |})]).
Proof. reflexivity. Qed.

Lemma mark_done_run (j : job) (w : world) (h : trace) :
  mark_done j w h =
    (Normal tt,
     [ENowISO (w_now_iso w h);
      EUpdateJob (job_id j)
        {| upd_status := "done"; upd_attempts := None;
           upd_updated_at := w_now_iso w h; upd_last_error := None |}
        (w_update_job w (h ++ [ENowISO (w_now_iso w h)]) (job_id j)
           {| upd_status := "done"; upd_attempts := None;
              upd_updated_at := w_now_iso w h; upd_last_error := None |})]).
Proof. reflexivity. Qed.

Lemma bind_then_ret {A B} (m : M A) (b : B) w h a t :
  m w h = (Normal a, t) -> bind m (fun _ => ret b) w h = (Normal b, t).
Proof.
  intros Hm. rewrite (bind_normal _ _ _ _ _ _ Hm). simpl.
  rewrite app_nil_r. reflexivity.
Qed.

Lemma process_job_run (site_id : string) (limit : number) (j : job)
    (st : loop_state) (w : world) (h : trace) :
  let st1 := {| accessToken := accessToken st; refreshTok := refreshTok st;
                results := results st; processed := S (processed st);
                inserted := inserted st |} in
  let tm := snd (mark_processing j w h) in
  process_job site_id limit j st w h =
  match fetch_listing (isSeller j) (job_url site_id limit j) st1 w (h ++ tm) with
  | (Normal rs, tf) =>
      (fst (settle_job site_id j (fst rs) (snd rs) w ((h ++ tm) ++ tf)),
       tm ++ tf ++ snd (settle_job site_id j (fst rs) (snd rs) w ((h ++ tm) ++ tf)))
  | (Thrown e, tf) => (Thrown e, tm ++ tf)
  end.
Proof.
  intros st1 tm. unfold process_job. fold st1.
  rewrite (bind_normal _ _ w h tt tm) by reflexivity.
  destruct (fetch_listing (isSeller j) (job_url site_id limit j) st1 w (h ++ tm))
    as [[rs | e] tf] eqn:Ef.
  - rewrite (bind_normal _ _ _ _ _ _ Ef). reflexivity.
  - rewrite (bind_thrown _ _ _ _ _ _ Ef). reflexivity.
Qed.

Lemma process_jobs_cons (site_id : string) (limit : number) (j : job)
    (rest : list job) (st st' : loop_state) (w : world) (h t : trace) :
  process_job site_id limit j st w h = (Normal st', t) ->
  process_jobs site_id limit (j :: rest) st w h =
    (fst (process_jobs site_id limit rest st' w (h ++ t)),
     t ++ snd (process_jobs site_id limit rest st' w (h ++ t))).
Proof. intros Hj. simpl. apply bind_normal. exact Hj. Qed.

Lemma process_jobs_abort (site_id : string) (limit : number) (j : job)
    (rest : list job) (st : loop_state) (w : world) (h t : trace) (e : js_error) :
  process_job site_id limit j st w h = (Thrown e, t) ->
  process_jobs site_id limit (j :: rest) st w h = (Thrown e, t).
Proof. intros Hj. simpl. apply bind_thrown. exact Hj. Qed.

(** The explicit form of lines 184-190. *)
Lemma fetch_listing_run (seller : bool) (url : string) (st : loop_state)
    (w : world) (h : trace) :
  fetch_listing seller url st w h =
  match w_fetch w h (public_request url) with
  | Thrown e => (Thrown e, [EFetch (public_request url) (Thrown e)])
  | Normal res =>
      let pub := EFetch (public_request url) (Normal res) in
      if seller && (status res =? 401)%Z then
        match refreshToken (refreshTok st) w (h ++ [pub]) with
        | (Thrown e, tr) => (Thrown e, pub :: tr)
        | (Normal r, tr) =>
            let st' := {| accessToken := access_token r;
                          refreshTok := refresh_token r;
                          results := results st;
                          processed := processed st;
                          inserted := inserted st |} in
            let rq := private_request url (access_token r) in
            match w_fetch w ((h ++ [pub]) ++ tr) rq with
            | Normal res' => (Normal (res', st'), pub :: tr ++ [EFetch rq (Normal res')])
            | Thrown e => (Thrown e, pub :: tr ++ [EFetch rq (Thrown e)])
            end
        end
      else (Normal (res, st), [pub])
  end.
Proof.
  unfold fetch_listing, mlGetPublic.
  destruct (w_fetch w h (public_request url)) as [res | e] eqn:Ep.
  - rewrite (bind_normal _ _ w h res [EFetch (public_request url) (Normal res)])
      by (unfold fetch; rewrite Ep; reflexivity).
    cbv zeta. destruct (seller && (status res =? 401)%Z); [| reflexivity].
    destruct (refreshToken (refreshTok st) w
                (h ++ [EFetch (public_request url) (Normal res)]))
      as [[r | e] tr] eqn:Er.
    + rewrite (bind_normal _ _ _ _ _ _ Er). unfold mlGetPrivate. simpl accessToken.
      destruct (w_fetch w ((h ++ [EFetch (public_request url) (Normal res)]) ++ tr)
                  (private_request url (access_token r))) as [res' | e] eqn:Eq.
      * rewrite (bind_normal _ _ _ _ res'
                   [EFetch (private_request url (access_token r)) (Normal res')])
          by (unfold fetch; rewrite Eq; reflexivity).
        cbn [ret fst snd]. rewrite app_nil_r. reflexivity.
      * rewrite (bind_thrown _ _ _ _ e
                   [EFetch (private_request url (access_token r)) (Thrown e)])
          by (unfold fetch; rewrite Eq; reflexivity).
        reflexivity.
    + rewrite (bind_thrown _ _ _ _ _ _ Er). reflexivity.
  - apply bind_thrown. unfold fetch. rewrite Ep. reflexivity.
Qed.

Lemma settle_job_not_ok site_id j (resMl : http_response) st w h :
  ok resMl = false ->
  settle_job site_id j resMl st w h =
    (Normal (push st (http_failure j resMl)),
     snd (mark_error j (http_failure_message resMl) w h)).
Proof.
  intros Hok. unfold settle_job. rewrite Hok. cbv zeta. cbn [negb].
  apply bind_then_ret with (a := tt). rewrite mark_error_run. reflexivity.
Qed.

Lemma count_zero_filter (p : event -> bool) (t : trace) :
  count p t = 0 -> filter p t = [].
Proof. unfold count. apply length_zero_iff_nil. Qed.

Lemma job_url_not_oauth site_id limit j :
  (job_url site_id limit j =? "https://api.mercadolibre.com/oauth/token")%string = false.
Proof. unfold job_url. destruct (isSeller j); reflexivity. Qed.

Lemma avoids_settlement_fetch : avoids_settlement (@is_fetch number).
Proof. repeat split. Qed.

Lemma avoids_settlement_private : avoids_settlement (@is_private_fetch number).
Proof. repeat split. Qed.

Lemma avoids_settlement_public : avoids_settlement (@is_public_fetch number).
Proof. repeat split. Qed.

Lemma avoids_settlement_refresh : avoids_settlement (@is_refresh number).
Proof. repeat split. Qed.

Lemma avoids_settlement_seller_401 : avoids_settlement (@is_seller_401 number).
Proof. repeat split. Qed.

Lemma avoids_settlement_token_write : avoids_settlement (@is_token_write number).
Proof. repeat split. Qed.

(** ** Category jobs *)

(** C2. While a job whose [category_id] does not start with the seller
    marker is processed, no authenticated fetch is made, the OAuth
    endpoint is not called and no credential is written: the only [fetch]
    of the job is the anonymous [GET] of its search URL. *)
Theorem category_job_is_public_only (site_id : string) (limit : number) (j : job)
    (st : loop_state) (w : world) (h : trace) :
  isSeller j = false ->
  let t := snd (process_job site_id limit j st w h) in
  let rq := public_request (job_url site_id limit j) in
  count is_private_fetch t = 0
  /\ count is_refresh t = 0
  /\ count is_token_write t = 0
  /\ filter is_fetch t = [EFetch rq (w_fetch w (h ++ snd (mark_processing j w h)) rq)].
Proof.
  intros Hcat t rq. subst t.
  pose proof (mark_processing_silent is_private_fetch j avoids_settlement_private w h) as Hm1.
  pose proof (mark_processing_silent is_refresh j avoids_settlement_refresh w h) as Hm2.
  pose proof (mark_processing_silent is_token_write j avoids_settlement_token_write w h) as Hm3.
  pose proof (mark_processing_silent is_fetch j avoids_settlement_fetch w h) as Hm4.
  rewrite process_job_run, fetch_listing_run, Hcat. fold rq.
  remember (snd (mark_processing j w h)) as tm.
  destruct (w_fetch w (h ++ tm) rq) as [res | e]; cbn [andb fst snd].
  - rewrite !count_app, !filter_app, Hm1, Hm2, Hm3, (count_zero_filter _ _ Hm4).
    rewrite (settle_job_silent is_private_fetch _ _ _ _ avoids_settlement_private).
    rewrite (settle_job_silent is_refresh _ _ _ _ avoids_settlement_refresh).
    rewrite (settle_job_silent is_token_write _ _ _ _ avoids_settlement_token_write).
    rewrite (count_zero_filter _ _
               (settle_job_silent is_fetch _ _ _ _ avoids_settlement_fetch _ _)).
    rewrite !count_cons, !count_nil. cbn [is_refresh is_token_write rq_url rq public_request].
    rewrite job_url_not_oauth. repeat split.
  - rewrite !count_app, !filter_app, Hm1, Hm2, Hm3, (count_zero_filter _ _ Hm4).
    rewrite !count_cons, !count_nil. cbn [is_refresh is_token_write rq_url rq public_request].
    rewrite job_url_not_oauth. repeat split.
Qed.

(** ** The refresh *)

Lemma avoids_bookkeeping_refresh : avoids_refresh_bookkeeping (@is_refresh number).
Proof. repeat split. Qed.

Lemma avoids_bookkeeping_public : avoids_refresh_bookkeeping (@is_public_fetch number).
Proof. repeat split. Qed.

Lemma avoids_bookkeeping_private : avoids_refresh_bookkeeping (@is_private_fetch number).
Proof. repeat split. Qed.

Lemma avoids_bookkeeping_seller_401 : avoids_refresh_bookkeeping (@is_seller_401 number).
Proof. repeat split. Qed.

Lemma avoids_bookkeeping_job_update : avoids_refresh_bookkeeping (@is_job_update number).
Proof. repeat split. Qed.

Lemma avoids_bookkeeping_fetch : avoids_refresh_bookkeeping (@is_fetch number).
Proof. repeat split. Qed.

(** A refresh calls the OAuth endpoint once, with the refresh token it is
    given, and makes no other [fetch] and no job update. *)
Lemma refreshToken_log (rt : string) (w : world) (h : trace) :
  exists tail,
    snd (refreshToken rt w h)
      = EFetch (oauth_request rt) (w_fetch w h (oauth_request rt)) :: tail
    /\ count is_fetch tail = 0
    /\ count is_job_update tail = 0.
Proof.
  unfold refreshToken. rewrite bind_snd. unfold fetch at 1 2 3. cbn [fst snd app].
  eexists. split; [reflexivity |].
  destruct (w_fetch w h (oauth_request rt)) as [res | e]; [| split; reflexivity].
  split.
  - apply store_refreshed_silent, avoids_bookkeeping_fetch.
  - apply store_refreshed_silent, avoids_bookkeeping_job_update.
Qed.

Lemma fetch_free (p : event -> bool) (t : trace) :
  (forall e, p e = true -> is_fetch e = true) -> count is_fetch t = 0 -> count p t = 0.
Proof.
  intros Hp. induction t as [| e t IH]; [reflexivity |].
  rewrite !count_cons. destruct (is_fetch e) eqn:Ef; [discriminate |].
  intros Ht. simpl in Ht. rewrite (IH Ht).
  destruct (p e) eqn:Epe; [| reflexivity].
  apply Hp in Epe. congruence.
Qed.

Lemma refresh_is_fetch (e : event) : is_refresh e = true -> is_fetch e = true.
Proof. destruct e; simpl; congruence. Qed.

Lemma private_is_fetch (e : event) : is_private_fetch e = true -> is_fetch e = true.
Proof. destruct e; simpl; congruence. Qed.

Lemma public_is_fetch (e : event) : is_public_fetch e = true -> is_fetch e = true.
Proof. destruct e; simpl; congruence. Qed.

Lemma seller_401_is_fetch (e : event) : is_seller_401 e = true -> is_fetch e = true.
Proof. destruct e; simpl; congruence. Qed.

Lemma refreshToken_counts (rt : string) (w : world) (h : trace) :
  let tr := snd (refreshToken rt w h) in
  count is_refresh tr = 1
  /\ count is_public_fetch tr = 0
  /\ count is_private_fetch tr = 0
  /\ count is_seller_401 tr = 0
  /\ count is_job_update tr = 0
  /\ count is_fetch tr = 1.
Proof.
  destruct (refreshToken_log rt w h) as (tail & Hlog & Hf & Hu).
  cbv zeta. rewrite Hlog, !count_cons, Hu.
  rewrite (fetch_free _ _ refresh_is_fetch Hf), (fetch_free _ _ public_is_fetch Hf),
    (fetch_free _ _ private_is_fetch Hf), (fetch_free _ _ seller_401_is_fetch Hf), Hf.
  destruct (w_fetch w h (oauth_request rt)); repeat split.
Qed.

Lemma prefix_append (p s : string) : prefix p (p +++ s) = true.
Proof.
  induction p as [| c p IH]; simpl.
  - destruct s; reflexivity.
  - destruct (ascii_dec c c) as [_ | Hne]; [exact IH | contradiction].
Qed.

Lemma job_url_seller site_id limit j :
  prefix "https://api.mercadolibre.com/users/" (job_url site_id limit j) = isSeller j.
Proof.
  unfold job_url. destruct (isSeller j).
  - apply prefix_append.
  - reflexivity.
Qed.

(** ** Seller jobs answered 401 *)

(** C1, amended. While a seller job whose anonymous fetch is answered 401
    is processed, the anonymous fetch is not repeated and the OAuth
    endpoint is called exactly once.  When that refresh fails, no
    authenticated fetch is made and the exception leaves the loop.  When
    it succeeds, exactly one authenticated fetch follows, of the same URL
    and with the new access token, and no other [fetch] comes after it;
    when that one is answered 401 too, the job takes the failure path: it
    is marked "error" with "ML 401 ..." and a failure entry with status
    401 is appended to the results. *)
Theorem seller_401_one_refresh_one_retry (site_id : string) (limit : number)
    (j : job) (st : loop_state) (w : world) (h : trace) (res : http_response) :
  isSeller j = true ->
  let url := job_url site_id limit j in
  let tm := snd (mark_processing j w h) in
  let pub := EFetch (public_request url) (Normal res) in
  w_fetch w (h ++ tm) (public_request url) = Normal res ->
  status res = 401%Z ->
  let t := snd (process_job site_id limit j st w h) in
  count is_public_fetch t = 1
  /\ count is_refresh t = 1
  /\ match refreshToken (refreshTok st) w ((h ++ tm) ++ [pub]) with
     | (Thrown e, tr) =>
         process_job site_id limit j st w h = (Thrown e, tm ++ pub :: tr)
         /\ count is_private_fetch t = 0
     | (Normal r, tr) =>
         let rq := private_request url (access_token r) in
         let retry := EFetch rq (w_fetch w (((h ++ tm) ++ [pub]) ++ tr) rq) in
         let tf := pub :: tr ++ [retry] in
         count is_private_fetch t = 1
         /\ (exists ts, t = tm ++ tf ++ ts /\ count is_fetch ts = 0)
         /\ (forall res',
               w_fetch w (((h ++ tm) ++ [pub]) ++ tr) rq = Normal res' ->
               status res' = 401%Z ->
               process_job site_id limit j st w h =
                 (Normal
                    {| accessToken := access_token r;
                       refreshTok := refresh_token r;
                       results :=
                         results st
                           ++ [ResultHttpFailure (job_id j) (job_category_id j) 401
                                 (json_or_empty res')];
                       processed := S (processed st);
                       inserted := inserted st |},
                  tm ++ tf
                    ++ snd (mark_error j
                              ("ML 401 " +++ JSON_stringify (json_or_empty res'))
                              w ((h ++ tm) ++ tf))))
     end.
Proof.
  intros Hseller url tm pub Hpub H401 t. subst t.
  pose proof (mark_processing_silent is_public_fetch j avoids_settlement_public w h) as Hm1.
  pose proof (mark_processing_silent is_refresh j avoids_settlement_refresh w h) as Hm2.
  pose proof (mark_processing_silent is_private_fetch j avoids_settlement_private w h) as Hm3.
  fold tm in Hm1, Hm2, Hm3.
  rewrite process_job_run, fetch_listing_run. fold url tm.
  rewrite Hpub, Hseller, H401. cbn [andb Z.eqb Pos.eqb refreshTok]. fold pub.
  destruct (refreshToken_counts (refreshTok st) w ((h ++ tm) ++ [pub]))
    as (Hr1 & Hr2 & Hr3 & _ & _ & _).
  assert (Hpub_pub : is_public_fetch pub = true) by reflexivity.
  assert (Hpub_ref : is_refresh pub = false).
  { unfold pub, is_refresh, public_request, rq_url, url. apply job_url_not_oauth. }
  assert (Hpub_priv : is_private_fetch pub = false) by reflexivity.
  destruct (refreshToken (refreshTok st) w ((h ++ tm) ++ [pub])) as [[r | e] tr] eqn:Er;
    cbn [snd] in Hr1, Hr2, Hr3.
  - cbv zeta.
    set (rq := private_request url (access_token r)).
    assert (Hretry : forall a : completion http_response,
                       is_public_fetch (EFetch rq a) = false
                               /\ is_refresh (EFetch rq a) = false
                               /\ is_private_fetch (EFetch rq a) = true).
    { intros a. repeat split.
      unfold is_refresh, rq, private_request, rq_url, url. apply job_url_not_oauth. }
    destruct (w_fetch w (((h ++ tm) ++ [pub]) ++ tr) rq) as [res' | e'] eqn:Eq;
      cbn [fst snd].
    + destruct (Hretry (Normal res')) as (Hq1 & Hq2 & Hq3).
      rewrite !count_app, !count_cons, !count_app, !count_cons, !count_nil.
      rewrite Hm1, Hm2, Hm3, Hr1, Hr2, Hr3, Hpub_pub, Hpub_ref, Hpub_priv, Hq1, Hq2, Hq3.
      rewrite (settle_job_silent is_public_fetch _ _ _ _ avoids_settlement_public).
      rewrite (settle_job_silent is_refresh _ _ _ _ avoids_settlement_refresh).
      rewrite (settle_job_silent is_private_fetch _ _ _ _ avoids_settlement_private).
      repeat split.
      * eexists. split; [reflexivity |].
        apply settle_job_silent, avoids_settlement_fetch.
      * intros res2 Heq H401'. injection Heq as <-.
        assert (Hnok : ok res' = false) by (unfold ok; rewrite H401'; reflexivity).
        rewrite (settle_job_not_ok _ _ _ _ _ _ Hnok).
        unfold http_failure_message, http_failure, push. rewrite H401'. reflexivity.
    + destruct (Hretry (Thrown e')) as (Hq1 & Hq2 & Hq3).
      rewrite !count_app, !count_cons, !count_app, !count_cons, !count_nil.
      rewrite Hm1, Hm2, Hm3, Hr1, Hr2, Hr3, Hpub_pub, Hpub_ref, Hpub_priv, Hq1, Hq2, Hq3.
      repeat split.
      * exists []. rewrite app_nil_r. split; reflexivity.
      * intros res2 Heq. discriminate.
  - cbn [fst snd].
    rewrite !count_app, !count_cons.
    rewrite Hm1, Hm2, Hm3, Hr1, Hr2, Hr3, Hpub_pub, Hpub_ref, Hpub_priv.
    repeat split.
Qed.


(** ** Settling a job *)

Lemma status_updates_app (t1 t2 : trace) :
  status_updates (t1 ++ t2) = status_updates t1 ++ status_updates t2.
Proof.
  induction t1 as [| e t1 IH]; [reflexivity |].
  destruct e; simpl; rewrite IH; reflexivity.
Qed.

Lemma no_job_update (t : trace) : count is_job_update t = 0 -> status_updates t = [].
Proof.
  induction t as [| e t IH]; [reflexivity |].
  rewrite count_cons. destruct e; simpl; intros H; try (apply IH; exact H).
  discriminate.
Qed.

(** Either the normalisation of an item throws, before anything is
    written, or the job gets one final status and one result entry, and
    the token pair is left as it was. *)
Lemma settle_job_cases site_id j (resMl : http_response) st w h :
  (exists e, settle_job site_id j resMl st w h = (Thrown e, []))
  \/ (exists st' entry final t,
        settle_job site_id j resMl st w h = (Normal st', t)
        /\ accessToken st' = accessToken st
        /\ refreshTok st' = refreshTok st
        /\ results st' = results st ++ [entry]
        /\ is_final final
        /\ status_updates t = [(job_id j, final)]).
Proof.
  destruct (ok resMl) eqn:Hok.
  - unfold settle_job. rewrite Hok. cbv zeta. cbn [negb].
    destruct (extractItems (job_category_id j) (json_or_empty resMl)) as [| x items] eqn:Ei.
    + right. unfold finish_job.
      rewrite (bind_then_ret _ _ w h tt _ (mark_done_run j w h)).
      do 4 eexists. repeat split; try reflexivity. left. reflexivity.
    + destruct (cmap (normalize_item site_id j) (x :: items)) as [rows | e] eqn:Ec.
      * right.
        rewrite (bind_normal _ _ w h rows []) by reflexivity.
        destruct (w_upsert_items w (h ++ []) rows) as [e |] eqn:Eu.
        -- rewrite (bind_normal _ _ _ _ (Some e) [EUpsertItems rows (Some e)])
             by (unfold upsert_items; rewrite Eu; reflexivity).
           rewrite (bind_then_ret _ _ _ _ tt _ (mark_error_run j _ w _)).
           cbn [fst snd app].
           do 4 eexists. repeat split; try reflexivity. right. reflexivity.
        -- rewrite (bind_normal _ _ _ _ None [EUpsertItems rows None])
             by (unfold upsert_items; rewrite Eu; reflexivity).
           unfold finish_job.
           rewrite (bind_then_ret _ _ _ _ tt _ (mark_done_run j w _)).
           cbn [fst snd app].
           do 4 eexists. repeat split; try reflexivity. left. reflexivity.
      * left. exists e. apply bind_thrown. reflexivity.
  - right. rewrite (settle_job_not_ok _ _ _ _ _ _ Hok), mark_error_run.
    do 4 eexists. repeat split; try reflexivity. right. reflexivity.
Qed.

Lemma fetch_listing_no_job_update seller url st w h :
  count is_job_update (snd (fetch_listing seller url st w h)) = 0.
Proof.
  rewrite fetch_listing_run.
  destruct (w_fetch w h (public_request url)) as [res | e]; [| reflexivity].
  cbv zeta. destruct (seller && (status res =? 401)%Z); [| reflexivity].
  destruct (refreshToken_counts (refreshTok st) w
              (h ++ [EFetch (public_request url) (Normal res)]))
    as (_ & _ & _ & _ & Hu & _).
  destruct (refreshToken (refreshTok st) w
              (h ++ [EFetch (public_request url) (Normal res)])) as [[r | e] tr].
  - cbn [snd] in Hu.
    destruct (w_fetch w ((h ++ [EFetch (public_request url) (Normal res)]) ++ tr)
                (private_request url (access_token r)));
      cbn [snd]; rewrite count_cons, count_app, Hu; reflexivity.
  - cbn [snd] in *. rewrite count_cons, Hu. reflexivity.
Qed.

(** The job updates of one turn of the loop: the claim, then a final
    status unless an exception leaves the loop. *)
Lemma process_job_updates site_id limit j st w h :
  match fst (process_job site_id limit j st w h) with
  | Normal _ =>
      exists final, is_final final
        /\ status_updates (snd (process_job site_id limit j st w h))
           = [(job_id j, "processing"); (job_id j, final)]
  | Thrown _ =>
      status_updates (snd (process_job site_id limit j st w h))
        = [(job_id j, "processing")]
  end.
Proof.
  rewrite process_job_run.
  set (st1 := {| accessToken := accessToken st; refreshTok := refreshTok st;
                 results := results st; processed := S (processed st);
                 inserted := inserted st |}).
  set (tm := snd (mark_processing j w h)).
  pose proof (fetch_listing_no_job_update (isSeller j) (job_url site_id limit j) st1 w
                (h ++ tm)) as Hf.
  destruct (fetch_listing (isSeller j) (job_url site_id limit j) st1 w (h ++ tm))
    as [[rs | e] tf]; cbn [fst snd] in *.
  - rewrite !status_updates_app, (no_job_update _ Hf). cbn [app].
    destruct (settle_job_cases site_id j (fst rs) (snd rs) w ((h ++ tm) ++ tf))
      as [(e & ->) | (st' & entry & final & t & -> & _ & _ & _ & Hfin & Hup)];
      cbn [fst snd].
    + reflexivity.
    + exists final. split; [exact Hfin |]. rewrite Hup. reflexivity.
  - rewrite status_updates_app, (no_job_update _ Hf). reflexivity.
Qed.


(** ** Marketplace failures *)

(** C6, amended. The response that is classified is the answer to the
    anonymous fetch, except for a seller job answered 401, for which it is
    the answer to the authenticated retry that follows a successful
    refresh.  When that response has a non-success status, the job is
    updated to status "error" with [last_error] made of "ML", the status
    code and the serialisation of the payload, which is the parsed body
    of the response, or [{}] when the body is not JSON; the entry
    [{job_id, category, ok: false, status, payload}] is appended to the
    results, and the loop goes on with the remaining jobs from that state.
    When the refresh of a seller job answered 401 fails, nothing of this
    happens: the job is left claimed and the exception leaves the loop,
    the remaining jobs being dropped. *)
Theorem marketplace_failure_is_isolated (site_id : string) (limit : number)
    (j : job) (rest : list job) (st : loop_state) (w : world) (h : trace) :
  let st1 := {| accessToken := accessToken st; refreshTok := refreshTok st;
                results := results st; processed := S (processed st);
                inserted := inserted st |} in
  let tm := snd (mark_processing j w h) in
  let url := job_url site_id limit j in
  (forall (res : http_response) (st2 : loop_state) (tf : trace),
     fetch_listing (isSeller j) url st1 w (h ++ tm) = (Normal (res, st2), tf) ->
     ok res = false ->
     let payload := match json res with Some v => v | None => VObj [] end in
     let stamp := w_now_iso w ((h ++ tm) ++ tf) in
     let update :=
       {| upd_status := "error";
          upd_attempts := None;
          upd_updated_at := stamp;
          upd_last_error :=
            Some ("ML " +++ decimal (status res) +++ " " +++ JSON_stringify payload) |} in
     let te :=
       [ENowISO stamp;
        EUpdateJob (job_id j) update
          (w_update_job w (((h ++ tm) ++ tf) ++ [ENowISO stamp]) (job_id j) update)] in
     let st3 :=
       {| accessToken := accessToken st2; refreshTok := refreshTok st2;
          results :=
            results st2
              ++ [ResultHttpFailure (job_id j) (job_category_id j) (status res) payload];
          processed := processed st2; inserted := inserted st2 |} in
     process_job site_id limit j st w h = (Normal st3, tm ++ tf ++ te)
     /\ process_jobs site_id limit (j :: rest) st w h =
          (fst (process_jobs site_id limit rest st3 w (h ++ tm ++ tf ++ te)),
           (tm ++ tf ++ te)
             ++ snd (process_jobs site_id limit rest st3 w (h ++ tm ++ tf ++ te))))
  /\ (forall res : http_response,
        w_fetch w (h ++ tm) (public_request url) = Normal res ->
        isSeller j && (status res =? 401)%Z = false ->
        fetch_listing (isSeller j) url st1 w (h ++ tm)
        = (Normal (res, st1), [EFetch (public_request url) (Normal res)]))
  /\ (forall (res res' : http_response) (r : refreshed) (tr : trace),
        let pub := EFetch (public_request url) (Normal res) in
        let rq := private_request url (access_token r) in
        isSeller j = true ->
        w_fetch w (h ++ tm) (public_request url) = Normal res ->
        status res = 401%Z ->
        refreshToken (refreshTok st) w ((h ++ tm) ++ [pub]) = (Normal r, tr) ->
        w_fetch w (((h ++ tm) ++ [pub]) ++ tr) rq = Normal res' ->
        fetch_listing (isSeller j) url st1 w (h ++ tm)
        = (Normal (res',
                   {| accessToken := access_token r; refreshTok := refresh_token r;
                      results := results st; processed := S (processed st);
                      inserted := inserted st |}),
           pub :: tr ++ [EFetch rq (Normal res')]))
  /\ (forall (res : http_response) (e : js_error) (tr : trace),
        let pub := EFetch (public_request url) (Normal res) in
        isSeller j = true ->
        w_fetch w (h ++ tm) (public_request url) = Normal res ->
        status res = 401%Z ->
        refreshToken (refreshTok st) w ((h ++ tm) ++ [pub]) = (Thrown e, tr) ->
        process_jobs site_id limit (j :: rest) st w h = (Thrown e, tm ++ pub :: tr)
        /\ status_updates (tm ++ pub :: tr) = [(job_id j, "processing")]).
Proof.
  intros st1 tm url.
  assert (Haborted : forall (res : http_response) (e : js_error) (tr : trace),
            isSeller j = true ->
            w_fetch w (h ++ tm) (public_request url) = Normal res ->
            status res = 401%Z ->
            refreshToken (refreshTok st) w
              ((h ++ tm) ++ [EFetch (public_request url) (Normal res)]) = (Thrown e, tr) ->
            process_job site_id limit j st w h
            = (Thrown e, tm ++ EFetch (public_request url) (Normal res) :: tr)).
  { intros res e tr Hseller Hpub H401 Hrefresh.
    rewrite process_job_run, fetch_listing_run. fold st1 tm url.
    rewrite Hpub. cbv zeta. rewrite Hseller, H401.
    cbn [andb Z.eqb Pos.eqb refreshTok st1]. rewrite Hrefresh. reflexivity. }
  split; [| split; [| split]].
  - intros res st2 tf Hfetch Hok payload stamp update te st3.
    assert (Hjob : process_job site_id limit j st w h = (Normal st3, tm ++ tf ++ te)).
    { rewrite process_job_run. fold st1 tm url. rewrite Hfetch. cbn [fst snd].
      rewrite (settle_job_not_ok _ _ _ _ _ _ Hok). reflexivity. }
    split; [exact Hjob |]. apply process_jobs_cons. exact Hjob.
  - intros res Hpub Hcond. rewrite fetch_listing_run, Hpub. cbv zeta.
    rewrite Hcond. reflexivity.
  - intros res res' r tr pub rq Hseller Hpub H401 Hrefresh Hretry.
    rewrite fetch_listing_run, Hpub. cbv zeta.
    rewrite Hseller, H401. cbn [andb Z.eqb Pos.eqb refreshTok st1].
    fold pub. rewrite Hrefresh. fold rq. rewrite Hretry. reflexivity.
  - intros res e tr pub Hseller Hpub H401 Hrefresh.
    pose proof (Haborted res e tr Hseller Hpub H401 Hrefresh) as Hjob.
    split; [apply process_jobs_abort; exact Hjob |].
    pose proof (process_job_updates site_id limit j st w h) as Hup.
    rewrite Hjob in Hup. exact Hup.
Qed.


(** ** The whole batch *)

Lemma process_job_refresh_count site_id limit j st w h :
  count is_refresh (snd (process_job site_id limit j st w h))
  = count is_seller_401 (snd (process_job site_id limit j st w h)).
Proof.
  pose proof (mark_processing_silent is_refresh j avoids_settlement_refresh w h) as Hm1.
  pose proof (mark_processing_silent is_seller_401 j avoids_settlement_seller_401 w h)
    as Hm2.
  rewrite process_job_run, fetch_listing_run.
  set (st1 := {| accessToken := accessToken st; refreshTok := refreshTok st;
                 results := results st; processed := S (processed st);
                 inserted := inserted st |}).
  set (tm := snd (mark_processing j w h)) in *.
  set (url := job_url site_id limit j).
  assert (Hoauth : forall a : completion http_response,
            is_refresh (EFetch (public_request url) a) = false).
  { intros a. apply job_url_not_oauth. }
  destruct (w_fetch w (h ++ tm) (public_request url)) as [res | e].
  - cbv zeta.
    assert (H401 : is_seller_401 (EFetch (public_request url) (Normal res))
                   = isSeller j && (status res =? 401)%Z).
    { unfold is_seller_401. cbn [is_public_fetch public_request rq_url].
      unfold url. rewrite job_url_seller. reflexivity. }
    destruct (isSeller j && (status res =? 401)%Z) eqn:Econd.
    + destruct (refreshToken_counts (refreshTok st1) w
                  ((h ++ tm) ++ [EFetch (public_request url) (Normal res)]))
        as (Hr1 & _ & _ & Hr4 & _ & _).
      destruct (refreshToken (refreshTok st1) w
                  ((h ++ tm) ++ [EFetch (public_request url) (Normal res)]))
        as [[r | e] tr]; cbn [snd] in Hr1, Hr4.
      * assert (Hretry : forall a : completion http_response,
                  is_refresh (EFetch (private_request url (access_token r)) a) = false
                  /\ is_seller_401 (EFetch (private_request url (access_token r)) a)
                     = false).
        { intros a. split; [apply job_url_not_oauth | destruct a; reflexivity]. }
        destruct (w_fetch w (((h ++ tm) ++ [EFetch (public_request url) (Normal res)]) ++ tr)
                    (private_request url (access_token r))) as [res' | e'];
          cbn [fst snd].
        -- destruct (Hretry (Normal res')) as (Hq1 & Hq2).
           rewrite !count_app, !count_cons, !count_app, !count_cons, !count_nil.
           rewrite Hm1, Hm2, Hr1, Hr4, Hoauth, H401, Hq1, Hq2.
           rewrite (settle_job_silent is_refresh _ _ _ _ avoids_settlement_refresh).
           rewrite (settle_job_silent is_seller_401 _ _ _ _ avoids_settlement_seller_401).
           reflexivity.
        -- destruct (Hretry (Thrown e')) as (Hq1 & Hq2).
           rewrite !count_app, !count_cons, !count_app, !count_cons, !count_nil.
           rewrite Hm1, Hm2, Hr1, Hr4, Hoauth, H401, Hq1, Hq2. reflexivity.
      * cbn [fst snd]. rewrite !count_app, !count_cons.
        rewrite Hm1, Hm2, Hr1, Hr4, Hoauth, H401. reflexivity.
    + cbn [fst snd]. rewrite !count_app, !count_cons, !count_nil.
      rewrite Hm1, Hm2, Hoauth, H401.
      rewrite (settle_job_silent is_refresh _ _ _ _ avoids_settlement_refresh).
      rewrite (settle_job_silent is_seller_401 _ _ _ _ avoids_settlement_seller_401).
      reflexivity.
  - cbn [fst snd].
    rewrite !count_app, !count_cons, !count_nil, Hm1, Hm2, Hoauth. reflexivity.
Qed.

Lemma process_jobs_refresh_count site_id limit jobs st w h :
  count is_refresh (snd (process_jobs site_id limit jobs st w h))
  = count is_seller_401 (snd (process_jobs site_id limit jobs st w h)).
Proof.
  revert st h. induction jobs as [| j rest IH]; intros st h; [reflexivity |].
  pose proof (process_job_refresh_count site_id limit j st w h) as Hj.
  destruct (process_job site_id limit j st w h) as [[st' | e] t] eqn:Ej; cbn [snd] in Hj.
  - rewrite (process_jobs_cons _ _ _ _ _ _ _ _ _ Ej). cbn [snd].
    rewrite !count_app, Hj, IH. reflexivity.
  - rewrite (process_jobs_abort _ _ _ _ _ _ _ _ _ Ej). exact Hj.
Qed.

(** The token pair a job leaves behind. *)
Lemma process_job_pair site_id limit j st w h st' t :
  process_job site_id limit j st w h = (Normal st', t) ->
  match count is_seller_401 t with
  | O => accessToken st' = accessToken st /\ refreshTok st' = refreshTok st
  | S _ =>
      exists asked r tr,
        refreshToken (refreshTok st) w asked = (Normal r, tr)
        /\ accessToken st' = access_token r
        /\ refreshTok st' = refresh_token r
  end.
Proof.
  pose proof (mark_processing_silent is_seller_401 j avoids_settlement_seller_401 w h)
    as Hm.
  rewrite process_job_run, fetch_listing_run.
  set (st1 := {| accessToken := accessToken st; refreshTok := refreshTok st;
                 results := results st; processed := S (processed st);
                 inserted := inserted st |}).
  remember (snd (mark_processing j w h)) as tm eqn:Etm.
  set (url := job_url site_id limit j).
  destruct (w_fetch w (h ++ tm) (public_request url)) as [res | e]; [| discriminate].
  cbv zeta.
  assert (H401 : is_seller_401 (EFetch (public_request url) (Normal res))
                 = isSeller j && (status res =? 401)%Z).
  { unfold is_seller_401. cbn [is_public_fetch public_request rq_url].
    unfold url. rewrite job_url_seller. reflexivity. }
  destruct (isSeller j && (status res =? 401)%Z) eqn:Econd.
  - destruct (refreshToken (refreshTok st1) w
                ((h ++ tm) ++ [EFetch (public_request url) (Normal res)]))
      as [[r | e] tr] eqn:Er; [| discriminate].
    destruct (w_fetch w (((h ++ tm) ++ [EFetch (public_request url) (Normal res)]) ++ tr)
                (private_request url (access_token r))) as [res' | e']; [| discriminate].
    cbn [fst snd].
    destruct (settle_job_cases site_id j res'
                {| accessToken := access_token r; refreshTok := refresh_token r;
                   results := results st1; processed := processed st1;
                   inserted := inserted st1 |} w
                ((h ++ tm) ++ EFetch (public_request url) (Normal res)
                   :: tr ++ [EFetch (private_request url (access_token r)) (Normal res')]))
      as [(e & ->) | (st2 & entry & final & ts & -> & Ha & Hr & _)];
      cbn [fst snd]; intros Heq; [discriminate |].
    injection Heq as <- <-.
    rewrite !count_app, count_cons, Hm, H401. cbn [Nat.add].
    exists ((h ++ tm) ++ [EFetch (public_request url) (Normal res)]), r, tr.
    repeat split; assumption.
  - cbn [fst snd].
    destruct (settle_job_cases site_id j res st1 w
                ((h ++ tm) ++ [EFetch (public_request url) (Normal res)]))
      as [(e & Esettle) | (st2 & entry & final & ts & Esettle & Ha & Hr & _)];
      rewrite Esettle; cbn [fst snd]; intros Heq; [discriminate |].
    injection Heq as <- <-.
    pose proof (settle_job_silent is_seller_401 site_id j res st1
                  avoids_settlement_seller_401 w
                  ((h ++ tm) ++ [EFetch (public_request url) (Normal res)])) as Hs.
    rewrite Esettle in Hs. cbn [snd] in Hs.
    rewrite ?count_app, ?count_cons, ?count_nil, ?count_app, Hm, H401, Hs.
    split; assumption.
Qed.


Lemma getLatestToken_silent (p : event -> bool) :
  (forall r, p (ESelectLatestToken r) = false) -> silent p getLatestToken.
Proof.
  intros H. unfold getLatestToken. apply silent_bind.
  - intros w h. unfold select_latest_token. simpl. rewrite count_cons, H. reflexivity.
  - intros r. silence.
Qed.

Lemma resolve_tokens_silent (p : event -> bool) req :
  (forall r, p (ESelectLatestToken r) = false) -> silent p (resolve_tokens req).
Proof.
  intros H. unfold resolve_tokens. cbv zeta.
  destruct (negb (incomingBearer req =? "")%string);
    (apply silent_bind; [apply getLatestToken_silent, H | intros tok; apply silent_ret]).
Qed.

Lemma avoids_latest_token (p : event -> bool) :
  (forall e, p e = true -> is_fetch e = true) ->
  forall r, p (ESelectLatestToken r : event) = false.
Proof.
  intros Hp r. destruct (p (ESelectLatestToken r)) eqn:E; [| reflexivity].
  apply Hp in E. discriminate.
Qed.

Lemma handler_refresh_count (req : request) (w : world) (h : trace) :
  count is_refresh (snd (handler req w h)) = count is_seller_401 (snd (handler req w h)).
Proof.
  unfold handler.
  destruct (negb (method req =? "POST")%string); [reflexivity |].
  destruct (resolve_site_id (body_or_empty req)) as [site_id | e]; [| reflexivity].
  destruct (resolve_batch (body_or_empty req)) as [batch | e]; [| reflexivity].
  destruct (resolve_limit (body_or_empty req)) as [limit | e]; [| reflexivity].
  assert (Htry : count is_refresh (snd (handler_try req site_id batch limit w h))
                 = count is_seller_401 (snd (handler_try req site_id batch limit w h))).
  { unfold handler_try. rewrite bind_snd.
    unfold select_jobs at 1 2 3 4 5 6. cbn [fst snd].
    set (asked := ESelectJobs site_id batch (w_select_jobs w h site_id batch)).
    rewrite !count_app, !count_cons, !count_nil. cbn [is_refresh is_seller_401 Nat.add].
    destruct (error (w_select_jobs w h site_id batch)); [reflexivity |].
    destruct (data (w_select_jobs w h site_id batch)) as [[| j jobs] |];
      try reflexivity.
    rewrite bind_snd, !count_app.
    rewrite (resolve_tokens_silent is_refresh req (avoids_latest_token _ refresh_is_fetch)).
    rewrite (resolve_tokens_silent is_seller_401 req
               (avoids_latest_token _ seller_401_is_fetch)).
    destruct (fst (resolve_tokens req w (h ++ [asked]))) as [ts | e]; [| reflexivity].
    rewrite bind_snd, !count_app, process_jobs_refresh_count.
    destruct (fst (process_jobs site_id limit (j :: jobs) (snd ts) w
                     ((h ++ [asked]) ++ snd (resolve_tokens req w (h ++ [asked])))));
      reflexivity. }
  destruct (handler_try req site_id batch limit w h) as [[r | e] t]; exact Htry.
Qed.

(** C3, amended. Within one invocation the OAuth endpoint is called once
    for every seller job whose anonymous fetch is answered 401, however
    many there are: the number of refreshes of a batch is the number of
    such answers, not at most one.  A job without such an answer leaves
    the in-memory token pair as it found it; a job with one that runs to
    its end leaves the pair returned by a refresh made with the refresh
    token held when the job started, so a later refresh starts from the
    pair of the earlier one. *)
Theorem refresh_for_every_seller_401 (site_id : string) (limit : number) (w : world) :
  (forall req h,
     count is_refresh (snd (handler req w h))
     = count is_seller_401 (snd (handler req w h)))
  /\ (forall jobs st h,
        count is_refresh (snd (process_jobs site_id limit jobs st w h))
        = count is_seller_401 (snd (process_jobs site_id limit jobs st w h)))
  /\ (forall j st h st' t,
        process_job site_id limit j st w h = (Normal st', t) ->
        match count is_seller_401 t with
        | O => accessToken st' = accessToken st /\ refreshTok st' = refreshTok st
        | S _ =>
            exists asked r tr,
              refreshToken (refreshTok st) w asked = (Normal r, tr)
              /\ accessToken st' = access_token r
              /\ refreshTok st' = refresh_token r
        end).
Proof.
  split; [| split].
  - intros req h. apply handler_refresh_count.
  - intros jobs st h. apply process_jobs_refresh_count.
  - intros j st h st' t. apply process_job_pair.
Qed.

(** ** Aborted invocations *)

(** The job updates of a batch: every job that was processed to its end
    is claimed and finalized; when an exception leaves the loop, the job
    in hand has been claimed and nothing more. *)
Lemma process_jobs_updates site_id limit jobs st w h :
  match fst (process_jobs site_id limit jobs st w h) with
  | Normal _ =>
      exists finals,
        List.length finals = List.length jobs
        /\ Forall is_final finals
        /\ status_updates (snd (process_jobs site_id limit jobs st w h))
           = finalized (combine jobs finals)
  | Thrown _ =>
      exists pre j post finals,
        jobs = pre ++ j :: post
        /\ List.length finals = List.length pre
        /\ Forall is_final finals
        /\ status_updates (snd (process_jobs site_id limit jobs st w h))
           = finalized (combine pre finals) ++ [(job_id j, "processing")]
  end.
Proof.
  revert st h. induction jobs as [| j rest IH]; intros st h.
  - exists []. repeat split. constructor.
  - pose proof (process_job_updates site_id limit j st w h) as Hj.
    destruct (process_job site_id limit j st w h) as [[st' | e] t] eqn:Ej;
      cbn [fst snd] in Hj.
    + rewrite (process_jobs_cons _ _ _ _ _ _ _ _ _ Ej). cbn [fst snd].
      destruct Hj as (final & Hfin & Hup).
      specialize (IH st' (h ++ t)).
      destruct (fst (process_jobs site_id limit rest st' w (h ++ t))).
      * destruct IH as (finals & Hlen & Hall & Hrest).
        exists (final :: finals). repeat split.
        -- simpl. rewrite Hlen. reflexivity.
        -- constructor; assumption.
        -- rewrite status_updates_app, Hup, Hrest. reflexivity.
      * destruct IH as (pre & j0 & post & finals & Hjobs & Hlen & Hall & Hrest).
        exists (j :: pre), j0, post, (final :: finals). repeat split.
        -- rewrite Hjobs. reflexivity.
        -- simpl. rewrite Hlen. reflexivity.
        -- constructor; assumption.
        -- rewrite status_updates_app, Hup, Hrest. reflexivity.
    + rewrite (process_jobs_abort _ _ _ _ _ _ _ _ _ Ej). cbn [fst snd].
      exists [], j, rest, []. repeat split; [constructor | exact Hj].
Qed.

Lemma status_after_app (t1 t2 : trace) (id : Z) (s : string) :
  status_after (t1 ++ t2) id s = status_after t2 id (status_after t1 id s).
Proof.
  revert s. induction t1 as [| e t1 IH]; intros s; [reflexivity |].
  destruct e as [| | id' u [err |] | | | | | |]; cbn [app status_after]; apply IH.
Qed.

Lemma status_after_quiet (t : trace) (id : Z) (s : string) :
  count is_job_update t = 0 -> status_after t id s = s.
Proof.
  induction t as [| e t IH]; [reflexivity |].
  rewrite count_cons.
  destruct e as [| | id' u r | | | | | |]; cbn [is_job_update status_after Nat.add];
    try exact IH.
  discriminate.
Qed.

(** A turn of the loop that an exception leaves: the job has been claimed
    and no other update of a job was made. *)
Lemma process_job_aborted site_id limit j (st : loop_state) w h e t :
  process_job site_id limit j st w h = (Thrown e, t) ->
  let stamp := w_now_iso w h in
  let claim :=
    {| upd_status := "processing";
       upd_attempts := Some (num_add (match job_attempts j with
                                      | Some a => a
                                      | None => num_of_Z 0
                                      end) (num_of_Z 1));
       upd_updated_at := stamp;
       upd_last_error := None |} in
  exists t2,
    t = ENowISO stamp
          :: EUpdateJob (job_id j) claim
               (w_update_job w (h ++ [ENowISO stamp]) (job_id j) claim)
          :: t2
    /\ count is_job_update t2 = 0.
Proof.
  rewrite process_job_run.
  set (st1 := {| accessToken := accessToken st; refreshTok := refreshTok st;
                 results := results st; processed := S (processed st);
                 inserted := inserted st |}).
  pose proof (fetch_listing_no_job_update (isSeller j) (job_url site_id limit j) st1 w
                (h ++ snd (mark_processing j w h))) as Hf.
  destruct (fetch_listing (isSeller j) (job_url site_id limit j) st1 w
              (h ++ snd (mark_processing j w h))) as [[rs | e'] tf]; cbn [snd] in Hf.
  - destruct (settle_job_cases site_id j (fst rs) (snd rs) w
                ((h ++ snd (mark_processing j w h)) ++ tf))
      as [(e' & ->) | (st' & entry & final & ts & -> & _)]; cbn [fst snd];
      intros Heq; [| discriminate Heq].
    injection Heq as _ <-.
    exists tf. rewrite app_nil_r. split; [reflexivity | exact Hf].
  - intros Heq. injection Heq as _ <-.
    exists tf. split; [reflexivity | exact Hf].
Qed.

(** A batch that an exception leaves: the jobs before the one in hand
    were claimed and finalized, the one in hand was claimed, and that
    claim is the last update of a job. *)
Lemma process_jobs_aborted site_id limit jobs (st : loop_state) w h e t :
  process_jobs site_id limit jobs st w h = (Thrown e, t) ->
  exists pre j post finals t1 stamp r t2,
    jobs = pre ++ j :: post
    /\ List.length finals = List.length pre
    /\ Forall is_final finals
    /\ t = t1
           ++ EUpdateJob (job_id j)
                {| upd_status := "processing";
                   upd_attempts := Some (num_add (match job_attempts j with
                                                  | Some a => a
                                                  | None => num_of_Z 0
                                                  end) (num_of_Z 1));
                   upd_updated_at := stamp;
                   upd_last_error := None |} r
           :: t2
    /\ status_updates t1 = finalized (combine pre finals)
    /\ count is_job_update t2 = 0.
Proof.
  revert st h t. induction jobs as [| j rest IH]; intros st h t; [discriminate |].
  pose proof (process_job_updates site_id limit j st w h) as Hj.
  destruct (process_job site_id limit j st w h) as [[st' | e'] tj] eqn:Ej;
    cbn [fst snd] in Hj.
  - rewrite (process_jobs_cons _ _ _ _ _ _ _ _ _ Ej).
    destruct (process_jobs site_id limit rest st' w (h ++ tj)) as [c t'] eqn:Erest.
    cbn [fst snd]. intros Heq. injection Heq as -> <-.
    destruct (IH _ _ _ Erest)
      as (pre & j0 & post & finals & t1 & stamp & r & t2
          & -> & Hlen & Hall & -> & Hup & Hquiet).
    destruct Hj as (final & Hfin & Hupj).
    exists (j :: pre), j0, post, (final :: finals), (tj ++ t1), stamp, r, t2.
    repeat split.
    + simpl. rewrite Hlen. reflexivity.
    + constructor; assumption.
    + rewrite app_assoc. reflexivity.
    + rewrite status_updates_app, Hupj, Hup. reflexivity.
    + exact Hquiet.
  - rewrite (process_jobs_abort _ _ _ _ _ _ _ _ _ Ej). intros Heq.
    injection Heq as <- <-.
    destruct (process_job_aborted _ _ _ _ _ _ _ _ Ej) as (t2 & -> & Hquiet).
    exists [], j, rest, [], [ENowISO (w_now_iso w h)]. do 3 eexists.
    repeat split; [constructor | exact Hquiet].
Qed.

(** C8, amended. Whatever exception leaves the [try] block (no usable
    stored credential, a failed refresh, a network failure, a [TypeError]),
    the invocation ends there with the reply [{ok: false, error: message}]
    and status 500.  When the exception comes from resolving the
    credential, nothing has been written.  When it is thrown inside the
    loop, the jobs processed before it were sent the final status they
    were given, the jobs not yet reached are not touched, and the job in
    hand has been claimed (status "processing", [attempts] set to the sum
    of its former value and 1) and is left so: that claim is the last
    update of a job, and the job is in status "processing" once the
    database has accepted it. *)
Theorem abort_is_top_level_failure (req : request) (w : world) (h : trace)
    (site_id : string) (batch limit : number) (e : js_error) (t : trace) :
  method req = "POST" ->
  resolve_site_id (body_or_empty req) = Normal site_id ->
  resolve_batch (body_or_empty req) = Normal batch ->
  resolve_limit (body_or_empty req) = Normal limit ->
  handler_try req site_id batch limit w h = (Thrown e, t) ->
  let asked := ESelectJobs site_id batch (w_select_jobs w h site_id batch) in
  handler req w h =
    (Normal {| reply_status := 500; reply_body_of := BodyFailure (error_text e) |}, t)
  /\ (forall e' tt,
        resolve_tokens req w (h ++ [asked]) = (Thrown e', tt) ->
        e' = e /\ t = asked :: tt /\ count is_mutation t = 0)
  /\ (forall ts tt,
        resolve_tokens req w (h ++ [asked]) = (Normal ts, tt) ->
        exists pre j post finals t1 stamp r t2,
          data (w_select_jobs w h site_id batch) = Some (pre ++ j :: post)
          /\ List.length finals = List.length pre
          /\ Forall is_final finals
          /\ t = t1
                 ++ EUpdateJob (job_id j)
                      {| upd_status := "processing";
                         upd_attempts :=
                           Some (num_add (match job_attempts j with
                                          | Some a => a
                                          | None => num_of_Z 0
                                          end) (num_of_Z 1));
                         upd_updated_at := stamp;
                         upd_last_error := None |} r
                 :: t2
          /\ status_updates t1 = finalized (combine pre finals)
          /\ count is_job_update t2 = 0
          /\ status_updates t
             = finalized (combine pre finals) ++ [(job_id j, "processing")]
          /\ (r = None -> forall s, status_after t (job_id j) s = "processing")).
Proof.
  intros Hm Hs Hb Hl Htry asked. split; [| split].
  - unfold handler. rewrite Hm, Hs, Hb, Hl. simpl negb. cbv iota. rewrite Htry.
    reflexivity.
  - intros e' tt Et. unfold handler_try in Htry.
    rewrite (bind_normal _ _ w h (w_select_jobs w h site_id batch) [asked])
      in Htry by reflexivity.
    destruct (error (w_select_jobs w h site_id batch)); [discriminate |].
    destruct (data (w_select_jobs w h site_id batch)) as [[| j jobs] |];
      try discriminate.
    rewrite (bind_thrown _ _ _ _ _ _ Et) in Htry. cbn [fst snd] in Htry.
    injection Htry as <- <-.
    pose proof (resolve_tokens_silent is_mutation req (fun _ => eq_refl) w
                  (h ++ [asked])) as Hquiet.
    rewrite Et in Hquiet. cbn [snd] in Hquiet.
    repeat split. cbn [app]. rewrite count_cons, Hquiet. reflexivity.
  - intros ts tt Et. unfold handler_try in Htry.
    rewrite (bind_normal _ _ w h (w_select_jobs w h site_id batch) [asked])
      in Htry by reflexivity.
    destruct (error (w_select_jobs w h site_id batch)); [discriminate |].
    destruct (data (w_select_jobs w h site_id batch)) as [[| j jobs] |];
      try discriminate.
    rewrite (bind_normal _ _ _ _ _ _ Et) in Htry.
    pose proof (resolve_tokens_silent is_job_update req (fun _ => eq_refl) w
                  (h ++ [asked])) as Hquiet.
    rewrite Et in Hquiet. cbn [snd] in Hquiet.
    destruct (process_jobs site_id limit (j :: jobs) (snd ts) w ((h ++ [asked]) ++ tt))
      as [[stf | e2] tl] eqn:Ep.
    + rewrite (bind_normal _ _ _ _ _ _ Ep) in Htry. discriminate.
    + rewrite (bind_thrown _ _ _ _ _ _ Ep) in Htry. cbn [fst snd] in Htry.
      injection Htry as _ Ht.
      destruct (process_jobs_aborted _ _ _ _ _ _ _ _ Ep)
        as (pre & j0 & post & finals & t1 & stamp & r & t2
            & Hjobs & Hlen & Hall & Htl & Hup & Hq2).
      exists pre, j0, post, finals, (asked :: tt ++ t1), stamp, r, t2.
      assert (Hup1 : status_updates (asked :: tt ++ t1) = finalized (combine pre finals)).
      { unfold asked. cbn [status_updates].
        rewrite status_updates_app, (no_job_update _ Hquiet). exact Hup. }
      assert (Hshape : t = (asked :: tt ++ t1)
                             ++ EUpdateJob (job_id j0)
                                  {| upd_status := "processing";
                                     upd_attempts :=
                                       Some (num_add (match job_attempts j0 with
                                                      | Some a => a
                                                      | None => num_of_Z 0
                                                      end) (num_of_Z 1));
                                     upd_updated_at := stamp;
                                     upd_last_error := None |} r :: t2).
      { rewrite <- Ht, Htl. cbn [app]. rewrite <- app_assoc. reflexivity. }
      rewrite Hshape.
      split; [rewrite Hjobs; reflexivity |].
      split; [exact Hlen |]. split; [exact Hall |]. split; [reflexivity |].
      split; [exact Hup1 |]. split; [exact Hq2 |]. split.
      * rewrite status_updates_app, Hup1. cbn [status_updates upd_status].
        rewrite (no_job_update _ Hq2). reflexivity.
      * intros -> s. rewrite status_after_app. cbn [status_after upd_status].
        rewrite Z.eqb_refl. apply status_after_quiet. exact Hq2.
Qed.

End Properties.

(** * The model at work

    The theorems applied to the concrete worlds, and the runs that set the
    specification's sentences against the code. *)

Section Runs.

Import Concrete Scenario Cases.

Local Abbreviation value := (value num).
Local Abbreviation job := (job num).
Local Abbreviation job_update := (job_update num).
Local Abbreviation trace := (trace num).

(** C9 at work: a body that names a country other than Chile. *)
Lemma site_id_defaults_to_MLC_witness :
  prop (VObj [("country", VStr "AR")] : value) "site_id" = VUndefined
  /\ resolve_site_id (VObj [("country", VStr "AR")] : value) = Normal "MLC".
Proof.
  split; [reflexivity |].
  apply (site_id_defaults_to_MLC (VObj [("country", VStr "AR")])). reflexivity.
Defined.

(** C5 at work: a structured item with a nested seller. *)
Lemma normalize_item_row_witness :
  is_nullish listing = false
  /\ normalize_item "MLC" category_job listing =
     Normal {| row_job_id := 7; row_site_id := "MLC"; row_category_id := "MLC1234";
               row_item_id := "MLC111";
               row_title := VStr "X"; row_permalink := VNull;
               row_price := VNum (Int 10); row_currency_id := VStr "CLP";
               row_seller_id := VNum (Int 42);
               row_raw := listing |}.
Proof.
  split; [reflexivity |].
  destruct (normalize_item_row "MLC" category_job listing eq_refl) as (_ & Hrow & _).
  exact (Hrow eq_refl "MLC111" eq_refl).
Defined.

(** C5 against the code: [null] is an item that [extractItems] hands over,
    and its normalisation produces no row but a [TypeError], which ends
    the invocation before anything is upserted (the one write is the claim
    of the job).  Besides, the [item_id] of a row is a string: a numeric
    [id] is stored as its decimal rendering. *)
Lemma normalize_null_item_throws :
  extractItems "MLC1234" null_item_payload = [VNull]
  /\ cbind (normalize_item "MLC" category_job (VObj [("id", VNum (Int 1))]))
       (fun r => Normal (row_item_id r)) = Normal "1"
  /\ normalize_item "MLC" category_job (VNull : value)
     = Thrown (TypeError "Cannot read properties of null (reading 'id')")
  /\ fst (handler (post VUndefined []) null_item_world [])
     = Normal {| reply_status := 500;
                 reply_body_of :=
                   BodyFailure "Cannot read properties of null (reading 'id')" |}
  /\ count is_mutation (snd (handler (post VUndefined []) null_item_world [])) = 1.
Proof. repeat split; vm_compute; reflexivity. Qed.

(** C7 at work. *)
Lemma no_jobs_no_mutation_witness :
  method (post VUndefined []) = "POST"
  /\ data (w_select_jobs idle_world [] "MLC" (Int 5)) = Some []
  /\ handler (post VUndefined []) idle_world [] =
       (Normal {| reply_status := 200;
                  reply_body_of := BodyNoJobs "MLC" (Int 5) (Int 50) |},
        [ESelectJobs "MLC" (Int 5) (w_select_jobs idle_world [] "MLC" (Int 5))]).
Proof.
  split; [reflexivity |]. split; [reflexivity |].
  apply (no_jobs_no_mutation (post VUndefined []) idle_world [] "MLC" (Int 5) (Int 50));
    try reflexivity.
  right. reflexivity.
Defined.

(** C10 at work: a bearer header, a pending job, no stored credential. *)
Lemma header_token_still_needs_stored_credential_witness :
  incomingBearer (post VUndefined [("authorization", "Bearer xyz")]) <> ""
  /\ data (w_select_latest_token tokenless_world
             [ESelectJobs "MLC" (Int 5) (w_select_jobs tokenless_world [] "MLC" (Int 5))])
     = None
  /\ fst (handler (post VUndefined [("authorization", "Bearer xyz")]) tokenless_world [])
     = Normal {| reply_status := 500;
                 reply_body_of :=
                   BodyFailure
                     "No token found in meli_oauth_tokens (missing access_token or refresh_token)" |}.
Proof.
  split; [vm_compute; discriminate |]. split; [reflexivity |].
  rewrite (header_token_still_needs_stored_credential
             (post VUndefined [("authorization", "Bearer xyz")]) tokenless_world []
             "MLC" (Int 5) (Int 50) category_job []).
  - reflexivity.
  - reflexivity.
  - reflexivity.
  - reflexivity.
  - reflexivity.
  - reflexivity.
  - reflexivity.
  - vm_compute. discriminate.
  - reflexivity.
  - left. reflexivity.
Defined.

(** C2 at work. *)
Lemma category_job_is_public_only_witness :
  isSeller category_job = false
  /\ count is_private_fetch
       (snd (process_job "MLC" (Int 50) category_job start category_world [])) = 0
  /\ count is_refresh
       (snd (process_job "MLC" (Int 50) category_job start category_world [])) = 0.
Proof.
  split; [reflexivity |].
  destruct (category_job_is_public_only "MLC" (Int 50) category_job start
              category_world [] eq_refl) as (Hprivate & Hrefresh & _).
  split; [exact Hprivate | exact Hrefresh].
Defined.

(** C6 at work: the first job of the batch is answered 500, the second
    is processed all the same; and what is recorded of an answer whose
    body is not JSON. *)
Lemma marketplace_failure_is_isolated_witness :
  let boom :=
    "ML 500 {" +++ quote +++ "message" +++ quote +++ ":" +++ quote +++ "boom" +++ quote
      +++ "}" in
  ok broken = false
  /\ ok unparsed = false
  /\ error_updates
       (snd (process_jobs "MLC" (Int 50) [category_job; seller_job] start
               failing_world []))
     = [(7%Z, None); (7%Z, Some boom); (9%Z, None); (9%Z, Some boom)]
  /\ error_updates
       (snd (process_job "MLC" (Int 50) category_job start unparsed_world []))
     = [(7%Z, None); (7%Z, Some "ML 502 {}")].
Proof.
  intros boom. split; [reflexivity |]. split; [reflexivity |].
  pose (st1 := {| accessToken := accessToken start; refreshTok := refreshTok start;
                  results := results start; processed := S (processed start);
                  inserted := inserted start |}).
  pose proof (marketplace_failure_is_isolated "MLC" (Int 50) category_job [seller_job]
                start failing_world []) as Hfailing.
  pose proof (marketplace_failure_is_isolated "MLC" (Int 50) category_job []
                start unparsed_world []) as Hunparsed.
  cbv zeta in Hfailing, Hunparsed.
  destruct Hfailing as (Hclass & Hpublic & _).
  destruct Hunparsed as (Hclass' & Hpublic' & _).
  destruct (Hclass broken st1 _ (Hpublic broken eq_refl eq_refl) eq_refl) as (_ & Hloop).
  destruct (Hclass' unparsed st1 _ (Hpublic' unparsed eq_refl eq_refl) eq_refl)
    as (Hjob & _).
  split; [rewrite Hloop | rewrite Hjob]; vm_compute; reflexivity.
Defined.

(** C6 against the code: the anonymous fetch of the first job, a seller
    job, is answered 401 and the refresh is rejected.  The job is not
    marked "error", no entry is recorded for it, and the job that comes
    after it is not even claimed: the failure ends the batch. *)
Lemma refused_refresh_ends_the_batch :
  let run := handler (post VUndefined []) stale_first_world [] in
  data (w_select_jobs stale_first_world [] "MLC" (Int 5))
  = Some [seller_job; category_job]
  /\ ok denied = false
  /\ filter is_public_fetch (snd run)
     = [EFetch (public_request (job_url "MLC" (Int 50) seller_job)) (Normal denied)]
  /\ fst run = Normal {| reply_status := 500;
                         reply_body_of := BodyFailure "Refresh token failed: 400 {}" |}
  /\ status_updates (snd run) = [(9%Z, "processing")]
  /\ ~ In (9%Z, "error") (status_updates (snd run))
  /\ count is_claim (snd run) = 1.
Proof.
  vm_compute. repeat split. intros [H | []]. discriminate H.
Qed.

(** C1 at work: 401, a refresh, then 401 again. *)
Lemma seller_401_one_refresh_one_retry_witness :
  isSeller seller_job = true
  /\ count is_public_fetch
       (snd (process_job "MLC" (Int 50) seller_job start locked_world [])) = 1
  /\ count is_refresh
       (snd (process_job "MLC" (Int 50) seller_job start locked_world [])) = 1.
Proof.
  split; [reflexivity |].
  destruct (seller_401_one_refresh_one_retry "MLC" (Int 50) seller_job start
              locked_world [] denied eq_refl eq_refl eq_refl) as (Hpublic & Hrefresh & _).
  split; [exact Hpublic | exact Hrefresh].
Defined.

(** C1 against the code: the anonymous fetch of a seller job is answered
    401 and the OAuth endpoint rejects the refresh; there is one refresh
    and no authenticated retry at all. *)
Lemma failed_refresh_has_no_retry :
  let t := snd (handler (post VUndefined []) expired_world []) in
  count is_seller_401 t = 1
  /\ count is_refresh t = 1
  /\ count is_private_fetch t = 0
  /\ count is_private_fetch t <> 1.
Proof. vm_compute. repeat split. discriminate. Qed.

(** C3 at work. *)
Lemma refresh_for_every_seller_401_witness :
  let st' := {| accessToken := "A1"; refreshTok := "R1";
                results := [ResultOk 9 "SELLER:555" 1 "seller"];
                processed := 1; inserted := 1 |} in
  let t := snd (process_job "MLC" (Int 50) seller_job start seller_world []) in
  process_job "MLC" (Int 50) seller_job start seller_world [] = (Normal st', t)
  /\ exists asked r tr,
       refreshToken (refreshTok start) seller_world asked = (Normal r, tr)
       /\ accessToken st' = access_token r
       /\ refreshTok st' = refresh_token r.
Proof.
  intros st' t.
  assert (Hrun : process_job "MLC" (Int 50) seller_job start seller_world []
                 = (Normal st', t)) by (vm_compute; reflexivity).
  split; [exact Hrun |].
  exact (proj2 (proj2 (refresh_for_every_seller_401 "MLC" (Int 50) seller_world))
           seller_job start [] st' t Hrun).
Defined.

(** C3 against the code: two seller jobs in one batch, each answered 401
    anonymously; the pair is refreshed twice, and the second job fetches
    with the token of the second refresh. *)
Lemma two_seller_jobs_refresh_twice :
  let t := snd (handler (post VUndefined []) two_sellers_world []) in
  count is_refresh t = 2
  /\ count is_token_write t = 2
  /\ map (fun e => match e with
                   | EFetch rq _ => header "Authorization" (rq_headers rq)
                   | _ => None
                   end) (filter is_private_fetch t)
     = [Some "Bearer A1"; Some "Bearer A2"]
  /\ ~ count is_refresh t <= 1.
Proof. vm_compute. repeat split. lia. Qed.

(** C8 at work: the first job of the batch is finalized, and the refresh
    fails while the second is in hand. *)
Lemma abort_is_top_level_failure_witness :
  let t := snd (handler_try (post VUndefined []) "MLC" (Int 5) (Int 50)
                  stale_last_world []) in
  handler_try (post VUndefined []) "MLC" (Int 5) (Int 50) stale_last_world []
    = (Thrown (Error_ "Refresh token failed: 400 {}"), t)
  /\ handler (post VUndefined []) stale_last_world []
     = (Normal {| reply_status := 500;
                  reply_body_of := BodyFailure "Refresh token failed: 400 {}" |}, t)
  /\ status_updates t = [(7%Z, "processing"); (7%Z, "error"); (9%Z, "processing")]
  /\ attempts_updates t = [(7%Z, Some (Int 1)); (7%Z, None); (9%Z, Some (Int 1))]
  /\ exists pre j post finals,
       [category_job; seller_job] = pre ++ j :: post
       /\ List.length finals = List.length pre
       /\ status_updates t
          = finalized (combine pre finals) ++ [(job_id j, "processing")].
Proof.
  intros t.
  assert (Htry : handler_try (post VUndefined []) "MLC" (Int 5) (Int 50)
                   stale_last_world []
                 = (Thrown (Error_ "Refresh token failed: 400 {}"), t))
    by (vm_compute; reflexivity).
  split; [exact Htry |].
  pose proof (abort_is_top_level_failure (post VUndefined []) stale_last_world []
                "MLC" (Int 5) (Int 50) _ t eq_refl eq_refl eq_refl eq_refl Htry)
    as Habort.
  cbv zeta in Habort. destruct Habort as (Hreply & _ & Hloop).
  split; [exact Hreply |].
  split; [vm_compute; reflexivity |]. split; [vm_compute; reflexivity |].
  destruct (Hloop _ _ eq_refl)
    as (pre & j & post & finals & t1 & stamp & r & t2
        & Hjobs & Hlen & _ & _ & _ & _ & Hupdates & _).
  exists pre, j, post, finals.
  split; [injection Hjobs as Hjobs; exact Hjobs |].
  split; [exact Hlen | exact Hupdates].
Defined.

(** C8 against the code: an unexpected error, the [TypeError] raised by a
    [null] item, aborts the invocation while job 7 is in hand.  No job had
    been finalized, and yet the status of job 7 has changed: it is
    neither the "pending" it was nor a final one, it stays "processing"
    with its attempts incremented. *)
Lemma aborted_job_stays_processing :
  let run := handler (post VUndefined []) null_item_world [] in
  fst run = Normal {| reply_status := 500;
                      reply_body_of :=
                        BodyFailure "Cannot read properties of null (reading 'id')" |}
  /\ status_updates (snd run) = [(7%Z, "processing")]
  /\ attempts_updates (snd run) = [(7%Z, Some (Int 1))]
  /\ status_after (snd run) 7 "pending" = "processing"
  /\ ~ (status_after (snd run) 7 "pending" = "pending"
        \/ is_final (status_after (snd run) 7 "pending")).
Proof.
  vm_compute. repeat split.
  intros [H | [H | H]]; discriminate.
Qed.

(** The two scans that the specification gives as examples. *)

Example category_scan :
  let run := handler (post VUndefined []) category_world [] in
  fst run
  = Normal {| reply_status := 200;
              reply_body_of :=
                BodySummary "MLC" 1 1 "db" 2
                  [ResultOk 7 "MLC1234" 1 "category_public"] |}
  /\ status_updates (snd run) = [(7%Z, "processing"); (7%Z, "done")]
  /\ filter is_mutation (snd run)
     = [EUpdateJob 7
          {| upd_status := "processing"; upd_attempts := Some (Int 1);
             upd_updated_at := "1970-01-01T00:00:02.000Z"; upd_last_error := None |}
          None;
        EUpsertItems
          [{| row_job_id := 7; row_site_id := "MLC"; row_category_id := "MLC1234";
              row_item_id := "MLC111"; row_title := VStr "X"; row_permalink := VNull;
              row_price := VNum (Int 10); row_currency_id := VStr "CLP";
              row_seller_id := VNull;
              row_raw :=
                VObj [("id", VStr "MLC111"); ("title", VStr "X");
                      ("price", VNum (Int 10)); ("currency_id", VStr "CLP")] |}]
          None;
        EUpdateJob 7
          {| upd_status := "done"; upd_attempts := None;
             upd_updated_at := "1970-01-01T00:00:06.000Z"; upd_last_error := None |}
          None].
Proof. vm_compute. repeat split. Qed.

Example seller_scan :
  let run := handler (post VUndefined []) seller_world [] in
  fst run
  = Normal {| reply_status := 200;
              reply_body_of :=
                BodySummary "MLC" 1 1 "db" 2 [ResultOk 9 "SELLER:555" 1 "seller"] |}
  /\ count is_refresh (snd run) = 1
  /\ count is_private_fetch (snd run) = 1
  /\ filter (fun e => match e with EUpsertItems _ _ => true | _ => false end) (snd run)
     = [EUpsertItems
          [{| row_job_id := 9; row_site_id := "MLC"; row_category_id := "SELLER:555";
              row_item_id := "MLC999"; row_title := VNull; row_permalink := VNull;
              row_price := VNull; row_currency_id := VNull; row_seller_id := VNull;
              row_raw := VStr "MLC999" |}]
          None].
Proof. vm_compute. repeat split. Qed.

End Runs.

(** * Further properties of the handler *)

Section Further.

Context {number : Type} {RT : Runtime number} {ENV : Env}.

Local Abbreviation value := (value number).
Local Abbreviation job := (job number).
Local Abbreviation job_update := (job_update number).
Local Abbreviation M := (M number).
Local Abbreviation world := (world number).
Local Abbreviation trace := (trace number).
Local Abbreviation event := (event number).
Local Abbreviation http_response := (http_response number).
Local Abbreviation token_write := (token_write number).
Local Abbreviation loop_state := (@loop_state number).
Local Abbreviation result_entry := (@result_entry number).

(** ** More on the monad *)

Lemma bind_lift_normal {A B} (a : A) (k : A -> M B) w h :
  bind (lift (Normal a)) k w h = k a w h.
Proof.
  unfold bind, lift. rewrite app_nil_r. destruct (k a w h). reflexivity.
Qed.

Lemma bind_lift_thrown {A B} (e : js_error) (k : A -> M B) w h :
  bind (lift (Thrown e)) k w h = (Thrown e, []).
Proof. reflexivity. Qed.

Lemma bind_inv {A B} (m : M A) (k : A -> M B) w h b t :
  bind m k w h = (Normal b, t) ->
  exists a t1 t2,
    m w h = (Normal a, t1) /\ k a w (h ++ t1) = (Normal b, t2) /\ t = t1 ++ t2.
Proof.
  unfold bind. destruct (m w h) as [[a | e] t1]; [| discriminate].
  destruct (k a w (h ++ t1)) as [c t2] eqn:Ek. intros Heq.
  injection Heq as -> <-. exists a, t1, t2.
  split; [reflexivity | split; [exact Ek | reflexivity]].
Qed.

(** ** [getLatestToken] *)

Lemma falsy_text_false (s : option string) :
  falsy_text s = false -> exists v, s = Some v /\ v <> "".
Proof.
  destruct s as [v |]; simpl; [| discriminate].
  intros H. exists v. split; [reflexivity |].
  intros ->. discriminate.
Qed.

Lemma getLatestToken_inv (w : world) (h : trace) d t :
  getLatestToken w h = (Normal d, t) ->
  t = [ESelectLatestToken (w_select_latest_token w h)]
  /\ error (w_select_latest_token w h) = None
  /\ data (w_select_latest_token w h) = Some d
  /\ exists a r,
       tok_access_token d = Some a /\ a <> ""
       /\ tok_refresh_token d = Some r /\ r <> "".
Proof.
  unfold getLatestToken, bind, select_latest_token. cbv zeta.
  destruct (error (w_select_latest_token w h)); [discriminate |].
  destruct (data (w_select_latest_token w h)) as [d' |]; [| discriminate].
  destruct (falsy_text (tok_access_token d')) eqn:Ea; [discriminate |].
  destruct (falsy_text (tok_refresh_token d')) eqn:Er; [discriminate |].
  cbn. intros Heq. injection Heq as <- <-.
  destruct (falsy_text_false _ Ea) as (a & Ha & Hane).
  destruct (falsy_text_false _ Er) as (r & Hr & Hrne).
  repeat split. exists a, r. repeat split; assumption.
Qed.

(** A credential that [getLatestToken] returns is the row the store
    answered with, and both its access token and its refresh token are
    non-empty strings; the store was read once and nothing else happened.
    An error of the store is thrown as it is. *)
Theorem getLatestToken_returns_complete_row (w : world) (h : trace) :
  (forall d t,
     getLatestToken w h = (Normal d, t) ->
     t = [ESelectLatestToken (w_select_latest_token w h)]
     /\ error (w_select_latest_token w h) = None
     /\ data (w_select_latest_token w h) = Some d
     /\ exists a r,
          tok_access_token d = Some a /\ a <> ""
          /\ tok_refresh_token d = Some r /\ r <> "")
  /\ (forall e,
        error (w_select_latest_token w h) = Some e ->
        getLatestToken w h = (Thrown e, [ESelectLatestToken (w_select_latest_token w h)])).
Proof.
  split.
  - intros d t. apply getLatestToken_inv.
  - intros e He. unfold getLatestToken, bind, select_latest_token. cbv zeta.
    rewrite He. reflexivity.
Qed.

(** ** [refreshToken] *)

Lemma store_refreshed_rejected rt (res : http_response) w h :
  ok res = false ->
  store_refreshed rt res w h =
    (Thrown (Error_ ("Refresh token failed: " +++ decimal (status res) +++ " "
                       +++ JSON_stringify (json_or_empty res))), []).
Proof. intros Hok. unfold store_refreshed. rewrite Hok. reflexivity. Qed.

(** Every way the handling of an OAuth answer can go: an exception before
    anything is written, or one credential write whose answer decides the
    outcome. *)
Lemma store_refreshed_cases rt (res : http_response) w h :
  let json := json_or_empty res in
  (exists e, store_refreshed rt res w h = (Thrown e, []))
  \/ (exists e, store_refreshed rt res w h = (Thrown e, [ENow (w_now w h)]))
  \/ (exists at_ nrt ein exp uid write ans,
        let stamp := w_now_iso w (h ++ [ENow (w_now w h)]) in
        let fields :=
          {| tw_user_id := uid;
             tw_access_token := at_;
             tw_refresh_token := nrt;
             tw_token_type := nullish (prop json "token_type") (VStr "Bearer");
             tw_scope := prop json "scope";
             tw_expires_at := exp;
             tw_updated_at := stamp |} in
        ok res = true
        /\ String_ (prop json "access_token") = Normal at_
        /\ String_ (nullish (prop json "refresh_token") (VStr rt)) = Normal nrt
        /\ Number_ (nullish (prop json "expires_in") (VNum (num_of_Z 21600))) = Normal ein
        /\ toISOString (num_add (w_now w h) (num_mul ein (num_of_Z 1000))) = Normal exp
        /\ ((truthy (prop json "user_id") = true
             /\ (exists u, String_ (prop json "user_id") = Normal u /\ uid = Some u)
             /\ write = EUpsertToken fields ans)
            \/ (truthy (prop json "user_id") = false
                /\ uid = None
                /\ write = EUpdateToken rt fields ans))
        /\ store_refreshed rt res w h =
             (match ans with
              | Some e => Thrown e
              | None => Normal {| access_token := at_; refresh_token := nrt;
                                  expires_at := exp |}
              end,
              [ENow (w_now w h); ENowISO stamp; write])).
Proof.
  intros json. unfold store_refreshed. fold json.
  destruct (ok res) eqn:Hok; cbn [negb]; [| left; eexists; reflexivity].
  unfold member. destruct (is_nullish json) eqn:Hnull.
  { left. eexists. reflexivity. }
  rewrite bind_lift_normal.
  destruct (String_ (prop json "access_token")) as [at_ | e] eqn:E1;
    [rewrite bind_lift_normal | left; eexists; reflexivity].
  destruct (String_ (nullish (prop json "refresh_token") (VStr rt))) as [nrt | e] eqn:E2;
    [rewrite bind_lift_normal | left; eexists; reflexivity].
  destruct (Number_ (nullish (prop json "expires_in") (VNum (num_of_Z 21600))))
    as [ein | e] eqn:E3;
    [rewrite bind_lift_normal | left; eexists; reflexivity].
  rewrite (bind_normal date_now _ w h (w_now w h) [ENow (w_now w h)] eq_refl).
  destruct (toISOString (num_add (w_now w h) (num_mul ein (num_of_Z 1000))))
    as [exp | e] eqn:E4;
    [rewrite bind_lift_normal | right; left; eexists; reflexivity].
  cbv zeta.
  destruct (truthy (prop json "user_id")) eqn:Ht.
  - destruct (String_ (prop json "user_id")) as [u | e] eqn:E5.
    + erewrite bind_normal by (rewrite bind_lift_normal; reflexivity).
      right; right.
      set (stamp := w_now_iso w (h ++ [ENow (w_now w h)])).
      set (fields := {| tw_user_id := Some u; tw_access_token := at_;
                        tw_refresh_token := nrt;
                        tw_token_type := nullish (prop json "token_type") (VStr "Bearer");
                        tw_scope := prop json "scope"; tw_expires_at := exp;
                        tw_updated_at := stamp |}).
      set (ans := w_upsert_token w ((h ++ [ENow (w_now w h)]) ++ [ENowISO stamp]) fields).
      exists at_, nrt, ein, exp, (Some u), (EUpsertToken fields ans), ans. cbv zeta.
      repeat (split; [eassumption || reflexivity |]).
      split.
      * left. split; [reflexivity |]. split; [exists u; split; reflexivity |]. reflexivity.
      * cbn [fst snd app]. destruct ans; reflexivity.
    + right; left. exists e.
      erewrite bind_thrown by (rewrite bind_lift_thrown; reflexivity).
      reflexivity.
  - erewrite bind_normal by reflexivity.
    right; right.
    set (stamp := w_now_iso w (h ++ [ENow (w_now w h)])).
    set (fields := {| tw_user_id := None; tw_access_token := at_;
                      tw_refresh_token := nrt;
                      tw_token_type := nullish (prop json "token_type") (VStr "Bearer");
                      tw_scope := prop json "scope"; tw_expires_at := exp;
                      tw_updated_at := stamp |}).
    set (ans := w_update_token w ((h ++ [ENow (w_now w h)]) ++ [ENowISO stamp]) rt fields).
    exists at_, nrt, ein, exp, None, (EUpdateToken rt fields ans), ans. cbv zeta.
    repeat (split; [eassumption || reflexivity |]).
    split.
    * right. split; [reflexivity |]. split; reflexivity.
    * cbn [fst snd app]. destruct ans; reflexivity.
Qed.

Lemma refreshToken_run rt w h :
  refreshToken rt w h =
  match w_fetch w h (oauth_request rt) with
  | Thrown e => (Thrown e, [EFetch (oauth_request rt) (Thrown e)])
  | Normal res =>
      (fst (store_refreshed rt res w (h ++ [EFetch (oauth_request rt) (Normal res)])),
       EFetch (oauth_request rt) (Normal res)
         :: snd (store_refreshed rt res w (h ++ [EFetch (oauth_request rt) (Normal res)])))
  end.
Proof.
  unfold refreshToken.
  destruct (w_fetch w h (oauth_request rt)) as [res | e] eqn:Ef.
  - rewrite (bind_normal _ _ w h res [EFetch (oauth_request rt) (Normal res)])
      by (unfold fetch; rewrite Ef; reflexivity).
    reflexivity.
  - apply bind_thrown. unfold fetch. rewrite Ef. reflexivity.
Qed.

(** When [refreshToken] returns, the OAuth endpoint answered with a
    success status and exactly one credential write was made, which the
    database accepted; that write carries the very access token, refresh
    token and expiry that are returned. *)
Theorem refresh_returns_what_it_stored (rt : string) (w : world) (h : trace)
    (r : refreshed) (t : trace) :
  refreshToken rt w h = (Normal r, t) ->
  exists res t0 stamp fields,
    w_fetch w h (oauth_request rt) = Normal res
    /\ ok res = true
    /\ tw_access_token fields = access_token r
    /\ tw_refresh_token fields = refresh_token r
    /\ tw_expires_at fields = expires_at r
    /\ (t = [EFetch (oauth_request rt) (Normal res); ENow t0; ENowISO stamp;
             EUpsertToken fields None]
        \/ t = [EFetch (oauth_request rt) (Normal res); ENow t0; ENowISO stamp;
                EUpdateToken rt fields None]).
Proof.
  rewrite refreshToken_run.
  destruct (w_fetch w h (oauth_request rt)) as [res | e]; [| discriminate].
  set (h1 := h ++ [EFetch (oauth_request rt) (Normal res)]).
  destruct (store_refreshed_cases rt res w h1)
    as [(e & ->) | [(e & ->) | (at_ & nrt & ein & exp & uid & write & ans & Hcase)]];
    try discriminate.
  cbv zeta in Hcase.
  destruct Hcase as (Hok & _ & _ & _ & _ & Hwrite & ->).
  destruct ans as [e |]; [discriminate |].
  cbn [fst snd]. intros Heq. injection Heq as <- <-.
  exists res, (w_now w h1), (w_now_iso w (h1 ++ [ENow (w_now w h1)])),
    {| tw_user_id := uid; tw_access_token := at_; tw_refresh_token := nrt;
       tw_token_type := nullish (prop (json_or_empty res) "token_type") (VStr "Bearer");
       tw_scope := prop (json_or_empty res) "scope"; tw_expires_at := exp;
       tw_updated_at := w_now_iso w (h1 ++ [ENow (w_now w h1)]) |}.
  split; [reflexivity |]. split; [exact Hok |].
  do 3 (split; [reflexivity |]).
  destruct Hwrite as [(_ & _ & ->) | (_ & _ & ->)]; [left | right]; reflexivity.
Qed.

(** The credential write of a refresh that returns is an upsert carrying
    the user id of the answer when the answer has a truthy [user_id], and
    otherwise an update of the rows whose refresh token is the one that
    was passed in, not the new one. *)
Theorem refresh_write_is_keyed_by_user_or_old_token (rt : string) (w : world)
    (h : trace) (res : http_response) (r : refreshed) (t : trace) :
  w_fetch w h (oauth_request rt) = Normal res ->
  refreshToken rt w h = (Normal r, t) ->
  (truthy (prop (json_or_empty res) "user_id") = true ->
   exists u fields,
     String_ (prop (json_or_empty res) "user_id") = Normal u
     /\ tw_user_id fields = Some u
     /\ filter is_token_write t = [EUpsertToken fields None])
  /\ (truthy (prop (json_or_empty res) "user_id") = false ->
      exists fields,
        tw_user_id fields = None
        /\ filter is_token_write t = [EUpdateToken rt fields None]).
Proof.
  intros Hres. rewrite refreshToken_run, Hres.
  set (h1 := h ++ [EFetch (oauth_request rt) (Normal res)]).
  destruct (store_refreshed_cases rt res w h1)
    as [(e & ->) | [(e & ->) | (at_ & nrt & ein & exp & uid & write & ans & Hcase)]];
    try discriminate.
  cbv zeta in Hcase.
  destruct Hcase as (_ & _ & _ & _ & _ & Hwrite & ->).
  destruct ans as [e |]; [discriminate |].
  cbn [fst snd]. intros Heq. injection Heq as <- <-.
  destruct Hwrite as [(Ht & (u & Hu & ->) & ->) | (Ht & -> & ->)]; split; intros Ht'.
  - exists u. eexists. split; [exact Hu |]. split; [| reflexivity]. reflexivity.
  - congruence.
  - congruence.
  - eexists. split; [| reflexivity]. reflexivity.
Qed.

(** When the OAuth answer has no [refresh_token] (or [null]), the refresh
    token that [refreshToken] returns is the one it was given; when it has
    one that is a string, that string is returned. *)
Theorem refresh_keeps_token_when_none_is_issued (rt : string) (w : world)
    (h : trace) (res : http_response) (r : refreshed) (t : trace) :
  w_fetch w h (oauth_request rt) = Normal res ->
  refreshToken rt w h = (Normal r, t) ->
  (is_nullish (prop (json_or_empty res) "refresh_token") = true ->
   refresh_token r = rt)
  /\ (forall s, prop (json_or_empty res) "refresh_token" = VStr s ->
                refresh_token r = s).
Proof.
  intros Hres. rewrite refreshToken_run, Hres.
  set (h1 := h ++ [EFetch (oauth_request rt) (Normal res)]).
  destruct (store_refreshed_cases rt res w h1)
    as [(e & ->) | [(e & ->) | (at_ & nrt & ein & exp & uid & write & ans & Hcase)]];
    try discriminate.
  cbv zeta in Hcase.
  destruct Hcase as (_ & _ & Hnrt & _ & _ & _ & ->).
  destruct ans as [e |]; [discriminate |].
  cbn [fst snd]. intros Heq. injection Heq as <- <-. cbn [refresh_token].
  split.
  - intros Hnull. unfold nullish in Hnrt. rewrite Hnull in Hnrt.
    simpl in Hnrt. congruence.
  - intros s Hs. rewrite Hs in Hnrt. simpl in Hnrt. congruence.
Qed.

(** A refresh that the OAuth endpoint answers with a non-success status
    throws "Refresh token failed: " followed by the status and the
    serialisation of the payload, which is the parsed body of the answer,
    or [{}] when the body is not JSON.  The request is its only
    interaction: it reads no clock and writes no credential. *)
Theorem refused_refresh_writes_nothing (rt : string) (w : world) (h : trace)
    (res : http_response) :
  w_fetch w h (oauth_request rt) = Normal res ->
  ok res = false ->
  let payload := match json res with Some v => v | None => VObj [] end in
  refreshToken rt w h =
    (Thrown (Error_ ("Refresh token failed: " +++ decimal (status res) +++ " "
                       +++ JSON_stringify payload)),
     [EFetch (oauth_request rt) (Normal res)]).
Proof.
  intros Hres Hok payload. rewrite refreshToken_run, Hres.
  rewrite (store_refreshed_rejected _ _ _ _ Hok). reflexivity.
Qed.

(** When the database refuses the credential write, [refreshToken] throws
    the error of the database, although the OAuth endpoint has issued the
    new pair. *)
Theorem refresh_fails_when_store_refuses (rt : string) (w : world) (h : trace)
    (c : completion refreshed) (t : trace) (e : js_error) :
  refreshToken rt w h = (c, t) ->
  (exists fields, In (EUpsertToken fields (Some e)) t)
  \/ (exists old fields, In (EUpdateToken old fields (Some e)) t) ->
  c = Thrown e
  /\ exists res, w_fetch w h (oauth_request rt) = Normal res /\ ok res = true.
Proof.
  rewrite refreshToken_run.
  destruct (w_fetch w h (oauth_request rt)) as [res | e0].
  - set (h1 := h ++ [EFetch (oauth_request rt) (Normal res)]).
    destruct (store_refreshed_cases rt res w h1)
      as [(e1 & ->) | [(e1 & ->) | (at_ & nrt & ein & exp & uid & write & ans & Hcase)]].
    + cbn [fst snd]. intros Heq. injection Heq as <- <-.
      intros [(f & [Hin | []]) | (o & f & [Hin | []])]; discriminate.
    + cbn [fst snd]. intros Heq. injection Heq as <- <-.
      intros [(f & [Hin | [Hin | []]]) | (o & f & [Hin | [Hin | []]])]; discriminate.
    + cbv zeta in Hcase. destruct Hcase as (Hok & _ & _ & _ & _ & Hwrite & ->).
      cbn [fst snd]. intros Heq. injection Heq as <- <-.
      intros Hin.
      assert (Hans : ans = Some e).
      { destruct Hwrite as [(_ & _ & ->) | (_ & _ & ->)];
          destruct Hin as [(f & Hin) | (o & f & Hin)];
          repeat (destruct Hin as [Hin | Hin]; [try discriminate |]);
          try contradiction; congruence. }
      rewrite Hans. split; [reflexivity |]. exists res. split; [reflexivity | exact Hok].
  - intros Heq. injection Heq as <- <-.
    intros [(f & [Hin | []]) | (o & f & [Hin | []])]; discriminate.
Qed.

Lemma refreshToken_writes_at_most_once rt w h :
  count is_token_write (snd (refreshToken rt w h)) <= 1.
Proof.
  rewrite refreshToken_run.
  destruct (w_fetch w h (oauth_request rt)) as [res | e]; [| cbn; lia].
  set (h1 := h ++ [EFetch (oauth_request rt) (Normal res)]).
  destruct (store_refreshed_cases rt res w h1)
    as [(e1 & ->) | [(e1 & ->) | (at_ & nrt & ein & exp & uid & write & ans & Hcase)]].
  - cbn. lia.
  - cbn. lia.
  - cbv zeta in Hcase. destruct Hcase as (_ & _ & _ & _ & _ & Hwrite & ->).
    cbn [snd]. rewrite !count_cons, count_nil. cbn [is_token_write].
    destruct (is_token_write write); lia.
Qed.

(** ** Settling a job, in full *)

(** The explicit form of lines 192-263. *)
Lemma settle_job_run site_id j (resMl : http_response) (st : loop_state) w h :
  settle_job site_id j resMl st w h =
  if negb (ok resMl) then
    (Normal (push st (http_failure j resMl)),
     snd (mark_error j (http_failure_message resMl) w h))
  else
    match extractItems (job_category_id j) (json_or_empty resMl) with
    | [] =>
        (Normal (push st (ResultOk (job_id j) (job_category_id j) 0
                            (if isSeller j then "seller" else "category_public"))),
         snd (mark_done j w h))
    | x :: items =>
        match cmap (normalize_item site_id j) (x :: items) with
        | Thrown e => (Thrown e, [])
        | Normal rows =>
            match w_upsert_items w h rows with
            | Some e =>
                (Normal (push st (ResultDbFailure (job_id j) (job_category_id j)
                                    (message e))),
                 EUpsertItems rows (Some e)
                   :: snd (mark_error j ("DB upsert error: " +++ message e) w
                             (h ++ [EUpsertItems rows (Some e)])))
            | None =>
                (Normal
                   (push {| accessToken := accessToken st;
                            refreshTok := refreshTok st;
                            results := results st;
                            processed := processed st;
                            inserted := inserted st + List.length rows |}
                      (ResultOk (job_id j) (job_category_id j)
                         (List.length (x :: items))
                         (if isSeller j then "seller" else "category_public"))),
                 EUpsertItems rows None
                   :: snd (mark_done j w (h ++ [EUpsertItems rows None])))
            end
        end
    end.
Proof.
  destruct (ok resMl) eqn:Hok; cbn [negb].
  - unfold settle_job. rewrite Hok. cbv zeta. cbn [negb].
    destruct (extractItems (job_category_id j) (json_or_empty resMl)) as [| x items].
    + unfold finish_job.
      rewrite (bind_then_ret _ _ w h tt _ (mark_done_run j w h)).
      rewrite mark_done_run. reflexivity.
    + destruct (cmap (normalize_item site_id j) (x :: items)) as [rows | e].
      * rewrite bind_lift_normal.
        destruct (w_upsert_items w h rows) as [e |] eqn:Eu.
        -- rewrite (bind_normal _ _ _ _ (Some e) [EUpsertItems rows (Some e)])
             by (unfold upsert_items; rewrite Eu; reflexivity).
           rewrite (bind_then_ret _ _ _ _ tt _ (mark_error_run j _ w _)).
           rewrite mark_error_run. reflexivity.
        -- rewrite (bind_normal _ _ _ _ None [EUpsertItems rows None])
             by (unfold upsert_items; rewrite Eu; reflexivity).
           unfold finish_job.
           rewrite (bind_then_ret _ _ _ _ tt _ (mark_done_run j w _)).
           rewrite mark_done_run. reflexivity.
      * reflexivity.
  - apply settle_job_not_ok. exact Hok.
Qed.

Lemma cmap_length {A B} (f : A -> completion B) (l : list A) (out : list B) :
  cmap f l = Normal out -> List.length out = List.length l.
Proof.
  revert out. induction l as [| x l IH]; intros out; simpl.
  - intros Heq. injection Heq as <-. reflexivity.
  - destruct (f x) as [y | e]; [| discriminate]. simpl.
    destruct (cmap f l) as [ys | e]; [| discriminate]. simpl.
    intros Heq. injection Heq as <-. simpl. rewrite (IH ys eq_refl). reflexivity.
Qed.

Lemma cmap_inv {A B} (f : A -> completion B) (l : list A) (out : list B) :
  cmap f l = Normal out -> Forall2 (fun x y => f x = Normal y) l out.
Proof.
  revert out. induction l as [| x l IH]; intros out; simpl.
  - intros Heq. injection Heq as <-. constructor.
  - destruct (f x) as [y | e] eqn:Ex; [| discriminate]. simpl.
    destruct (cmap f l) as [ys | e]; [| discriminate]. simpl.
    intros Heq. injection Heq as <-. constructor; [exact Ex | apply IH; reflexivity].
Qed.

Lemma normalize_item_inv site_id j (it : value) r :
  normalize_item site_id j it = Normal r ->
  row_raw r = it /\ row_job_id r = job_id j /\ row_site_id r = site_id
  /\ row_category_id r = job_category_id j.
Proof.
  unfold normalize_item.
  destruct (if typeof_is_string it then Normal it else member it "id") as [id_ | e];
    [| discriminate].
  simpl. destruct (String_ id_) as [s | e]; [| discriminate]. simpl.
  intros Heq. injection Heq as <-. repeat split.
Qed.

(** ** The rows of a listing *)

(** The rows upserted for a listing mirror it: there is one row for each
    item, in the order of the listing, each keeping its item in [raw] and
    carrying the id and the category of the job and the site of the
    invocation. *)
Theorem rows_mirror_the_listing (site_id : string) (j : job) (items : list value)
    (rows : list (row number)) :
  cmap (normalize_item site_id j) items = Normal rows ->
  map row_raw rows = items
  /\ List.length rows = List.length items
  /\ Forall (fun r => row_job_id r = job_id j
                      /\ row_site_id r = site_id
                      /\ row_category_id r = job_category_id j) rows.
Proof.
  intros Hmap. pose proof (cmap_length _ _ _ Hmap) as Hlen.
  apply cmap_inv in Hmap. split; [| split; [exact Hlen |]]; clear Hlen.
  - induction Hmap as [| x y l out Hxy _ IH]; [reflexivity |].
    simpl. apply normalize_item_inv in Hxy. destruct Hxy as (Hraw & _).
    rewrite Hraw, IH. reflexivity.
  - induction Hmap as [| x y l out Hxy _ IH]; [constructor |].
    constructor; [| exact IH].
    apply normalize_item_inv in Hxy. tauto.
Qed.

Lemma cmap_null_throws site_id j (items : list value) :
  In VNull items -> exists e, cmap (normalize_item site_id j) items = Thrown e.
Proof.
  induction items as [| x items IH]; [contradiction |].
  intros [-> | Hin].
  - eexists. reflexivity.
  - simpl. destruct (normalize_item site_id j x) as [y | e]; [| eexists; reflexivity].
    simpl. destruct (IH Hin) as (e & ->). eexists. reflexivity.
Qed.

(** One [null] anywhere in the listing of a successful response discards
    the whole listing: the settlement of the job throws before anything is
    upserted and before the job gets a final status. *)
Theorem null_item_discards_the_listing (site_id : string) (j : job)
    (resMl : http_response) (st : loop_state) (w : world) (h : trace) :
  ok resMl = true ->
  In VNull (extractItems (job_category_id j) (json_or_empty resMl)) ->
  exists e, settle_job site_id j resMl st w h = (Thrown e, []).
Proof.
  intros Hok Hin. rewrite settle_job_run, Hok. cbn [negb].
  destruct (extractItems (job_category_id j) (json_or_empty resMl)) as [| x items];
    [contradiction |].
  destruct (cmap_null_throws site_id j (x :: items) Hin) as (e & ->).
  exists e. reflexivity.
Qed.

(** ** The other ways a job ends *)

(** When the upsert of the rows of a job is refused by the database, the
    job is updated to status "error" with [last_error] "DB upsert error: "
    followed by the message of the database, the entry [{job_id,
    category, ok: false, db_error}] is appended to the results, [inserted]
    is left as it was, and the loop goes on with the remaining jobs. *)
Theorem listing_upsert_failure_is_isolated (site_id : string) (limit : number)
    (j : job) (rest : list job) (st : loop_state) (w : world) (h : trace)
    (res : http_response) (st2 : loop_state) (tf : trace)
    (x : value) (items : list value) (rows : list (row number)) (e : js_error) :
  let st1 := {| accessToken := accessToken st; refreshTok := refreshTok st;
                results := results st; processed := S (processed st);
                inserted := inserted st |} in
  let tm := snd (mark_processing j w h) in
  fetch_listing (isSeller j) (job_url site_id limit j) st1 w (h ++ tm)
    = (Normal (res, st2), tf) ->
  ok res = true ->
  extractItems (job_category_id j) (json_or_empty res) = x :: items ->
  cmap (normalize_item site_id j) (x :: items) = Normal rows ->
  w_upsert_items w ((h ++ tm) ++ tf) rows = Some e ->
  let refused := EUpsertItems rows (Some e) in
  let stamp := w_now_iso w (((h ++ tm) ++ tf) ++ [refused]) in
  let update :=
    {| upd_status := "error";
       upd_attempts := None;
       upd_updated_at := stamp;
       upd_last_error := Some ("DB upsert error: " +++ message e) |} in
  let te :=
    [refused; ENowISO stamp;
     EUpdateJob (job_id j) update
       (w_update_job w ((((h ++ tm) ++ tf) ++ [refused]) ++ [ENowISO stamp])
          (job_id j) update)] in
  let st3 :=
    {| accessToken := accessToken st2; refreshTok := refreshTok st2;
       results :=
         results st2
           ++ [ResultDbFailure (job_id j) (job_category_id j) (message e)];
       processed := processed st2; inserted := inserted st2 |} in
  process_job site_id limit j st w h = (Normal st3, tm ++ tf ++ te)
  /\ process_jobs site_id limit (j :: rest) st w h =
       (fst (process_jobs site_id limit rest st3 w (h ++ tm ++ tf ++ te)),
        (tm ++ tf ++ te)
          ++ snd (process_jobs site_id limit rest st3 w (h ++ tm ++ tf ++ te))).
Proof.
  intros st1 tm Hfetch Hok Hitems Hrows Hup refused stamp update te st3.
  assert (Hjob : process_job site_id limit j st w h = (Normal st3, tm ++ tf ++ te)).
  { rewrite process_job_run. fold st1 tm. rewrite Hfetch. cbn [fst snd].
    rewrite settle_job_run, Hok, Hitems, Hrows, Hup. cbn [negb fst snd].
    rewrite mark_error_run. reflexivity. }
  split; [exact Hjob |].
  apply process_jobs_cons. exact Hjob.
Qed.

(** When a successful response yields no item (an empty list, no list at
    all, or a body that is not JSON), no upsert is made: the job is
    updated to status "done" and a success entry with [items: 0] is
    appended, [inserted] being left as it was. *)
Theorem empty_listing_is_done_without_upsert (site_id : string) (limit : number)
    (j : job) (st : loop_state) (w : world) (h : trace)
    (res : http_response) (st2 : loop_state) (tf : trace) :
  let st1 := {| accessToken := accessToken st; refreshTok := refreshTok st;
                results := results st; processed := S (processed st);
                inserted := inserted st |} in
  let tm := snd (mark_processing j w h) in
  fetch_listing (isSeller j) (job_url site_id limit j) st1 w (h ++ tm)
    = (Normal (res, st2), tf) ->
  ok res = true ->
  json res = None
  \/ extractItems (job_category_id j) (json_or_empty res) = [] ->
  let stamp := w_now_iso w ((h ++ tm) ++ tf) in
  let update :=
    {| upd_status := "done"; upd_attempts := None;
       upd_updated_at := stamp; upd_last_error := None |} in
  let te :=
    [ENowISO stamp;
     EUpdateJob (job_id j) update
       (w_update_job w (((h ++ tm) ++ tf) ++ [ENowISO stamp]) (job_id j) update)] in
  let st3 :=
    {| accessToken := accessToken st2; refreshTok := refreshTok st2;
       results :=
         results st2
           ++ [ResultOk (job_id j) (job_category_id j) 0
                 (if isSeller j then "seller" else "category_public")];
       processed := processed st2; inserted := inserted st2 |} in
  process_job site_id limit j st w h = (Normal st3, tm ++ tf ++ te).
Proof.
  intros st1 tm Hfetch Hok Hempty stamp update te st3.
  assert (Hitems : extractItems (job_category_id j) (json_or_empty res) = []).
  { destruct Hempty as [Hnone | Hnil]; [| exact Hnil].
    unfold json_or_empty. rewrite Hnone. reflexivity. }
  rewrite process_job_run. fold st1 tm. rewrite Hfetch. cbn [fst snd].
  rewrite settle_job_run, Hok, Hitems. cbn [negb fst snd].
  rewrite mark_done_run. reflexivity.
Qed.

(** ** The counters and the results *)

Lemma fetch_listing_keeps_counters seller url (st : loop_state) w h res st2 tf :
  fetch_listing seller url st w h = (Normal (res, st2), tf) ->
  results st2 = results st /\ processed st2 = processed st
  /\ inserted st2 = inserted st.
Proof.
  rewrite fetch_listing_run.
  destruct (w_fetch w h (public_request url)) as [r0 | e]; [| discriminate].
  cbv zeta. destruct (seller && (status r0 =? 401)%Z).
  - destruct (refreshToken (refreshTok st) w
                (h ++ [EFetch (public_request url) (Normal r0)])) as [[r | e] tr];
      [| discriminate].
    destruct (w_fetch w ((h ++ [EFetch (public_request url) (Normal r0)]) ++ tr)
                (private_request url (access_token r))) as [r1 | e]; [| discriminate].
    intros Heq. injection Heq as <- <- <-. repeat split.
  - intros Heq. injection Heq as <- <- <-. repeat split.
Qed.

Lemma settle_job_accounts site_id j (res : http_response) (st st' : loop_state) w h t :
  settle_job site_id j res st w h = (Normal st', t) ->
  processed st' = processed st
  /\ exists entry,
       results st' = results st ++ [entry]
       /\ entry_job_id entry = job_id j
       /\ inserted st' = inserted st + entry_items entry.
Proof.
  rewrite settle_job_run.
  destruct (negb (ok res)).
  { intros Heq. injection Heq as <- <-. split; [reflexivity |].
    eexists. repeat split. simpl. lia. }
  destruct (extractItems (job_category_id j) (json_or_empty res)) as [| x items].
  { intros Heq. injection Heq as <- <-. split; [reflexivity |].
    eexists. repeat split. simpl. lia. }
  destruct (cmap (normalize_item site_id j) (x :: items)) as [rows | e] eqn:Ec;
    [| discriminate].
  pose proof (cmap_length _ _ _ Ec) as Hlen.
  destruct (w_upsert_items w h rows) as [e |].
  - intros Heq. injection Heq as <- <-. split; [reflexivity |].
    eexists. repeat split. simpl. lia.
  - intros Heq. injection Heq as <- <-. split; [reflexivity |].
    eexists. split; [reflexivity |]. split; [reflexivity |].
    cbn [push inserted entry_items]. rewrite Hlen. reflexivity.
Qed.

Lemma process_job_accounts site_id limit j (st st' : loop_state) w h t :
  process_job site_id limit j st w h = (Normal st', t) ->
  processed st' = S (processed st)
  /\ exists entry,
       results st' = results st ++ [entry]
       /\ entry_job_id entry = job_id j
       /\ inserted st' = inserted st + entry_items entry.
Proof.
  rewrite process_job_run.
  destruct (fetch_listing (isSeller j) (job_url site_id limit j)
              {| accessToken := accessToken st; refreshTok := refreshTok st;
                 results := results st; processed := S (processed st);
                 inserted := inserted st |} w (h ++ snd (mark_processing j w h)))
    as [[[res st2] | e] tf] eqn:Ef; [| discriminate].
  apply fetch_listing_keeps_counters in Ef. cbn [results processed inserted] in Ef.
  destruct Ef as (Hr & Hp & Hi). cbn [fst snd].
  destruct (settle_job site_id j res st2 w
              ((h ++ snd (mark_processing j w h)) ++ tf)) as [[st3 | e] ts] eqn:Es;
    [| discriminate].
  apply settle_job_accounts in Es. destruct Es as (Hp' & entry & Hr' & Hid & Hi').
  cbn [fst snd]. intros Heq. injection Heq as <- <-.
  split; [congruence |]. exists entry. repeat split; congruence.
Qed.

Lemma process_jobs_accounts site_id limit jobs (st st' : loop_state) w h t :
  process_jobs site_id limit jobs st w h = (Normal st', t) ->
  processed st' = processed st + List.length jobs
  /\ exists entries,
       results st' = results st ++ entries
       /\ map entry_job_id entries = map job_id jobs
       /\ inserted st' = inserted st + list_sum (map entry_items entries).
Proof.
  revert st st' h t. induction jobs as [| j rest IH]; intros st st' h t.
  - simpl. intros Heq. injection Heq as <- <-. split; [lia |].
    exists []. rewrite app_nil_r. repeat split. simpl. lia.
  - destruct (process_job site_id limit j st w h) as [[st1 | e] t1] eqn:Ej.
    + rewrite (process_jobs_cons _ _ _ _ _ _ _ _ _ Ej).
      apply process_job_accounts in Ej. destruct Ej as (Hp & entry & Hr & Hid & Hi).
      destruct (process_jobs site_id limit rest st1 w (h ++ t1)) as [[st2 | e] t2] eqn:Er;
        [| discriminate].
      apply IH in Er. destruct Er as (Hp' & entries & Hr' & Hids & Hi').
      cbn [fst snd]. intros Heq. injection Heq as <- <-.
      split; [simpl; lia |].
      exists (entry :: entries). repeat split.
      * rewrite Hr', Hr, <- app_assoc. reflexivity.
      * simpl. rewrite Hid, Hids. reflexivity.
      * simpl. lia.
    + rewrite (process_jobs_abort _ _ _ _ _ _ _ _ _ Ej). discriminate.
Qed.

(** ** The summary of an invocation *)

Lemma resolve_tokens_inv req w h (ts : string * loop_state) tt :
  resolve_tokens req w h = (Normal ts, tt) ->
  exists tok,
    getLatestToken w h = (Normal tok, tt)
    /\ results (snd ts) = [] /\ processed (snd ts) = 0 /\ inserted (snd ts) = 0
    /\ refreshTok (snd ts) = String_text (tok_refresh_token tok)
    /\ fst ts = (if (incomingBearer req =? "")%string then "db" else "header")
    /\ accessToken (snd ts)
       = (if (incomingBearer req =? "")%string
          then String_text (tok_access_token tok)
          else if startsWith (toLowerCase (incomingBearer req)) "bearer "
               then trim (slice 7 (incomingBearer req))
               else incomingBearer req).
Proof.
  unfold resolve_tokens. cbv zeta.
  destruct (incomingBearer req =? "")%string; cbn [negb]; intros Hrun;
    apply bind_inv in Hrun; destruct Hrun as (tok & t1 & t2 & Hg & Hret & ->);
    unfold ret in Hret; injection Hret as <- <-; exists tok;
    rewrite app_nil_r; repeat split; exact Hg.
Qed.

(** What a summary reply tells about the run. *)
Lemma handler_summary_inv req w h site_id batch limit s site' p i src len rs t :
  method req = "POST" ->
  resolve_site_id (body_or_empty req) = Normal site_id ->
  resolve_batch (body_or_empty req) = Normal batch ->
  resolve_limit (body_or_empty req) = Normal limit ->
  handler req w h =
    (Normal {| reply_status := s;
               reply_body_of := BodySummary site' p i src len rs |}, t) ->
  let asked := ESelectJobs site_id batch (w_select_jobs w h site_id batch) in
  exists jobs ts tt stf tp,
    data (w_select_jobs w h site_id batch) = Some jobs
    /\ resolve_tokens req w (h ++ [asked]) = (Normal ts, tt)
    /\ process_jobs site_id limit jobs (snd ts) w ((h ++ [asked]) ++ tt)
       = (Normal stf, tp)
    /\ t = asked :: tt ++ tp
    /\ s = 200%Z /\ site' = site_id /\ p = processed stf /\ i = inserted stf
    /\ src = fst ts /\ len = String.length (accessToken stf) /\ rs = results stf.
Proof.
  intros Hm Hs Hb Hl. unfold handler. rewrite Hm, Hs, Hb, Hl.
  simpl negb. cbv iota zeta.
  set (asked := ESelectJobs site_id batch (w_select_jobs w h site_id batch)).
  destruct (handler_try req site_id batch limit w h) as [[r | e] t0] eqn:Hrun;
    [| discriminate].
  intros Heq. injection Heq as -> ->.
  unfold handler_try in Hrun.
  rewrite (bind_normal _ _ w h (w_select_jobs w h site_id batch) [asked]) in Hrun
    by reflexivity.
  destruct (error (w_select_jobs w h site_id batch)); [discriminate |].
  destruct (data (w_select_jobs w h site_id batch)) as [[| j jobs] |];
    try discriminate.
  destruct (resolve_tokens req w (h ++ [asked])) as [[ts | e] tt] eqn:Et.
  - rewrite (bind_normal _ _ _ _ _ _ Et) in Hrun.
    destruct (process_jobs site_id limit (j :: jobs) (snd ts) w ((h ++ [asked]) ++ tt))
      as [[stf | e] tp] eqn:Ep.
    + rewrite (bind_normal _ _ _ _ _ _ Ep) in Hrun. cbn [fst snd ret] in Hrun.
      injection Hrun as <- <- <- <- <- <- <- <-.
      exists (j :: jobs), ts, tt, stf, tp. rewrite app_nil_r.
      repeat split; assumption.
    + rewrite (bind_thrown _ _ _ _ _ _ Ep) in Hrun. discriminate.
  - rewrite (bind_thrown _ _ _ _ _ _ Et) in Hrun. discriminate.
Qed.

(** When an invocation ends with a summary, the summary accounts for the
    whole batch: [processed] is the number of jobs the query returned,
    [results] holds one entry per job, in the order of the batch, and
    [inserted] is the sum of the [items] counts of the success entries. *)
Theorem summary_accounts_for_the_batch (req : request) (w : world) (h : trace)
    (site_id : string) (batch limit : number) (jobs : list job)
    (s : Z) (site' : string) (p i : nat) (src : string) (len : nat)
    (rs : list result_entry) (t : trace) :
  method req = "POST" ->
  resolve_site_id (body_or_empty req) = Normal site_id ->
  resolve_batch (body_or_empty req) = Normal batch ->
  resolve_limit (body_or_empty req) = Normal limit ->
  data (w_select_jobs w h site_id batch) = Some jobs ->
  handler req w h =
    (Normal {| reply_status := s;
               reply_body_of := BodySummary site' p i src len rs |}, t) ->
  s = 200%Z /\ site' = site_id
  /\ p = List.length jobs
  /\ map entry_job_id rs = map job_id jobs
  /\ i = list_sum (map entry_items rs).
Proof.
  intros Hm Hs Hb Hl Hjobs Hrun.
  destruct (handler_summary_inv _ _ _ _ _ _ _ _ _ _ _ _ _ _ Hm Hs Hb Hl Hrun)
    as (jobs' & ts & tt & stf & tp & Hjobs' & Htok & Hloop & _ & -> & -> & -> & ->
        & _ & _ & ->).
  assert (jobs' = jobs) by congruence. subst jobs'.
  apply resolve_tokens_inv in Htok.
  destruct Htok as (tok & _ & Hr0 & Hp0 & Hi0 & _).
  apply process_jobs_accounts in Hloop.
  destruct Hloop as (Hp & entries & Hr & Hids & Hi).
  rewrite Hr0 in Hr. rewrite Hp0 in Hp. rewrite Hi0 in Hi. simpl in Hr, Hp, Hi.
  rewrite Hr. repeat split; assumption.
Qed.

Lemma status_after_accepted (t : trace) (id : Z) (s : string) :
  updates_accepted t -> status_after t id s = last_status (status_updates t) id s.
Proof.
  revert s. induction t as [| e t IH]; intros s Hacc; [reflexivity |].
  assert (Hrest : updates_accepted t).
  { intros id' u r Hin. apply (Hacc id' u r). right. exact Hin. }
  destruct e as [| | id' u r | | | | | |];
    cbn [status_after status_updates last_status]; try (apply IH; exact Hrest).
  rewrite (Hacc id' u r (or_introl eq_refl)). apply IH. exact Hrest.
Qed.

Lemma last_status_finalized (settled : list (job * string)) (id : Z) (s : string) :
  Forall (fun p => is_final (snd p)) settled ->
  In id (map (fun p => job_id (fst p)) settled) \/ is_final s ->
  is_final (last_status (finalized settled) id s).
Proof.
  revert s. induction settled as [| [j f] rest IH]; intros s Hall Hin.
  - destruct Hin as [[] | Hs]. exact Hs.
  - inversion Hall as [| x l Hf Hrest]; subst. cbn [fst snd] in Hf.
    change (finalized ((j, f) :: rest))
      with ((job_id j, "processing") :: (job_id j, f) :: finalized rest).
    cbn [last_status]. apply IH; [exact Hrest |].
    destruct (job_id j =? id)%Z eqn:Eid.
    + right. exact Hf.
    + destruct Hin as [[Hid | Hin] | Hs].
      * cbn [fst] in Hid. apply Z.eqb_neq in Eid. contradiction.
      * left. exact Hin.
      * right. exact Hs.
Qed.

Lemma combine_final (jobs : list job) (finals : list string) :
  Forall is_final finals ->
  Forall (fun p : job * string => is_final (snd p)) (combine jobs finals).
Proof.
  intros Hall. revert jobs. induction Hall as [| f finals Hf _ IH]; intros jobs.
  - destruct jobs; constructor.
  - destruct jobs as [| j jobs]; constructor; [exact Hf | apply IH].
Qed.

Lemma combine_ids (jobs : list job) (finals : list string) (j : job) :
  List.length finals = List.length jobs ->
  In j jobs ->
  In (job_id j) (map (fun p : job * string => job_id (fst p)) (combine jobs finals)).
Proof.
  revert finals. induction jobs as [| j0 jobs IH]; intros finals Hlen Hin;
    [contradiction |].
  destruct finals as [| f finals]; [discriminate |].
  injection Hlen as Hlen. destruct Hin as [-> | Hin].
  - left. reflexivity.
  - right. apply IH; assumption.
Qed.

(** When an invocation ends with a summary, every job of the batch was
    sent its claim and then a final status, in the order of the batch,
    and no other update of a job was sent.  The handler does not look at
    the outcome of these updates: it is when the database accepted them
    all that no job of the batch is left in status "processing". *)
Theorem summary_means_every_job_is_final (req : request) (w : world) (h : trace)
    (site_id : string) (batch limit : number) (jobs : list job)
    (s : Z) (site' : string) (p i : nat) (src : string) (len : nat)
    (rs : list result_entry) (t : trace) :
  method req = "POST" ->
  resolve_site_id (body_or_empty req) = Normal site_id ->
  resolve_batch (body_or_empty req) = Normal batch ->
  resolve_limit (body_or_empty req) = Normal limit ->
  data (w_select_jobs w h site_id batch) = Some jobs ->
  handler req w h =
    (Normal {| reply_status := s;
               reply_body_of := BodySummary site' p i src len rs |}, t) ->
  (exists finals,
     List.length finals = List.length jobs
     /\ Forall is_final finals
     /\ status_updates t = finalized (combine jobs finals))
  /\ ((forall id u r, In (EUpdateJob id u r) t -> r = None) ->
      forall j before,
        In j jobs -> is_final (status_after t (job_id j) before)).
Proof.
  intros Hm Hs Hb Hl Hjobs Hrun.
  destruct (handler_summary_inv _ _ _ _ _ _ _ _ _ _ _ _ _ _ Hm Hs Hb Hl Hrun)
    as (jobs' & ts & tt & stf & tp & Hjobs' & Htok & Hloop & -> & _).
  assert (jobs' = jobs) by congruence. subst jobs'.
  pose proof (resolve_tokens_silent is_job_update req (fun _ => eq_refl) w
                (h ++ [ESelectJobs site_id batch (w_select_jobs w h site_id batch)]))
    as Hquiet.
  rewrite Htok in Hquiet. cbn [snd] in Hquiet.
  pose proof (process_jobs_updates site_id limit jobs (snd ts) w
                ((h ++ [ESelectJobs site_id batch (w_select_jobs w h site_id batch)])
                   ++ tt)) as Hup.
  rewrite Hloop in Hup. cbn [fst snd] in Hup.
  destruct Hup as (finals & Hlen & Hall & Hup).
  assert (Hsent : status_updates
                    (ESelectJobs site_id batch (w_select_jobs w h site_id batch)
                       :: tt ++ tp)
                  = finalized (combine jobs finals)).
  { cbn [status_updates]. rewrite status_updates_app, (no_job_update _ Hquiet), Hup.
    reflexivity. }
  split.
  - exists finals. split; [exact Hlen |]. split; [exact Hall | exact Hsent].
  - intros Hacc j before Hin.
    rewrite (status_after_accepted _ _ _ Hacc), Hsent.
    apply last_status_finalized; [apply combine_final; exact Hall |].
    left. apply combine_ids; assumption.
Qed.

Lemma process_jobs_keep_token site_id limit jobs (st st' : loop_state) w h t :
  process_jobs site_id limit jobs st w h = (Normal st', t) ->
  count is_seller_401 t = 0 ->
  accessToken st' = accessToken st /\ refreshTok st' = refreshTok st.
Proof.
  revert st st' h t. induction jobs as [| j rest IH]; intros st st' h t.
  - simpl. intros Heq. injection Heq as <- <-. split; reflexivity.
  - destruct (process_job site_id limit j st w h) as [[st1 | e] t1] eqn:Ej.
    + rewrite (process_jobs_cons _ _ _ _ _ _ _ _ _ Ej).
      destruct (process_jobs site_id limit rest st1 w (h ++ t1)) as [[st2 | e] t2] eqn:Er;
        [| discriminate].
      cbn [fst snd]. intros Heq. injection Heq as <- <-.
      rewrite count_app. intros Hzero.
      assert (H1 : count is_seller_401 t1 = 0) by lia.
      assert (H2 : count is_seller_401 t2 = 0) by lia.
      apply process_job_pair in Ej. rewrite H1 in Ej.
      destruct (IH _ _ _ _ Er H2) as (Ha & Hr). destruct Ej as (Ha' & Hr').
      split; congruence.
    + rewrite (process_jobs_abort _ _ _ _ _ _ _ _ _ Ej). discriminate.
Qed.

(** The [token_source] of a summary is "header" exactly when the request
    carries a non-blank [authorization] (or [Authorization]) header, and
    "db" otherwise; and when no seller job was answered 401, [token_len]
    is the length of the access token the invocation started with: the
    header value without its "bearer " prefix, or the stored token. *)
Theorem summary_names_the_token_source (req : request) (w : world) (h : trace)
    (site_id : string) (batch limit : number)
    (s : Z) (site' : string) (p i : nat) (src : string) (len : nat)
    (rs : list result_entry) (t : trace) :
  method req = "POST" ->
  resolve_site_id (body_or_empty req) = Normal site_id ->
  resolve_batch (body_or_empty req) = Normal batch ->
  resolve_limit (body_or_empty req) = Normal limit ->
  handler req w h =
    (Normal {| reply_status := s;
               reply_body_of := BodySummary site' p i src len rs |}, t) ->
  src = (if (incomingBearer req =? "")%string then "db" else "header")
  /\ (count is_seller_401 t = 0 ->
      exists tok,
        data (w_select_latest_token w
                (h ++ [ESelectJobs site_id batch (w_select_jobs w h site_id batch)]))
        = Some tok
        /\ len = String.length
                   (if (incomingBearer req =? "")%string
                    then String_text (tok_access_token tok)
                    else if startsWith (toLowerCase (incomingBearer req)) "bearer "
                         then trim (slice 7 (incomingBearer req))
                         else incomingBearer req)).
Proof.
  intros Hm Hs Hb Hl Hrun.
  destruct (handler_summary_inv _ _ _ _ _ _ _ _ _ _ _ _ _ _ Hm Hs Hb Hl Hrun)
    as (jobs & ts & tt & stf & tp & _ & Htok & Hloop & -> & _ & _ & _ & _
        & -> & -> & _).
  apply resolve_tokens_inv in Htok.
  destruct Htok as (tok & Hget & _ & _ & _ & _ & Hsrc & Hacc).
  split; [exact Hsrc |].
  intros Hzero. exists tok.
  destruct (getLatestToken_inv _ _ _ _ Hget) as (-> & _ & Hdata & _).
  split; [exact Hdata |].
  rewrite count_cons, count_app in Hzero. cbn [count] in Hzero.
  assert (Hz : count is_seller_401 tp = 0) by lia.
  destruct (process_jobs_keep_token _ _ _ _ _ _ _ _ Hloop Hz) as (Ha & _).
  rewrite Ha, Hacc. reflexivity.
Qed.

(** ** What a batch costs *)

Lemma count_zero_of_implies (p q : event -> bool) (t : trace) :
  (forall e, p e = true -> q e = true) -> count q t = 0 -> count p t = 0.
Proof.
  intros Hpq. induction t as [| e t IH]; [reflexivity |].
  rewrite !count_cons. destruct (q e) eqn:Eq; [discriminate |].
  intros Ht. simpl in Ht. rewrite (IH Ht).
  destruct (p e) eqn:Ep; [| reflexivity].
  apply Hpq in Ep. congruence.
Qed.

Lemma claim_is_job_update (e : event) : is_claim e = true -> is_job_update e = true.
Proof. destruct e; simpl; congruence. Qed.

Lemma settle_job_no_claim site_id j (res : http_response) (st : loop_state) w h :
  count is_claim (snd (settle_job site_id j res st w h)) = 0.
Proof.
  rewrite settle_job_run.
  destruct (negb (ok res)); [rewrite mark_error_run; reflexivity |].
  destruct (extractItems (job_category_id j) (json_or_empty res)) as [| x items];
    [rewrite mark_done_run; reflexivity |].
  destruct (cmap (normalize_item site_id j) (x :: items)) as [rows | e];
    [| reflexivity].
  destruct (w_upsert_items w h rows);
    [rewrite mark_error_run | rewrite mark_done_run]; reflexivity.
Qed.

(** The interactions of one turn of the loop. *)
Lemma process_job_budget site_id limit j (st : loop_state) w h :
  let t := snd (process_job site_id limit j st w h) in
  count is_claim t = 1
  /\ count is_public_fetch t = 1
  /\ count is_refresh t <= 1
  /\ count is_private_fetch t <= count is_refresh t
  /\ count is_token_write t <= count is_refresh t
  /\ count is_fetch t = count is_public_fetch t + count is_refresh t
                        + count is_private_fetch t.
Proof.
  cbv zeta.
  pose proof (mark_processing_silent is_public_fetch j avoids_settlement_public w h) as Hm1.
  pose proof (mark_processing_silent is_refresh j avoids_settlement_refresh w h) as Hm2.
  pose proof (mark_processing_silent is_private_fetch j avoids_settlement_private w h) as Hm3.
  pose proof (mark_processing_silent is_token_write j avoids_settlement_token_write w h)
    as Hm4.
  pose proof (mark_processing_silent is_fetch j avoids_settlement_fetch w h) as Hm5.
  assert (Hm6 : count is_claim (snd (mark_processing j w h)) = 1)
    by (rewrite mark_processing_run; reflexivity).
  rewrite process_job_run, fetch_listing_run.
  set (st1 := {| accessToken := accessToken st; refreshTok := refreshTok st;
                 results := results st; processed := S (processed st);
                 inserted := inserted st |}).
  remember (snd (mark_processing j w h)) as tm eqn:Etm.
  set (url := job_url site_id limit j).
  assert (Hpub : forall a : completion http_response,
            is_refresh (EFetch (public_request url) a) = false).
  { intros a. apply job_url_not_oauth. }
  assert (Hsettle : forall res (s : loop_state) hh,
            count is_claim (snd (settle_job site_id j res s w hh)) = 0
            /\ count is_public_fetch (snd (settle_job site_id j res s w hh)) = 0
            /\ count is_refresh (snd (settle_job site_id j res s w hh)) = 0
            /\ count is_private_fetch (snd (settle_job site_id j res s w hh)) = 0
            /\ count is_token_write (snd (settle_job site_id j res s w hh)) = 0
            /\ count is_fetch (snd (settle_job site_id j res s w hh)) = 0).
  { intros res s hh. split; [apply settle_job_no_claim |].
    split; [apply settle_job_silent, avoids_settlement_public |].
    split; [apply settle_job_silent, avoids_settlement_refresh |].
    split; [apply settle_job_silent, avoids_settlement_private |].
    split; [apply settle_job_silent, avoids_settlement_token_write |].
    apply settle_job_silent, avoids_settlement_fetch. }
  destruct (w_fetch w (h ++ tm) (public_request url)) as [res | e].
  - cbv zeta. destruct (isSeller j && (status res =? 401)%Z).
    + set (h2 := (h ++ tm) ++ [EFetch (public_request url) (Normal res)]).
      destruct (refreshToken_counts (refreshTok st1) w h2)
        as (Hr1 & Hr2 & Hr3 & _ & Hr5 & Hr6).
      pose proof (refreshToken_writes_at_most_once (refreshTok st1) w h2) as Hr7.
      pose proof (count_zero_of_implies is_claim is_job_update _ claim_is_job_update Hr5)
        as Hr8.
      destruct (refreshToken (refreshTok st1) w h2) as [[r | e] tr];
        cbn [snd] in Hr1, Hr2, Hr3, Hr6, Hr7, Hr8.
      * assert (Hretry : forall a : completion http_response,
                  is_refresh (EFetch (private_request url (access_token r)) a) = false).
        { intros a. apply job_url_not_oauth. }
        destruct (w_fetch w (h2 ++ tr) (private_request url (access_token r)))
          as [res' | e']; cbn [fst snd].
        -- destruct (Hsettle res'
                       {| accessToken := access_token r; refreshTok := refresh_token r;
                          results := results st1; processed := processed st1;
                          inserted := inserted st1 |}
                       ((h ++ tm) ++ EFetch (public_request url) (Normal res)
                          :: tr ++ [EFetch (private_request url (access_token r))
                                      (Normal res')]))
             as (S1 & S2 & S3 & S4 & S5 & S6).
           rewrite !count_app, !count_cons, !count_app, !count_cons, !count_nil.
           rewrite Hm1, Hm2, Hm3, Hm4, Hm5, Hm6, Hr1, Hr2, Hr3, Hr6, Hr8, Hpub, Hretry.
           rewrite S1, S2, S3, S4, S5, S6.
           cbn [is_claim is_public_fetch is_private_fetch is_token_write is_fetch
                  public_request private_request rq_method rq_headers has_header
                  existsb fst String.eqb Ascii.eqb Bool.eqb andb orb negb].
           repeat split; lia.
        -- rewrite !count_app, !count_cons, !count_app, !count_cons, !count_nil.
           rewrite Hm1, Hm2, Hm3, Hm4, Hm5, Hm6, Hr1, Hr2, Hr3, Hr6, Hr8, Hpub, Hretry.
           cbn [is_claim is_public_fetch is_private_fetch is_token_write is_fetch
                  public_request private_request rq_method rq_headers has_header
                  existsb fst String.eqb Ascii.eqb Bool.eqb andb orb negb].
           repeat split; lia.
      * cbn [fst snd].
        rewrite !count_app, !count_cons.
        rewrite Hm1, Hm2, Hm3, Hm4, Hm5, Hm6, Hr1, Hr2, Hr3, Hr6, Hr8, Hpub.
        cbn [is_claim is_public_fetch is_private_fetch is_token_write is_fetch
               public_request private_request rq_method rq_headers has_header
               existsb fst String.eqb Ascii.eqb Bool.eqb andb orb negb].
        repeat split; lia.
    + cbn [fst snd].
      destruct (Hsettle res st1 ((h ++ tm) ++ [EFetch (public_request url) (Normal res)]))
        as (S1 & S2 & S3 & S4 & S5 & S6).
      rewrite !count_app, !count_cons, !count_nil.
      rewrite Hm1, Hm2, Hm3, Hm4, Hm5, Hm6, Hpub, S1, S2, S3, S4, S5, S6.
      cbn [is_claim is_public_fetch is_private_fetch is_token_write is_fetch
             public_request private_request rq_method rq_headers has_header
             existsb fst String.eqb Ascii.eqb Bool.eqb andb orb negb].
      repeat split; lia.
  - cbn [fst snd].
    rewrite !count_app, !count_cons, !count_nil.
    rewrite Hm1, Hm2, Hm3, Hm4, Hm5, Hm6, Hpub.
    cbn [is_claim is_public_fetch is_private_fetch is_token_write is_fetch
           public_request private_request rq_method rq_headers has_header
           existsb fst String.eqb Ascii.eqb Bool.eqb andb orb negb].
    repeat split; lia.
Qed.

(** A batch of [n] jobs claims at most [n] jobs; each claimed job is
    fetched anonymously once; the OAuth endpoint is called at most once
    per claimed job, an authenticated fetch is made only after such a
    call and a credential is written only after such a call: at most
    three HTTP requests per job. *)
Theorem batch_stays_within_its_budget (site_id : string) (limit : number)
    (jobs : list job) (st : loop_state) (w : world) (h : trace) :
  let t := snd (process_jobs site_id limit jobs st w h) in
  count is_claim t <= List.length jobs
  /\ count is_public_fetch t = count is_claim t
  /\ count is_refresh t <= count is_public_fetch t
  /\ count is_private_fetch t <= count is_refresh t
  /\ count is_token_write t <= count is_refresh t
  /\ count is_fetch t <= 3 * List.length jobs.
Proof.
  cbv zeta. revert st h. induction jobs as [| j rest IH]; intros st h.
  - cbn [process_jobs ret snd List.length]. rewrite !count_nil. repeat split; lia.
  - pose proof (process_job_budget site_id limit j st w h) as Hj. cbv zeta in Hj.
    destruct (process_job site_id limit j st w h) as [[st' | e] t] eqn:Ej;
      cbn [snd] in Hj; destruct Hj as (J1 & J2 & J3 & J4 & J5 & J6).
    + rewrite (process_jobs_cons _ _ _ _ _ _ _ _ _ Ej). cbn [snd].
      destruct (IH st' (h ++ t)) as (I1 & I2 & I3 & I4 & I5 & I6).
      rewrite !count_app. cbn [List.length]. repeat split; lia.
    + rewrite (process_jobs_abort _ _ _ _ _ _ _ _ _ Ej). cbn [snd List.length].
      repeat split; lia.
Qed.

(** ** Which jobs are updated *)

Lemma in_finalized (settled : list (job * string)) (id : Z) (s : string) :
  In (id, s) (finalized settled) ->
  exists j f, In (j, f) settled /\ id = job_id j /\ (s = "processing" \/ s = f).
Proof.
  induction settled as [| [j f] settled IH]; [contradiction |].
  simpl. intros [Heq | [Heq | Hin]].
  - injection Heq as <- <-. exists j, f. split; [left; reflexivity |]. split; [reflexivity |].
    left. reflexivity.
  - injection Heq as <- <-. exists j, f. split; [left; reflexivity |]. split; [reflexivity |].
    right. reflexivity.
  - destruct (IH Hin) as (j' & f' & Hin' & Hid & Hs).
    exists j', f'. split; [right; exact Hin' |]. split; assumption.
Qed.

(** The loop updates no job but those of its batch, and gives a job no
    status but "processing", "done" and "error". *)
Theorem only_jobs_of_the_batch_are_updated (site_id : string) (limit : number)
    (jobs : list job) (st : loop_state) (w : world) (h : trace)
    (id : Z) (s : string) :
  In (id, s) (status_updates (snd (process_jobs site_id limit jobs st w h))) ->
  In id (map job_id jobs) /\ (s = "processing" \/ s = "done" \/ s = "error").
Proof.
  pose proof (process_jobs_updates site_id limit jobs st w h) as Hup.
  destruct (fst (process_jobs site_id limit jobs st w h)).
  - destruct Hup as (finals & Hlen & Hall & ->). intros Hin.
    apply in_finalized in Hin. destruct Hin as (j & f & Hin & -> & Hs).
    split.
    + apply in_map. apply in_combine_l in Hin. exact Hin.
    + destruct Hs as [-> | ->]; [left; reflexivity |].
      apply in_combine_r in Hin. rewrite Forall_forall in Hall.
      right. apply Hall. exact Hin.
  - destruct Hup as (pre & j0 & post & finals & -> & Hlen & Hall & ->). intros Hin.
    apply in_app_or in Hin. destruct Hin as [Hin | [Heq | []]].
    + apply in_finalized in Hin. destruct Hin as (j & f & Hin & -> & Hs).
      split.
      * apply in_map. apply in_or_app. left. apply in_combine_l in Hin. exact Hin.
      * destruct Hs as [-> | ->]; [left; reflexivity |].
        apply in_combine_r in Hin. rewrite Forall_forall in Hall.
        right. apply Hall. exact Hin.
    + injection Heq as <- <-. split; [| left; reflexivity].
      apply in_map. apply in_or_app. right. left. reflexivity.
Qed.

(** ** The access token in hand *)

Lemma settle_job_ignores_state site_id j (res : http_response) (a b : loop_state) w h :
  same_but_access a b ->
  snd (settle_job site_id j res a w h) = snd (settle_job site_id j res b w h)
  /\ match fst (settle_job site_id j res a w h),
           fst (settle_job site_id j res b w h) with
     | Normal a', Normal b' => same_but_access a' b'
     | Thrown e, Thrown e' => e = e'
     | _, _ => False
     end.
Proof.
  intros (Hr & Hres & Hp & Hi). rewrite !settle_job_run.
  destruct (negb (ok res)).
  { split; [reflexivity |]. cbn [fst]. unfold same_but_access, push. simpl.
    rewrite Hr, Hres, Hp, Hi. repeat split. }
  destruct (extractItems (job_category_id j) (json_or_empty res)) as [| x items].
  { split; [reflexivity |]. cbn [fst]. unfold same_but_access, push. simpl.
    rewrite Hr, Hres, Hp, Hi. repeat split. }
  destruct (cmap (normalize_item site_id j) (x :: items)) as [rows | e].
  - destruct (w_upsert_items w h rows); (split; [reflexivity |]); cbn [fst];
      unfold same_but_access, push; simpl; rewrite Hr, Hres, Hp, Hi; repeat split.
  - split; reflexivity.
Qed.

Lemma process_job_ignores_access_token site_id limit j (a b : loop_state) w h :
  same_but_access a b ->
  snd (process_job site_id limit j a w h) = snd (process_job site_id limit j b w h)
  /\ match fst (process_job site_id limit j a w h),
           fst (process_job site_id limit j b w h) with
     | Normal a', Normal b' => same_but_access a' b'
     | Thrown e, Thrown e' => e = e'
     | _, _ => False
     end.
Proof.
  intros (Hr & Hres & Hp & Hi). rewrite !process_job_run, !fetch_listing_run.
  cbn [refreshTok results processed inserted]. rewrite <- Hr, <- Hres, <- Hp, <- Hi.
  remember (snd (mark_processing j w h)) as tm eqn:Etm.
  set (url := job_url site_id limit j).
  destruct (w_fetch w (h ++ tm) (public_request url)) as [res | e];
    [| split; reflexivity].
  cbv zeta. destruct (isSeller j && (status res =? 401)%Z).
  - destruct (refreshToken (refreshTok a) w
                ((h ++ tm) ++ [EFetch (public_request url) (Normal res)]))
      as [[r | e] tr]; [| split; reflexivity].
    destruct (w_fetch w (((h ++ tm) ++ [EFetch (public_request url) (Normal res)]) ++ tr)
                (private_request url (access_token r))) as [res' | e'];
      [| split; reflexivity].
    cbn [fst snd].
    match goal with
    | |- context [settle_job site_id j res' ?x w ?hh] =>
        destruct (settle_job_ignores_state site_id j res' x x w hh) as (Ht & Hc);
          [repeat split |]
    end.
    split; [reflexivity |]. exact Hc.
  - cbn [fst snd].
    destruct (settle_job_ignores_state site_id j res
                {| accessToken := accessToken a; refreshTok := refreshTok a;
                   results := results a; processed := S (processed a);
                   inserted := inserted a |}
                {| accessToken := accessToken b; refreshTok := refreshTok a;
                   results := results a; processed := S (processed a);
                   inserted := inserted a |} w
                ((h ++ tm) ++ [EFetch (public_request url) (Normal res)]))
      as (Ht & Hc); [repeat split |].
    rewrite Ht. split; [reflexivity |]. exact Hc.
Qed.

(** The access token the loop starts with, taken from the request header
    or from the store, is never sent: two runs of the loop that differ
    only in that token have the same interactions with the outside
    world. *)
Theorem access_token_in_hand_is_never_sent (site_id : string) (limit : number)
    (jobs : list job) (a b : loop_state) (w : world) (h : trace) :
  same_but_access a b ->
  snd (process_jobs site_id limit jobs a w h)
  = snd (process_jobs site_id limit jobs b w h).
Proof.
  revert a b h. induction jobs as [| j rest IH]; intros a b h Hab; [reflexivity |].
  destruct (process_job_ignores_access_token site_id limit j a b w h Hab) as (Ht & Hc).
  destruct (process_job site_id limit j a w h) as [[a' | e] ta] eqn:Ea;
    destruct (process_job site_id limit j b w h) as [[b' | e'] tb] eqn:Eb;
    cbn [fst snd] in Ht, Hc; try contradiction; subst tb.
  - rewrite (process_jobs_cons _ _ _ _ _ _ _ _ _ Ea),
      (process_jobs_cons _ _ _ _ _ _ _ _ _ Eb). cbn [snd].
    rewrite (IH a' b' (h ++ ta) Hc). reflexivity.
  - rewrite (process_jobs_abort _ _ _ _ _ _ _ _ _ Ea),
      (process_jobs_abort _ _ _ _ _ _ _ _ _ Eb). reflexivity.
Qed.

(** ** The two reads of an invocation *)

Lemma silent_fetch (p : event -> bool) rq :
  (forall q r, p (EFetch q r) = false) -> silent p (fetch rq).
Proof. intros H w h. unfold fetch. simpl. rewrite count_cons, H. reflexivity. Qed.

Lemma process_job_silent (p : event -> bool) site_id limit j (st : loop_state) :
  avoids_loop p -> silent p (process_job site_id limit j st).
Proof.
  intros (Hs & Hb & Hf). unfold process_job. cbv zeta.
  apply silent_bind; [apply mark_processing_silent, Hs |]. intros _.
  apply silent_bind; [| intros rs; apply settle_job_silent, Hs].
  unfold fetch_listing, mlGetPublic, mlGetPrivate.
  apply silent_bind; [apply silent_fetch, Hf |]. intros res.
  destruct (isSeller j && (status res =? 401)%Z); [| apply silent_ret].
  apply silent_bind.
  - unfold refreshToken. apply silent_bind; [apply silent_fetch, Hf |].
    intros r. apply store_refreshed_silent, Hb.
  - intros r. cbv zeta. apply silent_bind; [apply silent_fetch, Hf |].
    intros res'. apply silent_ret.
Qed.

Lemma process_jobs_silent (p : event -> bool) site_id limit jobs (st : loop_state) :
  avoids_loop p -> silent p (process_jobs site_id limit jobs st).
Proof.
  intros Hp. revert st. induction jobs as [| j rest IH]; intros st.
  - apply silent_ret.
  - simpl. apply silent_bind; [apply process_job_silent, Hp | intros st'; apply IH].
Qed.

Lemma avoids_loop_jobs_read : avoids_loop (@is_jobs_read number).
Proof. repeat split. Qed.

Lemma avoids_loop_token_read : avoids_loop (@is_token_read number).
Proof. repeat split. Qed.

Lemma getLatestToken_reads_once (w : world) (h : trace) :
  count is_token_read (snd (getLatestToken w h)) = 1
  /\ count is_jobs_read (snd (getLatestToken w h)) = 0.
Proof.
  unfold getLatestToken, bind, select_latest_token. cbv zeta.
  destruct (error (w_select_latest_token w h)); [split; reflexivity |].
  destruct (data (w_select_latest_token w h)) as [d |]; [| split; reflexivity].
  destruct (falsy_text (tok_access_token d) || falsy_text (tok_refresh_token d));
    split; reflexivity.
Qed.

Lemma resolve_tokens_reads_once req (w : world) (h : trace) :
  count is_token_read (snd (resolve_tokens req w h)) = 1
  /\ count is_jobs_read (snd (resolve_tokens req w h)) = 0.
Proof.
  destruct (getLatestToken_reads_once w h) as (H1 & H0).
  unfold resolve_tokens. cbv zeta.
  destruct (negb (incomingBearer req =? "")%string);
    rewrite bind_snd, !count_app, H1, H0;
    destruct (fst (getLatestToken w h)); split; reflexivity.
Qed.

(** An invocation reads the queue at most once and the credential store
    at most once, the latter only when the former was read: the credential
    is not read again for each job, nor after a refresh. *)
Theorem stores_are_read_at_most_once (req : request) (w : world) (h : trace) :
  let t := snd (handler req w h) in
  count is_jobs_read t <= 1
  /\ count is_token_read t <= count is_jobs_read t.
Proof.
  cbv zeta. unfold handler.
  destruct (negb (method req =? "POST")%string); [cbn; split; lia |].
  destruct (resolve_site_id (body_or_empty req)) as [site_id | e];
    [| cbn; split; lia].
  destruct (resolve_batch (body_or_empty req)) as [batch | e];
    [| cbn; split; lia].
  destruct (resolve_limit (body_or_empty req)) as [limit | e];
    [| cbn; split; lia].
  assert (Htry : let t := snd (handler_try req site_id batch limit w h) in
                 count is_jobs_read t <= 1
                 /\ count is_token_read t <= count is_jobs_read t).
  { cbv zeta. unfold handler_try. rewrite bind_snd.
    unfold select_jobs at 1 2 3 4 5 6 7 8 9. cbn [fst snd].
    rewrite !count_app, !count_cons, !count_nil.
    cbn [is_jobs_read is_token_read Nat.add].
    set (asked := ESelectJobs site_id batch (w_select_jobs w h site_id batch)).
    destruct (error (w_select_jobs w h site_id batch)); [cbn; split; lia |].
    destruct (data (w_select_jobs w h site_id batch)) as [[| j jobs] |];
      try (cbn; split; lia).
    rewrite bind_snd, !count_app.
    destruct (resolve_tokens_reads_once req w (h ++ [asked])) as (H1 & H0).
    rewrite H1, H0.
    destruct (fst (resolve_tokens req w (h ++ [asked]))) as [ts | e];
      [| cbn; split; lia].
    rewrite bind_snd, !count_app.
    rewrite (process_jobs_silent is_jobs_read _ _ _ _ avoids_loop_jobs_read).
    rewrite (process_jobs_silent is_token_read _ _ _ _ avoids_loop_token_read).
    destruct (fst (process_jobs site_id limit (j :: jobs) (snd ts) w
                     ((h ++ [asked]) ++ snd (resolve_tokens req w (h ++ [asked])))));
      cbn [snd ret]; rewrite ?count_nil; split; lia. }
  cbv zeta in Htry.
  destruct (handler_try req site_id batch limit w h) as [[r | e] t]; exact Htry.
Qed.

(** ** The start of an invocation *)

(** When the query on the queue fails, the invocation replies status 500
    with the message of the database error as it is (an empty message
    stays empty: the fallback of the [catch] clause does not apply), and
    the query is its only interaction: no credential is read, no job is
    touched. *)
Theorem queue_failure_is_reported_as_it_is (req : request) (w : world) (h : trace)
    (site_id : string) (batch limit : number) (e : js_error) :
  method req = "POST" ->
  resolve_site_id (body_or_empty req) = Normal site_id ->
  resolve_batch (body_or_empty req) = Normal batch ->
  resolve_limit (body_or_empty req) = Normal limit ->
  error (w_select_jobs w h site_id batch) = Some e ->
  handler req w h =
    (Normal {| reply_status := 500; reply_body_of := BodyFailure (message e) |},
     [ESelectJobs site_id batch (w_select_jobs w h site_id batch)]).
Proof.
  intros Hm Hs Hb Hl Herr. unfold handler. rewrite Hm, Hs, Hb, Hl.
  simpl negb. cbv iota.
  unfold handler_try.
  rewrite (bind_normal _ _ w h (w_select_jobs w h site_id batch)
             [ESelectJobs site_id batch (w_select_jobs w h site_id batch)])
    by reflexivity.
  rewrite Herr. reflexivity.
Qed.

(** A request whose body is absent, or is any falsy value, is served with
    the defaults: site "MLC", a batch of 5 jobs and a limit of 50 items,
    and these are what the query on the queue is made with. *)
Theorem request_without_body_gets_the_defaults (req : request) (w : world)
    (h : trace) :
  method req = "POST" ->
  truthy (body req) = false ->
  resolve_site_id (body_or_empty req) = Normal "MLC"
  /\ resolve_batch (body_or_empty req) = Normal (num_of_Z 5)
  /\ resolve_limit (body_or_empty req) = Normal (num_of_Z 50)
  /\ exists t,
       snd (handler req w h)
       = ESelectJobs "MLC" (num_of_Z 5) (w_select_jobs w h "MLC" (num_of_Z 5)) :: t.
Proof.
  intros Hm Hfalsy.
  assert (Hbody : body_or_empty req = VObj []).
  { unfold body_or_empty. rewrite Hfalsy. reflexivity. }
  rewrite Hbody. repeat split.
  unfold handler. rewrite Hm, Hbody. simpl negb. cbv iota.
  change (resolve_site_id (VObj [])) with (@Normal string "MLC").
  change (resolve_batch (VObj [])) with (Normal (num_of_Z 5)).
  change (resolve_limit (VObj [])) with (Normal (num_of_Z 50)).
  cbv iota.
  assert (Htry : exists t,
            snd (handler_try req "MLC" (num_of_Z 5) (num_of_Z 50) w h)
            = ESelectJobs "MLC" (num_of_Z 5) (w_select_jobs w h "MLC" (num_of_Z 5)) :: t).
  { unfold handler_try. rewrite bind_snd. eexists. reflexivity. }
  destruct Htry as (t & Ht).
  destruct (handler_try req "MLC" (num_of_Z 5) (num_of_Z 50) w h) as [[r | e] t'];
    exists t; exact Ht.
Qed.

(** ** The URL of a seller job *)

Lemma prefix_split (p s : string) :
  prefix p s = true -> s = p +++ slice (String.length p) s.
Proof.
  revert s. induction p as [| c p IH]; intros s.
  - intros _. reflexivity.
  - destruct s as [| d s]; simpl; [intros Hp; discriminate Hp |].
    destruct (ascii_dec c d) as [-> | _]; [| intros Hp; discriminate Hp].
    intros Hp. rewrite <- (IH s Hp). reflexivity.
Qed.

Lemma slice_append (p s : string) : slice (String.length p) (p +++ s) = s.
Proof. induction p as [| c p IH]; simpl; [destruct s; reflexivity | exact IH]. Qed.

(** A job is a seller job exactly when its [category_id] is "SELLER:"
    followed by some text; its URL is then the items search of the user
    whose id is that text, trimmed and percent-encoded, whatever the site
    of the invocation is. Only the leading marker is removed. *)
Theorem seller_url_is_built_from_the_marker (site_id : string) (limit : number)
    (j : job) :
  (isSeller j = true <-> exists tail, job_category_id j = "SELLER:" +++ tail)
  /\ (forall tail,
        job_category_id j = "SELLER:" +++ tail ->
        job_url site_id limit j
        = "https://api.mercadolibre.com/users/"
            +++ encodeURIComponent (trim tail)
            +++ "/items/search?limit=" +++ encodeURIComponent (num_to_String limit)).
Proof.
  assert (Hmark : forall tail, job_category_id j = "SELLER:" +++ tail -> isSeller j = true).
  { intros tail Hcat. unfold isSeller, startsWith. rewrite Hcat. apply prefix_append. }
  split.
  - split.
    + intros Hseller. exists (slice 7 (job_category_id j)).
      apply (prefix_split "SELLER:" _ Hseller).
    + intros (tail & Hcat). exact (Hmark tail Hcat).
  - intros tail Hcat. unfold job_url. rewrite (Hmark tail Hcat), Hcat.
    assert (Hrep : replace "SELLER:" "" ("SELLER:" +++ tail) = tail).
    { change ("SELLER:" +++ tail)
        with (String "S" (String "E" (String "L" (String "L" (String "E"
               (String "R" (String ":" tail))))))).
      unfold replace.
      change (String "S" (String "E" (String "L" (String "L" (String "E"
                (String "R" (String ":" tail)))))))
        with ("SELLER:" +++ tail).
      rewrite prefix_append. apply (slice_append "SELLER:" tail). }
    rewrite Hrep. reflexivity.
Qed.

(** ** What is written to a job, and what is sent *)

Lemma count_zero_in (p : event -> bool) (t : trace) (e : event) :
  count p t = 0 -> In e t -> p e = false.
Proof.
  induction t as [| x t IH]; [contradiction |].
  rewrite count_cons. intros Hzero [-> | Hin].
  - destruct (p e); [discriminate | reflexivity].
  - apply IH; [destruct (p x); [discriminate | exact Hzero] | exact Hin].
Qed.

(** The three updates a job can get. *)
Lemma process_job_writes site_id limit j (st : loop_state) w h id u r :
  In (EUpdateJob id u r) (snd (process_job site_id limit j st w h)) ->
  id = job_id j
  /\ ((upd_status u = "processing"
       /\ upd_attempts u
          = Some (num_add (match job_attempts j with
                           | Some a => a
                           | None => num_of_Z 0
                           end) (num_of_Z 1))
       /\ upd_last_error u = None)
      \/ (upd_status u = "done" /\ upd_attempts u = None /\ upd_last_error u = None)
      \/ (upd_status u = "error" /\ upd_attempts u = None
          /\ exists msg, upd_last_error u = Some msg)).
Proof.
  rewrite process_job_run.
  set (st1 := {| accessToken := accessToken st; refreshTok := refreshTok st;
                 results := results st; processed := S (processed st);
                 inserted := inserted st |}).
  pose proof (fetch_listing_no_job_update (isSeller j) (job_url site_id limit j) st1 w
                (h ++ snd (mark_processing j w h))) as Hf.
  assert (Hclaim : In (EUpdateJob id u r) (snd (mark_processing j w h)) ->
            id = job_id j
            /\ upd_status u = "processing"
            /\ upd_attempts u
               = Some (num_add (match job_attempts j with
                                | Some a => a
                                | None => num_of_Z 0
                                end) (num_of_Z 1))
            /\ upd_last_error u = None).
  { rewrite mark_processing_run. intros [Heq | [Heq | []]]; [discriminate |].
    injection Heq as <- <- _. repeat split. }
  assert (Hsettle : forall res (s : loop_state) hh,
            In (EUpdateJob id u r) (snd (settle_job site_id j res s w hh)) ->
            id = job_id j
            /\ ((upd_status u = "done" /\ upd_attempts u = None
                 /\ upd_last_error u = None)
                \/ (upd_status u = "error" /\ upd_attempts u = None
                    /\ exists msg, upd_last_error u = Some msg))).
  { intros res s hh. rewrite settle_job_run.
    assert (Herr : forall msg h',
              In (EUpdateJob id u r) (snd (mark_error j msg w h')) ->
              id = job_id j
              /\ ((upd_status u = "done" /\ upd_attempts u = None
                   /\ upd_last_error u = None)
                  \/ (upd_status u = "error" /\ upd_attempts u = None
                      /\ exists m, upd_last_error u = Some m))).
    { intros msg h'. rewrite mark_error_run. intros [Heq | [Heq | []]]; [discriminate |].
      injection Heq as <- <- _. split; [reflexivity |]. right.
      repeat split. exists msg. reflexivity. }
    assert (Hdone : forall h',
              In (EUpdateJob id u r) (snd (mark_done j w h')) ->
              id = job_id j
              /\ ((upd_status u = "done" /\ upd_attempts u = None
                   /\ upd_last_error u = None)
                  \/ (upd_status u = "error" /\ upd_attempts u = None
                      /\ exists m, upd_last_error u = Some m))).
    { intros h'. rewrite mark_done_run. intros [Heq | [Heq | []]]; [discriminate |].
      injection Heq as <- <- _. split; [reflexivity |]. left. repeat split. }
    destruct (negb (ok res)); [apply Herr |].
    destruct (extractItems (job_category_id j) (json_or_empty res)) as [| x items];
      [apply Hdone |].
    destruct (cmap (normalize_item site_id j) (x :: items)) as [rows | e];
      [| intros []].
    destruct (w_upsert_items w hh rows); cbn [snd];
      (intros [Heq | Hin]; [discriminate |]); [eapply Herr | eapply Hdone]; exact Hin. }
  destruct (fetch_listing (isSeller j) (job_url site_id limit j) st1 w
              (h ++ snd (mark_processing j w h))) as [[rs | e] tf];
    cbn [fst snd] in *; intros Hin; apply in_app_or in Hin.
  - destruct Hin as [Hin | Hin].
    + destruct (Hclaim Hin) as (Hid & Hu). split; [exact Hid |]. left. exact Hu.
    + apply in_app_or in Hin. destruct Hin as [Hin | Hin].
      * apply (count_zero_in _ _ _ Hf) in Hin. discriminate.
      * destruct (Hsettle _ _ _ Hin) as (Hid & Hu). split; [exact Hid |].
        right. exact Hu.
  - destruct Hin as [Hin | Hin].
    + destruct (Hclaim Hin) as (Hid & Hu). split; [exact Hid |]. left. exact Hu.
    + apply (count_zero_in _ _ _ Hf) in Hin. discriminate.
Qed.

(** Every update of a job made by the loop concerns a job of the batch
    and is one of three: the claim, which sets [attempts] to the sum, as
    JavaScript adds numbers, of 1 and what the query returned (of 1 and 0
    when it was [null]) and clears [last_error]; "done", which clears
    [last_error] and leaves [attempts] alone; or "error", which records a
    message and leaves [attempts] alone. *)
Theorem job_updates_are_claim_done_or_error (site_id : string) (limit : number)
    (jobs : list job) (st : loop_state) (w : world) (h : trace)
    (id : Z) (u : job_update) (r : option js_error) :
  In (EUpdateJob id u r) (snd (process_jobs site_id limit jobs st w h)) ->
  exists j,
    In j jobs /\ id = job_id j
    /\ ((upd_status u = "processing"
         /\ upd_attempts u
            = Some (num_add (match job_attempts j with
                             | Some a => a
                             | None => num_of_Z 0
                             end) (num_of_Z 1))
         /\ upd_last_error u = None)
        \/ (upd_status u = "done" /\ upd_attempts u = None /\ upd_last_error u = None)
        \/ (upd_status u = "error" /\ upd_attempts u = None
            /\ exists msg, upd_last_error u = Some msg)).
Proof.
  revert st h. induction jobs as [| j rest IH]; intros st h; [intros [] |].
  destruct (process_job site_id limit j st w h) as [[st' | e] t] eqn:Ej.
  - rewrite (process_jobs_cons _ _ _ _ _ _ _ _ _ Ej). cbn [snd]. intros Hin.
    apply in_app_or in Hin. destruct Hin as [Hin | Hin].
    + pose proof (process_job_writes site_id limit j st w h id u r) as Hw.
      rewrite Ej in Hw. destruct (Hw Hin) as (Hid & Hu).
      exists j. split; [left; reflexivity |]. split; assumption.
    + destruct (IH _ _ Hin) as (j' & Hj' & Hid & Hu).
      exists j'. split; [right; exact Hj' |]. split; assumption.
  - rewrite (process_jobs_abort _ _ _ _ _ _ _ _ _ Ej). cbn [snd]. intros Hin.
    pose proof (process_job_writes site_id limit j st w h id u r) as Hw.
    rewrite Ej in Hw. destruct (Hw Hin) as (Hid & Hu).
    exists j. split; [left; reflexivity |]. split; assumption.
Qed.

(** The requests of one turn of the loop. *)
Lemma process_job_requests site_id limit j (st : loop_state) w h rq r :
  In (EFetch rq r) (snd (process_job site_id limit j st w h)) ->
  rq = public_request (job_url site_id limit j)
  \/ (exists token, rq = private_request (job_url site_id limit j) token)
  \/ (exists rt, rq = oauth_request rt).
Proof.
  pose proof (mark_processing_silent is_fetch j avoids_settlement_fetch w h) as Hm.
  rewrite process_job_run, fetch_listing_run.
  set (st1 := {| accessToken := accessToken st; refreshTok := refreshTok st;
                 results := results st; processed := S (processed st);
                 inserted := inserted st |}).
  remember (snd (mark_processing j w h)) as tm eqn:Etm.
  set (url := job_url site_id limit j).
  assert (Hsettle : forall res (s : loop_state) hh,
            ~ In (EFetch rq r) (snd (settle_job site_id j res s w hh))).
  { intros res s hh Hin.
    apply (count_zero_in is_fetch) in Hin; [discriminate |].
    apply settle_job_silent, avoids_settlement_fetch. }
  assert (Hmark : ~ In (EFetch rq r) tm).
  { intros Hin. apply (count_zero_in is_fetch _ _ Hm) in Hin. discriminate. }
  assert (Hrefresh : forall rt hh,
            In (EFetch rq r) (snd (refreshToken rt w hh)) -> rq = oauth_request rt).
  { intros rt hh. destruct (refreshToken_log rt w hh) as (tail & -> & Hf & _).
    intros [Heq | Hin].
    - injection Heq as <- _. reflexivity.
    - apply (count_zero_in is_fetch _ _ Hf) in Hin. discriminate. }
  destruct (w_fetch w (h ++ tm) (public_request url)) as [res | e].
  - cbv zeta. destruct (isSeller j && (status res =? 401)%Z).
    + pose proof (Hrefresh (refreshTok st1)
                    ((h ++ tm) ++ [EFetch (public_request url) (Normal res)])) as Hr.
      destruct (refreshToken (refreshTok st1) w
                  ((h ++ tm) ++ [EFetch (public_request url) (Normal res)]))
        as [[rr | e] tr]; cbn [snd] in Hr.
      * destruct (w_fetch w (((h ++ tm) ++ [EFetch (public_request url) (Normal res)])
                               ++ tr)
                    (private_request url (access_token rr))) as [res' | e'];
          cbn [fst snd]; intros Hin; apply in_app_or in Hin;
          destruct Hin as [Hin | Hin]; try contradiction.
        -- apply in_app_or in Hin. destruct Hin as [Hin | Hin];
             [| exfalso; exact (Hsettle _ _ _ Hin)].
           destruct Hin as [Heq | Hin]; [injection Heq as <- _; left; reflexivity |].
           apply in_app_or in Hin. destruct Hin as [Hin | [Heq | []]].
           ++ right; right. exists (refreshTok st1). exact (Hr Hin).
           ++ injection Heq as <- _. right; left. eexists. reflexivity.
        -- destruct Hin as [Heq | Hin]; [injection Heq as <- _; left; reflexivity |].
           apply in_app_or in Hin. destruct Hin as [Hin | [Heq | []]].
           ++ right; right. exists (refreshTok st1). exact (Hr Hin).
           ++ injection Heq as <- _. right; left. eexists. reflexivity.
      * cbn [fst snd]. intros Hin. apply in_app_or in Hin.
        destruct Hin as [Hin | [Heq | Hin]]; try contradiction.
        -- injection Heq as <- _. left. reflexivity.
        -- right; right. exists (refreshTok st1). exact (Hr Hin).
    + cbn [fst snd]. intros Hin. apply in_app_or in Hin.
      destruct Hin as [Hin | Hin]; try contradiction.
      apply in_app_or in Hin. destruct Hin as [[Heq | []] | Hin];
        [| exfalso; exact (Hsettle _ _ _ Hin)].
      injection Heq as <- _. left. reflexivity.
  - cbn [fst snd]. intros Hin. apply in_app_or in Hin.
    destruct Hin as [Hin | [Heq | []]]; try contradiction.
    injection Heq as <- _. left. reflexivity.
Qed.

(** Every request the loop sends is either a [GET] of the search URL of a
    job of the batch, with an empty body and the headers [Accept:
    application/json] and [User-Agent: KelokeTrendsBot/1.0], or the [POST]
    of the refresh grant to the OAuth endpoint, the only request that
    carries the client secret (and one that carries no [User-Agent]). *)
Theorem requests_are_searches_or_the_refresh_grant (site_id : string)
    (limit : number) (jobs : list job) (st : loop_state) (w : world) (h : trace)
    (rq : fetch_request) (r : completion http_response) :
  In (EFetch rq r) (snd (process_jobs site_id limit jobs st w h)) ->
  (exists j,
     In j jobs
     /\ rq_url rq = job_url site_id limit j
     /\ rq_url rq <> oauth_url
     /\ rq_method rq = "GET"
     /\ rq_body rq = []
     /\ header "Accept" (rq_headers rq) = Some "application/json"
     /\ header "User-Agent" (rq_headers rq) = Some "KelokeTrendsBot/1.0")
  \/ (exists rt,
        rq = oauth_request rt
        /\ rq_url rq = oauth_url
        /\ rq_method rq = "POST"
        /\ header "client_secret" (rq_body rq) = Some ML_CLIENT_SECRET
        /\ header "User-Agent" (rq_headers rq) = None).
Proof.
  assert (Hjob : forall j st0 h0,
            In (EFetch rq r) (snd (process_job site_id limit j st0 w h0)) ->
            (rq_url rq = job_url site_id limit j
             /\ rq_url rq <> oauth_url
             /\ rq_method rq = "GET"
             /\ rq_body rq = []
             /\ header "Accept" (rq_headers rq) = Some "application/json"
             /\ header "User-Agent" (rq_headers rq) = Some "KelokeTrendsBot/1.0")
            \/ (exists rt,
                  rq = oauth_request rt
                  /\ rq_url rq = oauth_url
                  /\ rq_method rq = "POST"
                  /\ header "client_secret" (rq_body rq) = Some ML_CLIENT_SECRET
                  /\ header "User-Agent" (rq_headers rq) = None)).
  { intros j st0 h0 Hin.
    assert (Hne : job_url site_id limit j <> oauth_url).
    { intros Heq. pose proof (job_url_not_oauth site_id limit j) as Hb.
      rewrite Heq in Hb. discriminate. }
    destruct (process_job_requests _ _ _ _ _ _ _ _ Hin)
      as [-> | [(token & ->) | (rt & ->)]].
    - left. repeat split. exact Hne.
    - left. repeat split. exact Hne.
    - right. exists rt. repeat split. }
  revert st h. induction jobs as [| j rest IH]; intros st h; [intros [] |].
  destruct (process_job site_id limit j st w h) as [[st' | e] t] eqn:Ej.
  - rewrite (process_jobs_cons _ _ _ _ _ _ _ _ _ Ej). cbn [snd]. intros Hin.
    apply in_app_or in Hin. destruct Hin as [Hin | Hin].
    + pose proof (Hjob j st h) as Hw. rewrite Ej in Hw.
      destruct (Hw Hin) as [Hget | Hpost]; [left | right; exact Hpost].
      exists j. split; [left; reflexivity | exact Hget].
    + destruct (IH _ _ Hin) as [(j' & Hj' & Hget) | Hpost]; [left | right; exact Hpost].
      exists j'. split; [right; exact Hj' | exact Hget].
  - rewrite (process_jobs_abort _ _ _ _ _ _ _ _ _ Ej). cbn [snd]. intros Hin.
    pose proof (Hjob j st h) as Hw. rewrite Ej in Hw.
    destruct (Hw Hin) as [Hget | Hpost]; [left | right; exact Hpost].
    exists j. split; [left; reflexivity | exact Hget].
Qed.

End Further.

(** * The further properties at work *)

Section FurtherRuns.

Import Concrete Scenario Cases.

Local Abbreviation value := (value num).
Local Abbreviation job := (job num).
Local Abbreviation job_update := (job_update num).
Local Abbreviation trace := (trace num).

Lemma getLatestToken_returns_complete_row_witness :
  getLatestToken category_world []
    = (Normal stored_token, [ESelectLatestToken (w_select_latest_token category_world [])])
  /\ exists a r,
       tok_access_token stored_token = Some a /\ a <> ""
       /\ tok_refresh_token stored_token = Some r /\ r <> "".
Proof.
  split; [reflexivity |].
  destruct (proj1 (getLatestToken_returns_complete_row category_world [])
              stored_token _ eq_refl) as (_ & _ & _ & Hpair).
  exact Hpair.
Defined.

Lemma refresh_returns_what_it_stored_witness :
  let r := {| access_token := "A1"; refresh_token := "R1";
              expires_at := "1970-01-01T06:00:01.000Z" |} in
  let t := snd (refreshToken "R0" seller_world []) in
  refreshToken "R0" seller_world [] = (Normal r, t)
  /\ exists res t0 stamp fields,
       w_fetch seller_world [] (oauth_request "R0") = Normal res
       /\ ok res = true
       /\ tw_access_token fields = "A1"
       /\ tw_refresh_token fields = "R1"
       /\ tw_expires_at fields = "1970-01-01T06:00:01.000Z"
       /\ (t = [EFetch (oauth_request "R0") (Normal res); ENow t0; ENowISO stamp;
                EUpsertToken fields None]
           \/ t = [EFetch (oauth_request "R0") (Normal res); ENow t0; ENowISO stamp;
                   EUpdateToken "R0" fields None]).
Proof.
  intros r t.
  assert (Hrun : refreshToken "R0" seller_world [] = (Normal r, t))
    by (vm_compute; reflexivity).
  split; [exact Hrun |].
  exact (refresh_returns_what_it_stored "R0" seller_world [] r t Hrun).
Defined.

Lemma refresh_write_is_keyed_by_user_or_old_token_witness :
  let r := {| access_token := "A9"; refresh_token := "R0";
              expires_at := "1970-01-01T06:00:01.000Z" |} in
  let t := snd (refreshToken "R0" bare_grant_world []) in
  w_fetch bare_grant_world [] (oauth_request "R0") = Normal bare_grant
  /\ refreshToken "R0" bare_grant_world [] = (Normal r, t)
  /\ truthy (prop (json_or_empty bare_grant) "user_id") = false
  /\ exists fields,
       tw_user_id fields = None
       /\ filter is_token_write t = [EUpdateToken "R0" fields None].
Proof.
  intros r t.
  assert (Hrun : refreshToken "R0" bare_grant_world [] = (Normal r, t))
    by (vm_compute; reflexivity).
  split; [reflexivity |]. split; [exact Hrun |]. split; [reflexivity |].
  exact (proj2 (refresh_write_is_keyed_by_user_or_old_token "R0" bare_grant_world []
                  bare_grant r t eq_refl Hrun) eq_refl).
Defined.

Lemma refresh_keeps_token_when_none_is_issued_witness :
  let r := {| access_token := "A9"; refresh_token := "R0";
              expires_at := "1970-01-01T06:00:01.000Z" |} in
  let t := snd (refreshToken "R0" bare_grant_world []) in
  w_fetch bare_grant_world [] (oauth_request "R0") = Normal bare_grant
  /\ refreshToken "R0" bare_grant_world [] = (Normal r, t)
  /\ is_nullish (prop (json_or_empty bare_grant) "refresh_token") = true
  /\ refresh_token r = "R0".
Proof.
  intros r t.
  assert (Hrun : refreshToken "R0" bare_grant_world [] = (Normal r, t))
    by (vm_compute; reflexivity).
  split; [reflexivity |]. split; [exact Hrun |]. split; [reflexivity |].
  exact (proj1 (refresh_keeps_token_when_none_is_issued "R0" bare_grant_world []
                  bare_grant r t eq_refl Hrun) eq_refl).
Defined.

Lemma refused_refresh_writes_nothing_witness :
  let why :=
    "Refresh token failed: 400 {" +++ quote +++ "error" +++ quote +++ ":" +++ quote
      +++ "invalid_grant" +++ quote +++ "}" in
  ok refusal = false
  /\ ok unparsed = false
  /\ refreshToken "R0" (refusing_world refusal) []
     = (Thrown (Error_ why), [EFetch (oauth_request "R0") (Normal refusal)])
  /\ refreshToken "R0" (refusing_world unparsed) []
     = (Thrown (Error_ "Refresh token failed: 502 {}"),
        [EFetch (oauth_request "R0") (Normal unparsed)]).
Proof.
  intros why. split; [reflexivity |]. split; [reflexivity |]. split.
  - exact (refused_refresh_writes_nothing "R0" (refusing_world refusal) []
             refusal eq_refl eq_refl).
  - exact (refused_refresh_writes_nothing "R0" (refusing_world unparsed) []
             unparsed eq_refl eq_refl).
Defined.

Lemma refresh_fails_when_store_refuses_witness :
  (exists fields,
     In (EUpsertToken fields (Some db_down))
        (snd (refreshToken "R0" token_refused_world [])))
  /\ fst (refreshToken "R0" token_refused_world []) = Thrown db_down.
Proof.
  assert (Hin : exists fields,
            In (EUpsertToken fields (Some db_down))
               (snd (refreshToken "R0" token_refused_world []))).
  { eexists. vm_compute. do 3 right. left. reflexivity. }
  split; [exact Hin |].
  exact (proj1 (refresh_fails_when_store_refuses "R0" token_refused_world []
                  (fst (refreshToken "R0" token_refused_world []))
                  (snd (refreshToken "R0" token_refused_world [])) db_down
                  (surjective_pairing _) (or_introl Hin))).
Defined.

Lemma rows_mirror_the_listing_witness :
  (exists rows,
     cmap (normalize_item "MLC" category_job) [listing; VStr "MLC222"] = Normal rows
     /\ map row_raw rows = [listing; VStr "MLC222"]).
Proof.
  destruct (cmap (normalize_item "MLC" category_job) [listing; VStr "MLC222"])
    as [rows | e] eqn:Hrows; [| vm_compute in Hrows; discriminate Hrows].
  exists rows. split; [reflexivity |].
  exact (proj1 (rows_mirror_the_listing "MLC" category_job _ rows Hrows)).
Defined.

Lemma null_item_discards_the_listing_witness :
  let res : http_response num :=
    {| status := 200; json := Some (VObj [("results", VArr [listing; VNull])]) |} in
  ok res = true
  /\ In VNull (extractItems "MLC1234" (json_or_empty res))
  /\ exists e, settle_job "MLC" category_job res start category_world [] = (Thrown e, []).
Proof.
  intros res.
  assert (Hin : In VNull (extractItems (job_category_id category_job) (json_or_empty res)))
    by (right; left; reflexivity).
  split; [reflexivity |]. split; [exact Hin |].
  exact (null_item_discards_the_listing "MLC" category_job res start category_world []
           eq_refl Hin).
Defined.

Lemma listing_upsert_failure_is_isolated_witness :
  w_upsert_items items_refused_world [] [] = Some db_down
  /\ status_updates
       (snd (process_jobs "MLC" (Int 50) [category_job; seller_job] start
               items_refused_world []))
     = [(7%Z, "processing"); (7%Z, "error"); (9%Z, "processing"); (9%Z, "error")].
Proof.
  split; [reflexivity |].
  pose (st1 := {| accessToken := accessToken start; refreshTok := refreshTok start;
                  results := results start; processed := S (processed start);
                  inserted := inserted start |}).
  pose (tm := snd (mark_processing category_job items_refused_world [])).
  pose (run := fetch_listing (isSeller category_job)
                 (job_url "MLC" (Int 50) category_job) st1 items_refused_world
                 ([] ++ tm)).
  assert (Hrows : exists rows,
            cmap (normalize_item "MLC" category_job) [listing] = Normal rows).
  { eexists. vm_compute. reflexivity. }
  destruct Hrows as (rows & Hrows).
  destruct (listing_upsert_failure_is_isolated "MLC" (Int 50) category_job [seller_job]
              start items_refused_world []
              {| status := 200; json := Some (VObj [("results", VArr [listing])]) |}
              st1 (snd run) listing [] rows db_down
              eq_refl eq_refl eq_refl Hrows eq_refl) as (_ & Hloop).
  rewrite Hloop. vm_compute. reflexivity.
Defined.

Lemma empty_listing_is_done_without_upsert_witness :
  ok garbled = true
  /\ json garbled = None
  /\ fst (process_job "MLC" (Int 50) category_job start garbled_world [])
     = Normal {| accessToken := "A0"; refreshTok := "R0";
                 results := [ResultOk 7 "MLC1234" 0 "category_public"];
                 processed := 1; inserted := 0 |}
  /\ count is_upsert_items
       (snd (process_job "MLC" (Int 50) category_job start garbled_world [])) = 0.
Proof.
  split; [reflexivity |]. split; [reflexivity |].
  pose (st1 := {| accessToken := accessToken start; refreshTok := refreshTok start;
                  results := results start; processed := S (processed start);
                  inserted := inserted start |}).
  pose (tm := snd (mark_processing category_job garbled_world [])).
  pose (run := fetch_listing (isSeller category_job)
                 (job_url "MLC" (Int 50) category_job) st1 garbled_world ([] ++ tm)).
  rewrite (empty_listing_is_done_without_upsert "MLC" (Int 50) category_job start
             garbled_world [] garbled st1 (snd run) eq_refl eq_refl
             (or_introl eq_refl)).
  split; reflexivity.
Defined.

Lemma summary_accounts_for_the_batch_witness :
  data (w_select_jobs mixed_world [] "MLC" (Int 5))
    = Some [category_job; seller_job; other_seller_job]
  /\ fst (handler (post VUndefined []) mixed_world [])
     = Normal {| reply_status := 200;
                 reply_body_of := BodySummary "MLC" 3 6 "db" 2 mixed_results |}
  /\ 6 = list_sum (map entry_items mixed_results).
Proof.
  split; [reflexivity |].
  assert (Hrun : handler (post VUndefined []) mixed_world []
                 = (Normal {| reply_status := 200;
                              reply_body_of :=
                                BodySummary "MLC" 3 6 "db" 2 mixed_results |},
                    snd (handler (post VUndefined []) mixed_world [])))
    by (vm_compute; reflexivity).
  split; [rewrite Hrun; reflexivity |].
  destruct (summary_accounts_for_the_batch (RT := runtime) (post VUndefined []) mixed_world []
              "MLC" (Int 5) (Int 50) [category_job; seller_job; other_seller_job]
              200 "MLC" 3 6 "db" 2 mixed_results
              (snd (handler (post VUndefined []) mixed_world []))
              eq_refl eq_refl eq_refl eq_refl eq_refl Hrun)
    as (_ & _ & _ & _ & Hsum).
  exact Hsum.
Defined.

Lemma summary_means_every_job_is_final_witness :
  let t := snd (handler (post VUndefined []) mixed_world []) in
  data (w_select_jobs mixed_world [] "MLC" (Int 5))
    = Some [category_job; seller_job; other_seller_job]
  /\ (exists finals,
        List.length finals = 3
        /\ Forall is_final finals
        /\ status_updates t
           = finalized (combine [category_job; seller_job; other_seller_job] finals))
  /\ is_final (status_after t 7 "pending")
  /\ is_final (status_after t 9 "pending")
  /\ is_final (status_after t 10 "pending").
Proof.
  intros t. split; [reflexivity |].
  assert (Hrun : handler (post VUndefined []) mixed_world []
                 = (Normal {| reply_status := 200;
                              reply_body_of :=
                                BodySummary "MLC" 3 6 "db" 2 mixed_results |}, t))
    by (vm_compute; reflexivity).
  destruct (summary_means_every_job_is_final (RT := runtime) (post VUndefined [])
              mixed_world [] "MLC" (Int 5) (Int 50)
              [category_job; seller_job; other_seller_job]
              200 "MLC" 3 6 "db" 2 mixed_results t
              eq_refl eq_refl eq_refl eq_refl eq_refl Hrun) as (Hsent & Hleft).
  split; [exact Hsent |].
  assert (Hacc : forall id u r, In (EUpdateJob id u r) t -> r = None).
  { intros id u r Hin. vm_compute in Hin.
    repeat (destruct Hin as [Heq | Hin];
            [try discriminate Heq; injection Heq as _ _ <-; reflexivity |]).
    contradiction. }
  split; [| split].
  - apply (Hleft Hacc category_job). left. reflexivity.
  - apply (Hleft Hacc seller_job). right. left. reflexivity.
  - apply (Hleft Hacc other_seller_job). right. right. left. reflexivity.
Defined.

(** The hypothesis on the database is needed: when it refuses the final
    update of a job, the summary is the same and the job stays
    "processing". *)
Example refused_final_update_goes_unnoticed :
  let run := handler (post VUndefined []) (without_final_updates category_world) [] in
  fst run
  = Normal {| reply_status := 200;
              reply_body_of :=
                BodySummary "MLC" 1 1 "db" 2
                  [ResultOk 7 "MLC1234" 1 "category_public"] |}
  /\ status_updates (snd run) = [(7%Z, "processing"); (7%Z, "done")]
  /\ status_after (snd run) 7 "pending" = "processing".
Proof. vm_compute. repeat split. Qed.

Lemma summary_names_the_token_source_witness :
  let req := post VUndefined [("authorization", "Bearer  xyz ")] in
  fst (handler req mixed_world [])
  = Normal {| reply_status := 200;
              reply_body_of := BodySummary "MLC" 3 6 "header" 3 mixed_results |}
  /\ "header" = (if (incomingBearer req =? "")%string then "db" else "header").
Proof.
  intros req.
  assert (Hrun : handler req mixed_world []
                 = (Normal {| reply_status := 200;
                              reply_body_of :=
                                BodySummary "MLC" 3 6 "header" 3 mixed_results |},
                    snd (handler req mixed_world [])))
    by (vm_compute; reflexivity).
  split; [rewrite Hrun; reflexivity |].
  exact (proj1 (summary_names_the_token_source (RT := runtime) req mixed_world [] "MLC" (Int 5) (Int 50)
                  200 "MLC" 3 6 "header" 3 mixed_results
                  (snd (handler req mixed_world []))
                  eq_refl eq_refl eq_refl eq_refl Hrun)).
Defined.

Lemma only_jobs_of_the_batch_are_updated_witness :
  In (9%Z, "done")
     (status_updates
        (snd (process_jobs "MLC" (Int 50) [category_job; seller_job] start
                seller_world [])))
  /\ In 9%Z (map job_id [category_job; seller_job]).
Proof.
  assert (Hin : In (9%Z, "done")
                  (status_updates
                     (snd (process_jobs "MLC" (Int 50) [category_job; seller_job] start
                             seller_world [])))).
  { vm_compute. do 3 right. left. reflexivity. }
  split; [exact Hin |].
  exact (proj1 (only_jobs_of_the_batch_are_updated "MLC" (Int 50)
                  [category_job; seller_job] start seller_world [] 9%Z "done" Hin)).
Defined.

Lemma access_token_in_hand_is_never_sent_witness :
  same_but_access start (start_with "another token")
  /\ snd (process_jobs "MLC" (Int 50) [seller_job; other_seller_job] start
            two_sellers_world [])
     = snd (process_jobs "MLC" (Int 50) [seller_job; other_seller_job]
              (start_with "another token") two_sellers_world []).
Proof.
  assert (Hsame : same_but_access start (start_with "another token"))
    by (repeat split).
  split; [exact Hsame |].
  exact (access_token_in_hand_is_never_sent "MLC" (Int 50)
           [seller_job; other_seller_job] start (start_with "another token")
           two_sellers_world [] Hsame).
Defined.

Lemma queue_failure_is_reported_as_it_is_witness :
  error (w_select_jobs queue_down_world [] "MLC" (Int 5)) = Some db_down
  /\ handler (post VUndefined []) queue_down_world []
     = (Normal {| reply_status := 500;
                  reply_body_of := BodyFailure "connection refused" |},
        [ESelectJobs "MLC" (Int 5) (w_select_jobs queue_down_world [] "MLC" (Int 5))]).
Proof.
  split; [reflexivity |].
  exact (queue_failure_is_reported_as_it_is (post VUndefined []) queue_down_world []
           "MLC" (Int 5) (Int 50) db_down eq_refl eq_refl eq_refl eq_refl eq_refl).
Defined.

Lemma request_without_body_gets_the_defaults_witness :
  truthy (body (post (VStr "") [])) = false
  /\ resolve_batch (body_or_empty (post (VStr "") [])) = Normal (Int 5)
  /\ resolve_limit (body_or_empty (post (VStr "") [])) = Normal (Int 50).
Proof.
  split; [reflexivity |].
  destruct (request_without_body_gets_the_defaults (post (VStr "") []) idle_world []
              eq_refl eq_refl) as (_ & Hbatch & Hlimit & _).
  split; [exact Hbatch | exact Hlimit].
Defined.

Lemma seller_url_is_built_from_the_marker_witness :
  let j := {| job_id := 1; job_site_id := "MLA";
              job_category_id := "SELLER: 12 SELLER:3 ";
              job_status := "pending"; job_attempts := None |} in
  job_category_id j = "SELLER:" +++ " 12 SELLER:3 "
  /\ job_url "MLA" (Int 50) j
     = "https://api.mercadolibre.com/users/12%20SELLER%3A3/items/search?limit=50".
Proof.
  intros j. split; [reflexivity |].
  rewrite (proj2 (seller_url_is_built_from_the_marker "MLA" (Int 50) j)
             " 12 SELLER:3 " eq_refl).
  reflexivity.
Defined.

Lemma job_updates_are_claim_done_or_error_witness :
  let t := snd (process_jobs "MLC" (Int 50) [other_seller_job; veteran_job] start
                  two_sellers_world []) in
  let claim (n : Z) (stamp : string) : job_update :=
    {| upd_status := "processing"; upd_attempts := Some (Int n);
       upd_updated_at := stamp; upd_last_error := None |} in
  In (EUpdateJob 10 (claim 1%Z "1970-01-01T00:00:00.000Z") None) t
  /\ In (EUpdateJob 11 (claim 9007199254740992%Z "1970-01-01T00:00:11.000Z") None) t
  /\ job_attempts other_seller_job = None
  /\ job_attempts veteran_job = Some (Int 9007199254740992)
  /\ attempts_updates t
     = [(10%Z, Some (Int 1)); (10%Z, None);
        (11%Z, Some (Int 9007199254740992)); (11%Z, None)]
  /\ exists j,
       In j [other_seller_job; veteran_job] /\ 11%Z = job_id j
       /\ Some (Int 9007199254740992)
          = Some (add (match job_attempts j with
                       | Some a => a
                       | None => Int 0
                       end) (Int 1)).
Proof.
  intros t claim.
  assert (Hfirst : In (EUpdateJob 10 (claim 1%Z "1970-01-01T00:00:00.000Z") None) t).
  { vm_compute. repeat (first [left; reflexivity | right]). }
  assert (Hin : In (EUpdateJob 11
                      (claim 9007199254740992%Z "1970-01-01T00:00:11.000Z") None) t).
  { vm_compute. repeat (first [left; reflexivity | right]). }
  split; [exact Hfirst |]. split; [exact Hin |].
  split; [reflexivity |]. split; [reflexivity |].
  split; [vm_compute; reflexivity |].
  destruct (job_updates_are_claim_done_or_error "MLC" (Int 50)
              [other_seller_job; veteran_job] start two_sellers_world [] 11%Z _ None Hin)
    as (j & Hj & Hid & [(_ & Hattempts & _) | [(Hs & _) | (Hs & _)]]);
    try discriminate Hs.
  exists j. split; [exact Hj |]. split; [exact Hid | exact Hattempts].
Defined.

Lemma requests_are_searches_or_the_refresh_grant_witness :
  In (EFetch (oauth_request "R0") (oauth_answer (oauth_request "R0")))
     (snd (process_jobs "MLC" (Int 50) [seller_job] start seller_world []))
  /\ header "client_secret" (rq_body (oauth_request "R0")) = Some ML_CLIENT_SECRET
  /\ header "User-Agent" (rq_headers (oauth_request "R0")) = None.
Proof.
  assert (Hin : In (EFetch (oauth_request "R0") (oauth_answer (oauth_request "R0")))
                  (snd (process_jobs "MLC" (Int 50) [seller_job] start seller_world []))).
  { vm_compute. repeat (first [left; reflexivity | right]). }
  split; [exact Hin |].
  destruct (requests_are_searches_or_the_refresh_grant "MLC" (Int 50) [seller_job]
              start seller_world [] _ _ Hin)
    as [(j & _ & _ & _ & Hget & _) | (rt & _ & _ & _ & Hsecret & Hagent)].
  - discriminate Hget.
  - split; [exact Hsecret | exact Hagent].
Defined.

(** A batch of three jobs, two of them answered 401 anonymously: the
    counts of the budget. *)
Example budget_of_two_sellers :
  let t := snd (process_jobs "MLC" (Int 50) [seller_job; other_seller_job] start
                  two_sellers_world []) in
  count is_claim t = 2 /\ count is_public_fetch t = 2 /\ count is_refresh t = 2
  /\ count is_private_fetch t = 2 /\ count is_token_write t = 2
  /\ count is_fetch t = 6.
Proof. vm_compute. repeat split. Qed.

End FurtherRuns.
